(** * FCN pricing backend: feature pipeline and quote engine

    A shallow embedding of [fcn-web-app/backend/main.py]: the feature builder
    [compute_features], the single-quote endpoint [calculate_fcn] and the
    batch endpoint [batch_calculate_fcn], with the properties of the
    specification proved (or refuted) about them.

    Numbers.  A Python float is modelled by [num]: NaN, the two infinities
    or a rational.  Comparisons, [pd.notna], truthiness, [max], [min] and the
    sorts are evaluated on that representation.  The rounded operations of
    binary64 (addition, subtraction, multiplication, division, square root,
    [round]) are parameters of the development: nothing is assumed about
    them, so every theorem holds whatever they compute.  Python integers are
    [Z] with exact arithmetic. *)

From stdpp Require Import gmap strings.
From Stdlib Require Import ZArith QArith Qround DecimalString Permutation Sorted Lia.

Set Default Proof Using "Type".
(* [set_solver] clears hypotheses it has already consumed. *)
Set Warnings "-clear-no-such-hyp".

(* ================================================================== *)
(** * Python values *)

Inductive num : Type :=
| NaN
| NegInf
| PosInf
| Fin (q : Q).

Inductive pyval : Type :=
| PyInt (z : Z)
| PyFloat (x : num).

#[global] Instance pyval_inhabited : Inhabited pyval := populate (PyFloat NaN).

Definition of_Z (z : Z) : num := Fin (inject_Z z).

Definition to_num (v : pyval) : num :=
  match v with
  | PyInt z => of_Z z
  | PyFloat x => x
  end.

(** [np.nan] and [-np.inf]. *)
Definition np_nan : pyval := PyFloat NaN.
Definition neg_inf : pyval := PyFloat NegInf.

Definition Qltb (x y : Q) : bool :=
  match (x ?= y)%Q with
  | Lt => true
  | _ => false
  end.

(** IEEE-754 [<]: false as soon as one side is NaN. *)
Definition num_ltb (a b : num) : bool :=
  match a, b with
  | NaN, _ | _, NaN => false
  | NegInf, NegInf => false
  | NegInf, _ => true
  | _, NegInf => false
  | PosInf, _ => false
  | Fin _, PosInf => true
  | Fin x, Fin y => Qltb x y
  end.

(** IEEE-754 [==]. *)
Definition num_eqb (a b : num) : bool :=
  match a, b with
  | NegInf, NegInf | PosInf, PosInf => true
  | Fin x, Fin y => Qeq_bool x y
  | _, _ => false
  end.

Definition num_leb (a b : num) : bool := num_ltb a b || num_eqb a b.

Definition py_lt (a b : pyval) : bool := num_ltb (to_num a) (to_num b).
Definition py_gt (a b : pyval) : bool := py_lt b a.
Definition py_le (a b : pyval) : bool := num_leb (to_num a) (to_num b).
Definition py_ge (a b : pyval) : bool := py_le b a.
Definition py_eq (a b : pyval) : bool := num_eqb (to_num a) (to_num b).

(** [pd.notna] on a number, and on the result of [dict.get] without default
    ([None] when the key is missing). *)
Definition notna (v : pyval) : bool :=
  match v with
  | PyFloat NaN => false
  | _ => true
  end.

Definition notna_opt (o : option pyval) : bool :=
  match o with
  | Some v => notna v
  | None => false
  end.

(** Truthiness of a number: zero is false, NaN is true. *)
Definition truthy (v : pyval) : bool :=
  match v with
  | PyInt z => negb (z =? 0)%Z
  | PyFloat (Fin q) => negb (Qeq_bool q 0)
  | PyFloat _ => true
  end.

(** [v or 0]. *)
Definition or_zero (v : pyval) : pyval := if truthy v then v else PyInt 0.

(** [max(xs)] and [min(xs)] on a non-empty list: the first element is kept
    until a later one compares strictly greater (smaller). *)
Definition py_max (x : pyval) (xs : list pyval) : pyval :=
  fold_left (fun m y => if py_gt y m then y else m) xs x.

Definition py_min (x : pyval) (xs : list pyval) : pyval :=
  fold_left (fun m y => if py_lt y m then y else m) xs x.

(** [str(n)] for a natural number. *)
Definition str_of_nat (n : nat) : string := NilEmpty.string_of_uint (Nat.to_uint n).

(* ================================================================== *)
(** * [list.sort(key=..., reverse=True)] and [sorted(..., reverse=True)]

    The sort as CPython 3.11 runs it on a list of fewer than 64 elements: by
    binary insertion after the first run.  [count_run] takes the longest
    prefix that is either non-descending or strictly descending (which is
    then reversed), and [binarysort] puts each later element where a binary
    search finds its place in the sorted prefix.  The keys are compared by
    [<] only.  With [reverse=True] the list is reversed before and after.

    A list of 64 elements or more is cut in such runs, which are merged, and
    later versions find the first run in another way.  Where [<] is a strict
    weak order on the keys, as it is without NaN among them, the result is
    the same in every case: the stable sort, in which elements whose keys
    compare equal keep their input order ([sort_desc_stable] below).  The
    baskets, whose keys can be NaN, have at most four entries. *)

Section PySort.
Context {A K : Type} (ltb : K -> K -> bool) (key : A -> K).

(** The rest of a run after [prev]: it goes on while the next element is
    below the one before it (descending run) or is not (ascending run). *)
Fixpoint run_tail (descending : bool) (prev : A) (l : list A) : nat :=
  match l with
  | [] => 0%nat
  | x :: l' =>
      if Bool.eqb (ltb (key x) (key prev)) descending
      then S (run_tail descending x l') else 0%nat
  end.

(** [count_run]: the length of the run that starts the list, and whether it
    is descending. *)
Definition count_run (l : list A) : nat * bool :=
  match l with
  | [] => (0%nat, false)
  | [_] => (1%nat, false)
  | x :: y :: l' =>
      let descending := ltb (key y) (key x) in
      ((2 + run_tail descending y l')%nat, descending)
  end.

(** The binary search of [binarysort] for the place of [pivot] between the
    indices [l] and [r] of the sorted prefix; [r - l] steps are enough. *)
Fixpoint bisect (steps : nat) (sorted : list A) (pivot : A) (l r : nat) : nat :=
  match steps with
  | O => l
  | S steps =>
      if (l <? r)%nat then
        let p := (l + (r - l) / 2)%nat in
        match sorted !! p with
        | Some y =>
            if ltb (key pivot) (key y) then bisect steps sorted pivot l p
            else bisect steps sorted pivot (p + 1)%nat r
        | None => l
        end
      else l
  end.

Definition binary_insert (sorted : list A) (pivot : A) : list A :=
  let l := bisect (length sorted) sorted pivot 0%nat (length sorted) in
  take l sorted ++ pivot :: drop l sorted.

(** [binarysort] of the elements [rest] that follow the sorted prefix. *)
Definition binarysort (sorted rest : list A) : list A :=
  fold_left binary_insert rest sorted.

(** The ascending sort of a short list. *)
Definition list_sort (l : list A) : list A :=
  let '(n, descending) := count_run l in
  let run := take n l in
  binarysort (if descending then reverse run else run) (drop n l).

(** [reverse=True] *)
Definition sort_desc (l : list A) : list A := reverse (list_sort (reverse l)).
End PySort.

(* ================================================================== *)
(** * Market snapshot rows *)

(** One row of the data frame returned by [load_iv_data], after
    [pd.to_numeric(errors='coerce')]: every metric is a number or missing
    (NaN in the frame, [None] here). *)
Record row : Type := Row {
  BBG_Code : string;
  PX_LAST : option Q;
  PUT_IMP_VOL_3M : option Q;
  CALL_IMP_VOL_2M_25D : option Q;
  PUT_IMP_VOL_2M_25D : option Q;
  HIST_PUT_IMP_VOL : option Q;
  VOL_STDDEV : option Q;
  VOLATILITY_90D : option Q;
  VOL_PERCENTILE : option Q;
  CHG_PCT_1YR : option Q;
  CORR_COEF : option Q;
  DIVIDEND_YIELD : option Q
}.

Definition cell (c : option Q) : pyval :=
  match c with
  | Some q => PyFloat (Fin q)
  | None => np_nan
  end.

Definition iv_cols : list string :=
  ["PX_LAST"; "PUT_IMP_VOL_3M"; "CALL_IMP_VOL_2M_25D"; "PUT_IMP_VOL_2M_25D";
   "HIST_PUT_IMP_VOL"; "VOL_STDDEV"; "VOLATILITY_90D"; "VOL_PERCENTILE";
   "CHG_PCT_1YR"; "CORR_COEF"; "DIVIDEND_YIELD"].

(** [d.get(col)] on the dictionary of a row: [None] for a name that is not a
    column. *)
Definition row_get (d : row) (col : string) : option pyval :=
  if String.eqb col "PX_LAST" then Some (cell (PX_LAST d))
  else if String.eqb col "PUT_IMP_VOL_3M" then Some (cell (PUT_IMP_VOL_3M d))
  else if String.eqb col "CALL_IMP_VOL_2M_25D" then Some (cell (CALL_IMP_VOL_2M_25D d))
  else if String.eqb col "PUT_IMP_VOL_2M_25D" then Some (cell (PUT_IMP_VOL_2M_25D d))
  else if String.eqb col "HIST_PUT_IMP_VOL" then Some (cell (HIST_PUT_IMP_VOL d))
  else if String.eqb col "VOL_STDDEV" then Some (cell (VOL_STDDEV d))
  else if String.eqb col "VOLATILITY_90D" then Some (cell (VOLATILITY_90D d))
  else if String.eqb col "VOL_PERCENTILE" then Some (cell (VOL_PERCENTILE d))
  else if String.eqb col "CHG_PCT_1YR" then Some (cell (CHG_PCT_1YR d))
  else if String.eqb col "CORR_COEF" then Some (cell (CORR_COEF d))
  else if String.eqb col "DIVIDEND_YIELD" then Some (cell (DIVIDEND_YIELD d))
  else None.

(** The [input_data] dictionary both endpoints build. *)
Record deal_input : Type := DealInput {
  strike : Q;
  ko_barrier : Q;
  ki_barrier : Q;
  tenor : Z;
  cost : Q;
  barrier_type : string;
  non_call_periods : option Z
}.

Definition max_stocks : nat := 4.

(** [suffix = '' if i == 0 else f'_{i+1}'] *)
Definition suffix (i : nat) : string :=
  if (i =? 0)%nat then "" else "_" +:+ str_of_nat (i + 1).

(* ================================================================== *)
(** * The feature builder *)

Section Features.
(** The rounded binary64 operations. *)
Variables (fadd fsub fmul fdiv : num -> num -> num) (fsqrt : num -> num).

(** Python arithmetic: exact on two integers, in floating point as soon
    as one operand is a float; [/] is true division. *)
Definition py_add (a b : pyval) : pyval :=
  match a, b with
  | PyInt x, PyInt y => PyInt (x + y)
  | _, _ => PyFloat (fadd (to_num a) (to_num b))
  end.

Definition py_sub (a b : pyval) : pyval :=
  match a, b with
  | PyInt x, PyInt y => PyInt (x - y)
  | _, _ => PyFloat (fsub (to_num a) (to_num b))
  end.

Definition py_mul (a b : pyval) : pyval :=
  match a, b with
  | PyInt x, PyInt y => PyInt (x * y)
  | _, _ => PyFloat (fmul (to_num a) (to_num b))
  end.

Definition py_div (a b : pyval) : pyval := PyFloat (fdiv (to_num a) (to_num b)).

Definition np_sqrt (a : pyval) : pyval := PyFloat (fsqrt (to_num a)).

(** [sum(xs)] starts from the integer 0. *)
Definition py_sum (xs : list pyval) : pyval := fold_left py_add xs (PyInt 0).

(** [np.mean(xs)] on a non-empty list of floats. *)
Definition np_mean (x : pyval) (xs : list pyval) : pyval :=
  py_div (fold_left py_add xs x) (PyInt (Z.of_nat (length (x :: xs)))).

(** [f(xs) if xs else np.nan] *)
Definition agg_or_nan (f : pyval -> list pyval -> pyval) (xs : list pyval) : pyval :=
  match xs with
  | [] => np_nan
  | x :: r => f x r
  end.

(** [features[k]] for a key assigned earlier, and [features.get(k, np.nan)]. *)
Definition getitem (features : gmap string pyval) (k : string) : pyval :=
  default np_nan (features !! k).

(** [[d.get(col) for d in iv_data_list if d and pd.notna(d.get(col))]] *)
Definition col_values (col : string) (iv_data_list : list (option row)) : list pyval :=
  omap (fun o : option row =>
          d ← o; v ← row_get d col; if notna v then Some v else None)
       iv_data_list.

(** The loop that writes the raw columns [PUT_IMP_VOL_3M],
    [PUT_IMP_VOL_3M_2], ... in input order. *)
Definition raw_columns (iv_data_list : list (option row))
    (features : gmap string pyval) : gmap string pyval :=
  fold_left (fun features i =>
    fold_left (fun features col =>
      <[col +:+ suffix i :=
          match iv_data_list !! i with
          | Some (Some d) => default np_nan (row_get d col)
          | _ => np_nan
          end]> features)
      iv_cols features)
    (seq 0 max_stocks) features.

(** [iv_pairs]: the index of every slot with its 3-month put implied vol,
    [-np.inf] when it is missing. *)
Definition iv_pairs (features : gmap string pyval) : list (nat * pyval) :=
  (fun i =>
     let iv_val := getitem features ("PUT_IMP_VOL_3M" +:+ suffix i) in
     if notna iv_val then (i, iv_val) else (i, neg_inf))
  <$> seq 0 max_stocks.

Definition sorted_indices (features : gmap string pyval) : list nat :=
  fst <$> sort_desc py_lt snd (iv_pairs features).

(** The loop that writes the [_Rank_] columns. *)
Definition rank_columns (sorted_indices : list nat)
    (features : gmap string pyval) : gmap string pyval :=
  fold_left (fun features col =>
    fold_left (fun features rank =>
      let orig_idx := nth rank sorted_indices 0%nat in
      <[col +:+ "_Rank_" +:+ str_of_nat (rank + 1) :=
          getitem features (col +:+ suffix orig_idx)]> features)
      (seq 0 max_stocks) features)
    iv_cols features.

(** [IV_Skew_i] and [IV_Premium_i] in input order. *)
Definition skew_premium_columns (features : gmap string pyval) : gmap string pyval :=
  fold_left (fun features i =>
    let put_iv := getitem features ("PUT_IMP_VOL_2M_25D" +:+ suffix i) in
    let call_iv := getitem features ("CALL_IMP_VOL_2M_25D" +:+ suffix i) in
    let hist_iv := getitem features ("VOLATILITY_90D" +:+ suffix i) in
    let iv_3m := getitem features ("PUT_IMP_VOL_3M" +:+ suffix i) in
    let features :=
      <["IV_Skew_" +:+ str_of_nat (i + 1) :=
          if notna put_iv && notna call_iv then py_sub put_iv call_iv else np_nan]> features in
    <["IV_Premium_" +:+ str_of_nat (i + 1) :=
        if notna iv_3m && notna hist_iv && negb (py_eq hist_iv (PyInt 0))
        then py_div (py_sub iv_3m hist_iv) hist_iv else np_nan]> features)
    (seq 0 max_stocks) features.

(** [IV_Skew_Rank_r] and [IV_Premium_Rank_r]. *)
Definition skew_premium_rank_columns (sorted_indices : list nat)
    (features : gmap string pyval) : gmap string pyval :=
  fold_left (fun features rank =>
    let orig_idx := nth rank sorted_indices 0%nat in
    let features :=
      <["IV_Skew_Rank_" +:+ str_of_nat (rank + 1) :=
          getitem features ("IV_Skew_" +:+ str_of_nat (orig_idx + 1))]> features in
    <["IV_Premium_Rank_" +:+ str_of_nat (rank + 1) :=
        getitem features ("IV_Premium_" +:+ str_of_nat (orig_idx + 1))]> features)
    (seq 0 max_stocks) features.

(** [[features.get(f'{name}{i+1}') for i in range(basket_size)
      if pd.notna(features.get(f'{name}{i+1}'))]] *)
Definition indexed_values (name : string) (basket_size : nat)
    (features : gmap string pyval) : list pyval :=
  omap (fun i =>
          let v := features !! (name +:+ str_of_nat (i + 1)) in
          if notna_opt v then v else None)
       (seq 0 basket_size).

Definition mean_worst_iv : pyval := PyFloat (Fin (435 # 10)).
Definition mean_rank1_iv : pyval := PyFloat (Fin (524 # 10)).

Definition risk_keys : list string :=
  ["Annualized_Vol_Factor"; "KI_Distance_Std"; "KO_Distance_Std";
   "KI_Distance_Std_Sorted"; "Annualized_Vol"; "Corr_Adjusted_IV";
   "KI_Risk_Score"; "Basket_Risk_Score"; "Risk_Score_Sorted"].
(** [compute_features] is one function in the source; its body is cut here
    into the blocks its comments delimit, each taking the dictionary built
    so far. *)

(** Deal terms, the no-knock-out flag, fee, time and barrier features. *)
Definition deal_features (input_data : deal_input) : gmap string pyval :=
  let in_strike := PyFloat (Fin (strike input_data)) in
  let in_ko := PyFloat (Fin (ko_barrier input_data)) in
  let in_ki := PyFloat (Fin (ki_barrier input_data)) in
  let in_tenor := PyInt (tenor input_data) in
  let in_cost := PyFloat (Fin (cost input_data)) in
  let features : gmap string pyval := ∅ in
  let features := <["Strike (%)" := in_strike]> features in
  let features := <["KO Barrier (%)" := in_ko]> features in
  let features := <["KI Barrier (%)" := in_ki]> features in
  let features := <["Tenor (m)" := in_tenor]> features in
  let features :=
    <["Non-call Periods (m)" := PyInt (default 1%Z (non_call_periods input_data))]> features in
  let features := <["Cost (%)" := in_cost]> features in
  let features :=
    <["Barrier_Type_AKI" :=
        if String.eqb (barrier_type input_data) "AKI" then PyInt 1 else PyInt 0]> features in
  (* no knock-out when the non-call period is the whole tenor *)
  let features :=
    <["No_KO_Flag" :=
        if py_eq (getitem features "Non-call Periods (m)") in_tenor
        then PyInt 1 else PyInt 0]> features in
  let no_ko := getitem features "No_KO_Flag" in
  let features := <["No_KO_Tenor_Interaction" := py_mul no_ko in_tenor]> features in
  let features := <["No_KO_KI_Interaction" := py_mul no_ko in_ki]> features in
  let features := <["No_KO_Strike_Interaction" := py_mul no_ko in_strike]> features in
  (* fee *)
  let features := <["Fee" := py_sub (PyInt 100) in_cost]> features in
  let features :=
    <["Annualized_Fee" :=
        py_mul (py_div (getitem features "Fee") in_tenor) (PyInt 12)]> features in
  (* time *)
  let features := <["Tenor_Sqrt" := np_sqrt in_tenor]> features in
  let features := <["Tenor_Squared" := PyInt (tenor input_data ^ 2)]> features in
  let features :=
    <["Callable_Period" :=
        py_sub in_tenor (getitem features "Non-call Periods (m)")]> features in
  let features :=
    <["Callable_Ratio" := py_div (getitem features "Callable_Period") in_tenor]> features in
  let features :=
    <["NonCall_Ratio" :=
        py_div (getitem features "Non-call Periods (m)") in_tenor]> features in
  (* barriers *)
  let features := <["KO_Strike_Distance" := py_sub in_ko in_strike]> features in
  let features := <["Strike_KI_Distance" := py_sub in_strike in_ki]> features in
  let features := <["KO_KI_Range" := py_sub in_ko in_ki]> features in
  let features := <["KI_Strike_Ratio" := py_div in_ki in_strike]> features in
  let features := <["KO_Strike_Ratio" := py_div in_ko in_strike]> features in
  let features := <["KI_Distance_Pct" := py_sub in_strike in_ki]> features in
  <["KO_Distance_Pct" := py_sub in_ko in_strike]> features.

(** Basket size features. *)
Definition basket_features (basket_size : nat)
    (features : gmap string pyval) : gmap string pyval :=
  let features := <["Basket_Size" := PyInt (Z.of_nat basket_size)]> features in
  let features := <["Num_Underlyings" := PyInt (Z.of_nat basket_size)]> features in
  <["Basket_Complexity_Factor" :=
      py_div (PyInt (Z.of_nat basket_size)) (PyFloat (Fin 3))]> features.

(** Basket aggregates. *)
Definition aggregate_features (iv_data_list : list (option row)) (basket_size : nat)
    (features : gmap string pyval) : gmap string pyval :=
  let iv_values := col_values "PUT_IMP_VOL_3M" iv_data_list in
  let hv_values := col_values "VOLATILITY_90D" iv_data_list in
  let corr_values := col_values "CORR_COEF" iv_data_list in
  let features := <["Basket_Worst_IV" := agg_or_nan py_max iv_values]> features in
  let features := <["Basket_Best_IV" := agg_or_nan py_min iv_values]> features in
  let features :=
    <["Basket_IV_Range" :=
        if (2 <=? length iv_values)%nat
        then py_sub (agg_or_nan py_max iv_values) (agg_or_nan py_min iv_values)
        else PyInt 0]> features in
  let features := <["Basket_Avg_IV" := agg_or_nan np_mean iv_values]> features in
  let features := <["Basket_Worst_HV" := agg_or_nan py_max hv_values]> features in
  let features := <["Basket_Best_HV" := agg_or_nan py_min hv_values]> features in
  let features := <["Basket_Avg_HV" := agg_or_nan np_mean hv_values]> features in
  let features := <["Basket_Avg_Corr" := agg_or_nan np_mean corr_values]> features in
  let features := <["Basket_Min_Corr" := agg_or_nan py_min corr_values]> features in
  let features := <["Max_Correlation" := agg_or_nan py_max corr_values]> features in
  let features := <["Min_Correlation" := agg_or_nan py_min corr_values]> features in
  let skew_values := indexed_values "IV_Skew_" basket_size features in
  let premium_values := indexed_values "IV_Premium_" basket_size features in
  let features := <["Basket_Avg_Skew" := agg_or_nan np_mean skew_values]> features in
  let features := <["Basket_Max_Skew" := agg_or_nan py_max skew_values]> features in
  let features := <["Basket_Avg_IV_Premium" := agg_or_nan np_mean premium_values]> features in
  let features := <["Basket_Max_IV_Premium" := agg_or_nan py_max premium_values]> features in
  <["IV_HV_Ratio" :=
      match iv_values, hv_values with
      | _ :: _, _ :: _ =>
          py_div (agg_or_nan np_mean iv_values) (agg_or_nan np_mean hv_values)
      | _, _ => np_nan
      end]> features.

(** Risk scores: computed when [Basket_Worst_IV] is a number, NaN otherwise. *)
Definition risk_features (input_data : deal_input) (basket_size : nat)
    (features : gmap string pyval) : gmap string pyval :=
  let in_ki := PyFloat (Fin (ki_barrier input_data)) in
  let in_tenor := PyInt (tenor input_data) in
  let py_basket_size := PyInt (Z.of_nat basket_size) in
  let rank_1_iv := getitem features "PUT_IMP_VOL_3M_Rank_1" in
  let worst_iv := getitem features "Basket_Worst_IV" in
  let size_factor :=
    py_add (PyInt 1) (py_mul (PyFloat (Fin (2 # 10))) (py_sub py_basket_size (PyInt 1))) in
  if notna worst_iv then
    let features :=
      <["Annualized_Vol_Factor" :=
          py_mul (py_div worst_iv (PyInt 100))
                 (np_sqrt (py_div in_tenor (PyInt 12)))]> features in
    let features :=
      if py_gt (getitem features "Annualized_Vol_Factor") (PyInt 0) then
        let features :=
          <["KI_Distance_Std" :=
              py_div (py_div (getitem features "KI_Distance_Pct") (PyInt 100))
                     (getitem features "Annualized_Vol_Factor")]> features in
        let features :=
          <["KO_Distance_Std" :=
              py_div (py_div (getitem features "KO_Distance_Pct") (PyInt 100))
                     (getitem features "Annualized_Vol_Factor")]> features in
        <["KI_Distance_Std_Sorted" := getitem features "KI_Distance_Std"]> features
      else
        let features := <["KI_Distance_Std" := np_nan]> features in
        let features := <["KO_Distance_Std" := np_nan]> features in
        <["KI_Distance_Std_Sorted" := np_nan]> features in
    let features :=
      <["Annualized_Vol" :=
          if notna (getitem features "Basket_Avg_IV")
          then py_mul (getitem features "Basket_Avg_IV")
                      (np_sqrt (py_div in_tenor (PyInt 12)))
          else np_nan]> features in
    let multi_name :=
      notna (getitem features "Basket_Avg_Corr") && (1 <? basket_size)%nat in
    let features :=
      <["Corr_Adjusted_IV" :=
          if multi_name then
            py_mul worst_iv
              (py_add (PyInt 1)
                 (py_mul (py_mul (PyFloat (Fin (1 # 10))) (py_sub py_basket_size (PyInt 1)))
                         (py_sub (PyInt 1) (getitem features "Basket_Avg_Corr"))))
          else worst_iv]> features in
    (* the reference mean of the worst implied vol is the constant 43.5 *)
    let features :=
      <["KI_Risk_Score" :=
          py_mul (py_div worst_iv mean_worst_iv) (py_div in_ki (PyInt 100))]> features in
    let features :=
      <["Basket_Risk_Score" :=
          py_mul (getitem features "KI_Risk_Score") size_factor]> features in
    let features :=
      if multi_name then
        <["Basket_Risk_Score" :=
            py_mul (getitem features "Basket_Risk_Score")
              (py_add (PyInt 1)
                 (py_mul (PyFloat (Fin (1 # 10)))
                         (py_sub (PyInt 1) (getitem features "Basket_Avg_Corr"))))]> features
      else features in
    <["Risk_Score_Sorted" :=
        if notna rank_1_iv then
          py_mul (py_mul (py_div rank_1_iv mean_rank1_iv) (py_div in_ki (PyInt 100)))
                 size_factor
        else py_mul (getitem features "KI_Risk_Score") size_factor]> features
  else
    fold_left (fun features key => <[key := np_nan]> features) risk_keys features.

(** [compute_features(input_data, iv_data_list)]: the dictionary [features]
    from which the one-row data frame is built. *)
Definition compute_features (input_data : deal_input)
    (iv_data_list : list (option row)) : gmap string pyval :=
  let features := deal_features input_data in
  let basket_size := length (filter (fun d : option row => is_Some d) iv_data_list) in
  let features := basket_features basket_size features in
  (* raw columns, then the columns ranked by 3-month put implied vol *)
  let features := raw_columns iv_data_list features in
  let sorted_indices := sorted_indices features in
  let features := rank_columns sorted_indices features in
  let features := skew_premium_columns features in
  let features := skew_premium_rank_columns sorted_indices features in
  let features := aggregate_features iv_data_list basket_size features in
  let features := risk_features input_data basket_size features in
  let features :=
    <["Return_Potential" :=
        py_mul (py_div (PyFloat (Fin (ko_barrier input_data))) (PyInt 100))
               (py_div (PyInt (tenor input_data)) (PyInt 12))]> features in
  <["No_KO_Basket_Interaction" :=
      py_mul (getitem features "No_KO_Flag") (PyInt (Z.of_nat basket_size))]> features.

End Features.

(* ================================================================== *)
(** * Requests, responses and the server state *)

(** The deal terms shared by [FCNRequest] and [BatchFCNRequest]. *)
Record deal_terms : Type := DealTerms {
  period : Z;
  strikePrice : Q;
  knockOutPrice : Q;
  knockInPrice : Q;
  kiType : string;
  customFeeRate : Q;
  pricingDate : option string;
  nonCallPeriods : option Z
}.

Record FCNRequest : Type := FCNReq {
  stocks : list string;
  fcn_terms : deal_terms
}.

Record BatchFCNRequest : Type := BatchReq {
  stockPool : list string;
  basketSizes : list Z;
  batch_terms : deal_terms
}.

(** The entry of [stock_info] for one symbol ([safe_float] of three cells). *)
Record stock_summary : Type := StockSummary {
  price : option Q;
  put_iv_3m : option Q;
  vol_90d : option Q
}.

Record params_echo : Type := ParamsEcho {
  echo_period : Z;
  echo_strike : Q;
  echo_ko_barrier : Q;
  echo_ki_barrier : Q;
  echo_ki_type : string;
  echo_non_call_periods : Z;
  echo_no_ko : bool
}.

(** [FCNResponse]; the constant fields [model_used] and [has_calibration]
    and the market indices are left out. *)
Record FCNResponse : Type := FCNResp {
  annualized_yield : Q;
  calibrated_yield : option Q;
  input_params : params_echo;
  cost_pct : Q;
  pricing_date_used : string;
  stock_info_out : gmap string stock_summary
}.

Inductive risk_level : Type := low | medium | high.

(** One element of [quotes]. *)
Record Quote : Type := MkQuote {
  quote_ident : string;
  quote_stocks : list string;
  basketSize : Z;
  couponRate : pyval;
  distanceToKI : pyval;
  maxIV : option pyval;
  riskLevel : risk_level;
  stockInfo : gmap string stock_summary;
  yieldBoost : option pyval
}.

Record BatchResponse : Type := BatchResp {
  quotes : list Quote;
  totalCount : nat;
  pricingDate_out : string;
  params : params_echo
}.

(** The model object: [model.predict(X)[0]] on a one-row frame. *)
Abbreviation frame := (list (string * pyval)).
Definition regressor : Type := frame -> num.

(** What the process holds: the model (or [None]), the persisted feature
    list and the snapshot files of [IV_DATA_PATH], one frame per date key. *)
Record world : Type := World {
  model : option regressor;
  feature_cols : list string;
  iv_files : list (string * list row)
}.

(** Exceptions.  The [detail] of an [HTTPException] is kept symbolic. *)
Inductive detail : Type :=
| ModelNotLoaded
| NoIVData
| KINotBelowStrike
| KONotAboveStrike
| BadBasketSizes
| StockNotFound (bbg : string)
| EmptyPool
| MissingFile (date_key : string)
| CalcError (inner : exn)
| BatchCalcError (inner : exn)
with exn : Type :=
| HTTPException (status_code : Z) (d : detail)
| FileNotFoundError (date_key : string).

Inductive result (A : Type) : Type :=
| Raise (e : exn)
| Return (a : A).
Arguments Raise {A} e.
Arguments Return {A} a.

(** What a request computes on its way: the calls of [compute_features]
    (with the dictionary built) and of [model.predict] (with the frame). *)
Inductive event : Type :=
| ComputeFeatures (features : gmap string pyval)
| Predict (X : frame).

(** Handlers run in a writer-and-exception monad. *)
Definition M (A : Type) : Type := (list event * result A)%type.

#[global] Instance M_ret : MRet M := fun A a => ([], Return a).

#[global] Instance M_bind : MBind M := fun A B f m =>
  match m with
  | (l, Raise e) => (l, Raise e)
  | (l, Return a) => let '(l', r) := f a in (l ++ l', r)
  end.

Definition raise {A : Type} (e : exn) : M A := ([], Raise e).

Definition tell (ev : event) : M unit := ([ev], Return tt).

(** [try: body except ... : handler] *)
Definition try_except {A : Type} (body : M A) (handler : exn -> M A) : M A :=
  match body with
  | (l, Raise e) => let '(l', r) := handler e in (l ++ l', r)
  | (l, Return a) => (l, Return a)
  end.

(** A Python dictionary whose key order is observed: keys in insertion
    order, assignment to an existing key updates it in place. *)
Fixpoint dict_set {V : Type} (k : string) (v : V) (d : list (string * V)) : list (string * V) :=
  match d with
  | [] => [(k, v)]
  | (k', v') :: d' => if String.eqb k' k then (k', v) :: d' else (k', v') :: dict_set k v d'
  end.

Fixpoint dict_get {V : Type} (d : list (string * V)) (k : string) : option V :=
  match d with
  | [] => None
  | (k', v') :: d' => if String.eqb k' k then Some v' else dict_get d' k
  end.

(** [itertools.combinations(l, k)]: the [k]-element subsequences of [l], in
    lexicographic order of positions. *)
Fixpoint combinations {A : Type} (l : list A) (k : nat) : list (list A) :=
  match k with
  | O => [[]]
  | S k' =>
      match l with
      | [] => []
      | x :: l' => (cons x <$> combinations l' k') ++ combinations l' k
      end
  end.

(** [get_available_dates()]: the date keys, latest first. *)
Definition get_available_dates (w : world) : list string :=
  sort_desc String.ltb (fun s : string => s) (fst <$> iv_files w).

(** [load_iv_data(date_key)]; the cache is transparent. *)
Definition load_iv_data (w : world) (date_key : string) : M (list row) :=
  match dict_get (iv_files w) date_key with
  | Some df_iv => mret df_iv
  | None => raise (FileNotFoundError date_key)
  end.

(** [safe_float]: [None] for NaN and the infinities. *)
Definition safe_float (x : num) : option Q :=
  match x with
  | Fin q => Some q
  | _ => None
  end.

(** [df_iv[df_iv['BBG_Code'] == bbg]] and, when it is not empty, [.iloc[0]]. *)
Definition stock_data (df_iv : list row) (bbg : string) : list row :=
  filter (fun r => String.eqb (BBG_Code r) bbg = true) df_iv.

Definition summary_of (r : row) : stock_summary :=
  {| price := PX_LAST r; put_iv_3m := PUT_IMP_VOL_3M r; vol_90d := VOLATILITY_90D r |}.

(** [key=lambda x: x.get('PUT_IMP_VOL_3M', 0) or 0] *)
Definition iv_sort_key (x : row) : pyval :=
  or_zero (default (PyInt 0) (row_get x "PUT_IMP_VOL_3M")).

(** [iv_data_list.sort(key=..., reverse=True)] and the padding loop
    [while len(iv_data_list) < 4: iv_data_list.append(None)]. *)
Definition sort_and_pad (iv_data_list : list row) : list (option row) :=
  let iv_data_list := sort_desc py_lt iv_sort_key iv_data_list in
  (Some <$> iv_data_list) ++ replicate (4 - length iv_data_list) None.

(** [non_call = request.nonCallPeriods if request.nonCallPeriods else 1]
    followed by [non_call = min(non_call, request.period)]. *)
Definition resolve_non_call (t : deal_terms) : Z :=
  let non_call :=
    match nonCallPeriods t with
    | Some n => if (n =? 0)%Z then 1%Z else n
    | None => 1%Z
    end in
  Z.min non_call (period t).

Definition make_input (t : deal_terms) : deal_input :=
  {| strike := strikePrice t;
     ko_barrier := knockOutPrice t;
     ki_barrier := knockInPrice t;
     tenor := period t;
     cost := customFeeRate t;
     barrier_type := kiType t;
     non_call_periods := Some (resolve_non_call t) |}.

(** [pricing_date = request.pricingDate if request.pricingDate else dates[0]] *)
Definition resolve_pricing_date (t : deal_terms) (latest : string) : string :=
  match pricingDate t with
  | Some s => if String.eqb s "" then latest else s
  | None => latest
  end.

Definition echo_params (t : deal_terms) : params_echo :=
  {| echo_period := period t;
     echo_strike := strikePrice t;
     echo_ko_barrier := knockOutPrice t;
     echo_ki_barrier := knockInPrice t;
     echo_ki_type := kiType t;
     echo_non_call_periods := resolve_non_call t;
     echo_no_ko := (resolve_non_call t =? period t)%Z |}.

(** [features_df.reindex(columns=feature_cols)]: one column per name of the
    list, in its order, NaN where the frame has no such column. *)
Definition reindex (features_df : gmap string pyval) (columns : list string) : frame :=
  (fun name => (name, default np_nan (features_df !! name))) <$> columns.

(* ================================================================== *)
(** * The endpoints *)

Section Engine.
Variables (fadd fsub fmul fdiv : num -> num -> num) (fsqrt : num -> num).
(** [round(x, ndigits)] *)
Variable fround : num -> nat -> num.

Definition py_round (v : pyval) (ndigits : nat) : pyval := PyFloat (fround (to_num v) ndigits).

(** The loop of [calculate_fcn] over [request.stocks]: a symbol without a
    row raises. *)
Fixpoint collect_rows (df_iv : list row) (symbols : list string)
    (iv_data_list : list row) (stock_info : gmap string stock_summary)
    : M (list row * gmap string stock_summary) :=
  match symbols with
  | [] => mret (iv_data_list, stock_info)
  | bbg :: rest =>
      match stock_data df_iv bbg with
      | r :: _ =>
          collect_rows df_iv rest (iv_data_list ++ [r]) (<[bbg := summary_of r]> stock_info)
      | [] => raise (HTTPException 400 (StockNotFound bbg))
      end
  end.

(** [compute_features], [reindex] and [model.predict] with the fallback
    [predicted_coupon = 0.0] when [safe_float] gives [None]. *)
Definition predict_coupon (mdl : regressor) (columns : list string)
    (input_data : deal_input) (iv_data_list : list (option row)) : M Q :=
  let features_df := compute_features fadd fsub fmul fdiv fsqrt input_data iv_data_list in
  _ ← tell (ComputeFeatures features_df);
  let X := reindex features_df columns in
  _ ← tell (Predict X);
  mret (default 0%Q (safe_float (mdl X))).

(** [POST /api/fcn/calculate] *)
Definition calculate_fcn (w : world) (request : FCNRequest) : M FCNResponse :=
  let t := fcn_terms request in
  match model w with
  | None => raise (HTTPException 500 ModelNotLoaded)
  | Some mdl =>
      match get_available_dates w with
      | [] => raise (HTTPException 404 NoIVData)
      | latest :: _ =>
          let pricing_date := resolve_pricing_date t latest in
          if Qle_bool (strikePrice t) (knockInPrice t) then
            raise (HTTPException 400 KINotBelowStrike)
          else if Qle_bool (knockOutPrice t) (strikePrice t) then
            raise (HTTPException 400 KONotAboveStrike)
          else
            try_except
              (df_iv ← load_iv_data w pricing_date;
               '(iv_data_list, stock_info) ← collect_rows df_iv (stocks request) [] ∅;
               let iv_data_list := sort_and_pad iv_data_list in
               let input_data := make_input t in
               predicted_coupon ← predict_coupon mdl (feature_cols w) input_data iv_data_list;
               mret {| annualized_yield := predicted_coupon;
                       calibrated_yield := Some predicted_coupon;
                       input_params := echo_params t;
                       cost_pct := customFeeRate t;
                       pricing_date_used := pricing_date;
                       stock_info_out := stock_info |})
              (fun e =>
                 match e with
                 | FileNotFoundError date_key =>
                     raise (HTTPException 404 (MissingFile date_key))
                 | _ => raise (HTTPException 500 (CalcError e))
                 end)
      end
  end.

(** The loop of [batch_calculate_fcn] over [request.stockPool]: a symbol
    without a row is skipped. *)
Fixpoint collect_pool (df_iv : list row) (symbols : list string)
    (stock_iv_data : list (string * row)) (stock_info : gmap string stock_summary)
    : list (string * row) * gmap string stock_summary :=
  match symbols with
  | [] => (stock_iv_data, stock_info)
  | bbg :: rest =>
      match stock_data df_iv bbg with
      | r :: _ =>
          collect_pool df_iv rest (dict_set bbg r stock_iv_data)
                       (<[bbg := summary_of r]> stock_info)
      | [] => collect_pool df_iv rest stock_iv_data stock_info
      end
  end.

(** The three-way classification on the knock-in barrier and the strike. *)
Definition classify_risk (t : deal_terms) : risk_level :=
  if Qltb (knockInPrice t) 60 && Qltb 85 (strikePrice t) then low
  else if Qltb 70 (knockInPrice t) || Qltb (strikePrice t) 70 then high
  else medium.

(** The body of the inner loop: one combination, one quote. *)
Definition quote_combo (mdl : regressor) (columns : list string) (t : deal_terms)
    (base_input : deal_input) (stock_iv_data : list (string * row))
    (stock_info : gmap string stock_summary)
    (basket_size : Z) (quote_id : nat) (combo_list : list string) : M Quote :=
  let iv_data_list := omap (dict_get stock_iv_data) combo_list in
  let iv_data_list := sort_and_pad iv_data_list in
  predicted_coupon ← predict_coupon mdl columns base_input iv_data_list;
  let max_iv :=
    agg_or_nan py_max
      ((fun s =>
          match stock_info !! s ≫= put_iv_3m with
          | Some iv => or_zero (PyFloat (Fin iv))
          | None => PyInt 0
          end) <$> combo_list) in
  let distance_to_ki :=
    py_sub fsub (PyFloat (Fin (strikePrice t))) (PyFloat (Fin (knockInPrice t))) in
  let risk_level := classify_risk t in
  mret {| quote_ident := "quote-" +:+ str_of_nat quote_id;
          quote_stocks := combo_list;
          basketSize := basket_size;
          couponRate := py_round (PyFloat (Fin predicted_coupon)) 2;
          distanceToKI := py_round distance_to_ki 1;
          maxIV := if truthy max_iv then Some (py_round max_iv 1) else None;
          riskLevel := risk_level;
          stockInfo := filter (fun kv => kv.1 ∈ combo_list) stock_info;
          yieldBoost := None |}.

(** The inner loop, threading [quotes] and [quote_id]. *)
Fixpoint quote_combos (mdl : regressor) (columns : list string) (t : deal_terms)
    (base_input : deal_input) (stock_iv_data : list (string * row))
    (stock_info : gmap string stock_summary) (basket_size : Z)
    (combos : list (list string)) (quotes : list Quote) (quote_id : nat)
    : M (list Quote * nat) :=
  match combos with
  | [] => mret (quotes, quote_id)
  | combo :: rest =>
      q ← quote_combo mdl columns t base_input stock_iv_data stock_info
                      basket_size quote_id combo;
      quote_combos mdl columns t base_input stock_iv_data stock_info basket_size
                   rest (quotes ++ [q]) (quote_id + 1)
  end.

(** The outer loop over [valid_sizes]. *)
Fixpoint quote_sizes (mdl : regressor) (columns : list string) (t : deal_terms)
    (base_input : deal_input) (stock_iv_data : list (string * row))
    (stock_info : gmap string stock_summary) (valid_stocks : list string)
    (sizes : list Z) (quotes : list Quote) (quote_id : nat)
    : M (list Quote * nat) :=
  match sizes with
  | [] => mret (quotes, quote_id)
  | basket_size :: rest =>
      if (Z.of_nat (length valid_stocks) <? basket_size)%Z then
        quote_sizes mdl columns t base_input stock_iv_data stock_info valid_stocks
                    rest quotes quote_id
      else
        '(quotes, quote_id) ←
          quote_combos mdl columns t base_input stock_iv_data stock_info basket_size
                       (combinations valid_stocks (Z.to_nat basket_size)) quotes quote_id;
        quote_sizes mdl columns t base_input stock_iv_data stock_info valid_stocks
                    rest quotes quote_id
  end.

(** [avg_coupon_by_size]: the mean [couponRate] of every size that has a
    quote. *)
Definition avg_coupon_by_size (valid_sizes : list Z) (quotes : list Quote) : gmap Z pyval :=
  fold_left (fun avg size =>
    let size_quotes := filter (fun q => basketSize q = size) quotes in
    match size_quotes with
    | [] => avg
    | _ :: _ =>
        <[size := py_div fdiv (py_sum fadd (couponRate <$> size_quotes))
                              (PyInt (Z.of_nat (length size_quotes)))]> avg
    end) valid_sizes ∅.

(** [min(valid_sizes)] on a non-empty list. *)
Definition min_of (x : Z) (xs : list Z) : Z :=
  fold_left (fun m y => if (y <? m)%Z then y else m) xs x.

(** The last loop: the boost of every quote. *)
Definition set_yield_boost (avg : gmap Z pyval) (min_size : Z) (quote : Quote) : Quote :=
  let boost :=
    match avg !! min_size with
    | Some avg_min =>
        if (min_size <? basketSize quote)%Z then
          Some (py_round (py_sub fsub (default (PyInt 0) (avg !! basketSize quote)) avg_min) 2)
        else None
    | None => None
    end in
  {| quote_ident := quote_ident quote;
     quote_stocks := quote_stocks quote;
     basketSize := basketSize quote;
     couponRate := couponRate quote;
     distanceToKI := distanceToKI quote;
     maxIV := maxIV quote;
     riskLevel := riskLevel quote;
     stockInfo := stockInfo quote;
     yieldBoost := boost |}.

(** [POST /api/fcn/batch-calculate] *)
Definition batch_calculate_fcn (w : world) (request : BatchFCNRequest) : M BatchResponse :=
  let t := batch_terms request in
  match model w with
  | None => raise (HTTPException 500 ModelNotLoaded)
  | Some mdl =>
      match get_available_dates w with
      | [] => raise (HTTPException 404 NoIVData)
      | latest :: _ =>
          let pricing_date := resolve_pricing_date t latest in
          if Qle_bool (strikePrice t) (knockInPrice t) then
            raise (HTTPException 400 KINotBelowStrike)
          else if Qle_bool (knockOutPrice t) (strikePrice t) then
            raise (HTTPException 400 KONotAboveStrike)
          else
            let valid_sizes :=
              filter (fun s => (1 <= s)%Z /\ (s <= 4)%Z) (basketSizes request) in
            match valid_sizes with
            | [] => raise (HTTPException 400 BadBasketSizes)
            | size0 :: sizes =>
                try_except
                  (df_iv ← load_iv_data w pricing_date;
                   let '(stock_iv_data, stock_info) :=
                     collect_pool df_iv (stockPool request) [] ∅ in
                   let valid_stocks := fst <$> stock_iv_data in
                   if (length valid_stocks =? 0)%nat then
                     raise (HTTPException 400 EmptyPool)
                   else
                     let base_input := make_input t in
                     '(quotes, _) ←
                       quote_sizes mdl (feature_cols w) t base_input stock_iv_data
                                   stock_info valid_stocks valid_sizes [] 0%nat;
                     let quotes := sort_desc py_lt couponRate quotes in
                     let avg := avg_coupon_by_size valid_sizes quotes in
                     let min_size := min_of size0 sizes in
                     let quotes := set_yield_boost avg min_size <$> quotes in
                     mret {| quotes := quotes;
                             totalCount := length quotes;
                             pricingDate_out := pricing_date;
                             params := echo_params t |})
                  (fun e =>
                     match e with
                     | FileNotFoundError date_key =>
                         raise (HTTPException 404 (MissingFile date_key))
                     | _ => raise (HTTPException 500 (BatchCalcError e))
                     end)
            end
      end
  end.

End Engine.

(* ================================================================== *)
(** * An exact instance of the arithmetic

    Rational arithmetic without rounding error, used to run the endpoints on
    concrete requests.  [round] is round-half-to-even on the decimal, the
    square root is truncated to six decimals. *)

Module Exact.

Definition lift2 (f : Q -> Q -> Q) (a b : num) : num :=
  match a, b with
  | Fin x, Fin y => Fin (Qred (f x y))
  | _, _ => NaN
  end.

Definition fadd : num -> num -> num := lift2 Qplus.
Definition fsub : num -> num -> num := lift2 Qminus.
Definition fmul : num -> num -> num := lift2 Qmult.

Definition fdiv (a b : num) : num :=
  match a, b with
  | Fin x, Fin y => if Qeq_bool y 0 then NaN else Fin (Qred (x / y))
  | _, _ => NaN
  end.

Definition fsqrt (a : num) : num :=
  match a with
  | Fin x =>
      if Qltb x 0 then NaN
      else Fin (Qred (Z.sqrt (Qfloor (x * 1000000000000)) # 1000000))
  | _ => NaN
  end.

(** The integer nearest to [x], ties to the even one. *)
Definition round_half_even (x : Q) : Z :=
  let f := Qfloor x in
  match (x - inject_Z f ?= 1 # 2)%Q with
  | Lt => f
  | Gt => (f + 1)%Z
  | Eq => if Z.even f then f else (f + 1)%Z
  end.

Definition fround (a : num) (ndigits : nat) : num :=
  match a with
  | Fin x =>
      let scale := (10 ^ Z.of_nat ndigits)%Z in
      Fin (Qred (inject_Z (round_half_even (x * inject_Z scale)) / inject_Z scale))
  | _ => a
  end.

Abbreviation compute_features := (compute_features fadd fsub fmul fdiv fsqrt).
Abbreviation calculate_fcn := (calculate_fcn fadd fsub fmul fdiv fsqrt).
Abbreviation batch_calculate_fcn :=
  (batch_calculate_fcn fadd fsub fmul fdiv fsqrt fround).

End Exact.

(* ================================================================== *)
(** * Auxiliary definitions used in the statements and proofs *)

(** A loop assigning one key per element of [l], the value possibly read
    from the dictionary built so far. *)
Definition write_all {A V : Type} (key : A -> string) (val : gmap string V -> A -> V)
    (l : list A) (m : gmap string V) : gmap string V :=
  fold_left (fun m a => <[key a := val m a]> m) l m.

Definition is_nan (a : num) : bool :=
  match a with
  | NaN => true
  | _ => false
  end.

(** The stable descending sort by insertion, to which the sort amounts on
    keys that [ltb] orders. *)
Fixpoint insert_desc {A K : Type} (ltb : K -> K -> bool) (key : A -> K)
    (x : A) (l : list A) : list A :=
  match l with
  | [] => [x]
  | y :: l' => if ltb (key x) (key y) then y :: insert_desc ltb key x l' else x :: l
  end.

Definition stable_sort_desc {A K : Type} (ltb : K -> K -> bool) (key : A -> K)
    (l : list A) : list A :=
  foldr (insert_desc ltb key) [] l.

(** The two relations of a descending sort on keys compared by [ltb]:
    [x] does not sort after [y], and [x] sorts strictly before [y]. *)
Definition not_below {A K : Type} (ltb : K -> K -> bool) (key : A -> K) (x y : A) : Prop :=
  ltb (key x) (key y) = false.

Definition above {A K : Type} (ltb : K -> K -> bool) (key : A -> K) (x y : A) : Prop :=
  ltb (key y) (key x) = true.

(** The keys written by the raw-column loop and by the ranked-column loop,
    in the order of the loops. *)
Definition raw_slots : list (nat * string) :=
  i ← seq 0 max_stocks; col ← iv_cols; [(i, col)].

Definition raw_key (a : nat * string) : string := a.2 +:+ suffix a.1.

Definition rank_slots : list (string * nat) :=
  col ← iv_cols; rank ← seq 0 max_stocks; [(col, rank)].

Definition rank_key (a : string * nat) : string :=
  a.1 +:+ "_Rank_" +:+ str_of_nat (a.2 + 1).

(** The keys written by the other blocks of [compute_features]. *)
Definition basket_keys : list string :=
  ["Basket_Size"; "Num_Underlyings"; "Basket_Complexity_Factor"].

Definition skew_keys : list string :=
  i ← seq 0 max_stocks;
  ["IV_Skew_" +:+ str_of_nat (i + 1); "IV_Premium_" +:+ str_of_nat (i + 1)].

Definition skew_rank_keys : list string :=
  i ← seq 0 max_stocks;
  ["IV_Skew_Rank_" +:+ str_of_nat (i + 1); "IV_Premium_Rank_" +:+ str_of_nat (i + 1)].

Definition aggregate_keys : list string :=
  ["Basket_Worst_IV"; "Basket_Best_IV"; "Basket_IV_Range"; "Basket_Avg_IV";
   "Basket_Worst_HV"; "Basket_Best_HV"; "Basket_Avg_HV"; "Basket_Avg_Corr";
   "Basket_Min_Corr"; "Max_Correlation"; "Min_Correlation"; "Basket_Avg_Skew";
   "Basket_Max_Skew"; "Basket_Avg_IV_Premium"; "Basket_Max_IV_Premium"; "IV_HV_Ratio"].

Definition final_keys : list string := ["Return_Potential"; "No_KO_Basket_Interaction"].

(** The value of column [col] at input slot [i]: NaN for an empty slot. *)
Definition slot_val (iv_data_list : list (option row)) (col : string) (i : nat) : pyval :=
  match iv_data_list !! i with
  | Some (Some d) => default np_nan (row_get d col)
  | _ => np_nan
  end.

(** The sort key of slot [i] and the order of the slots after the sort. *)
Definition slot_sort_key (iv_data_list : list (option row)) (i : nat) : pyval :=
  let iv_val := slot_val iv_data_list "PUT_IMP_VOL_3M" i in
  if notna iv_val then iv_val else neg_inf.

Definition ranking (iv_data_list : list (option row)) : list nat :=
  fst <$> sort_desc py_lt snd
            ((fun i => (i, slot_sort_key iv_data_list i)) <$> seq 0 max_stocks).

(** The first row of [df_iv] for a symbol, if any. *)
Definition first_row (df_iv : list row) (bbg : string) : option row :=
  head (stock_data df_iv bbg).

(** The two errors of the barrier validation. *)
Definition is_validation_error (e : exn) : Prop :=
  e = HTTPException 400 KINotBelowStrike \/ e = HTTPException 400 KONotAboveStrike.

(** [valid_sizes], [valid_stocks] and [min(valid_sizes)] of a batch request. *)
Definition valid_sizes_of (request : BatchFCNRequest) : list Z :=
  filter (fun s => (1 <= s)%Z /\ (s <= 4)%Z) (basketSizes request).

Definition valid_stocks_of (df_iv : list row) (pool : list string) : list string :=
  fst <$> (collect_pool df_iv pool [] ∅).1.

Definition min_size_of (sizes : list Z) : Z :=
  match sizes with
  | [] => 0%Z
  | x :: xs => min_of x xs
  end.

(** The baskets the two nested loops go through, with their size. *)
Definition planned (valid_stocks : list string) (sizes : list Z) : list (Z * list string) :=
  k ← sizes;
  if (Z.of_nat (length valid_stocks) <? k)%Z then []
  else (fun combo => (k, combo)) <$> combinations valid_stocks (Z.to_nat k).

(** The fields of the quote of one basket that do not come from the model. *)
Definition quote_for (fsub : num -> num -> num) (fround : num -> nat -> num)
    (t : deal_terms) (kc : Z * list string) (q : Quote) : Prop :=
  quote_stocks q = kc.2 /\
  basketSize q = kc.1 /\
  riskLevel q = classify_risk t /\
  distanceToKI q
  = py_round fround
      (py_sub fsub (PyFloat (Fin (strikePrice t))) (PyFloat (Fin (knockInPrice t)))) 1 /\
  yieldBoost q = None.

(** An event of a request on [input_data]: features of some basket, or a
    prediction on their projection. *)
Definition features_event (fadd fsub fmul fdiv : num -> num -> num) (fsqrt : num -> num)
    (columns : list string) (input_data : deal_input) (ev : event) : Prop :=
  exists iv_data_list,
    let features := compute_features fadd fsub fmul fdiv fsqrt input_data iv_data_list in
    ev = ComputeFeatures features \/ ev = Predict (reindex features columns).


(** The binomial coefficient C(n, k), by Pascal's rule. *)
Fixpoint binomial (n k : nat) : nat :=
  match k with
  | O => 1
  | S k' =>
      match n with
      | O => 0
      | S n' => binomial n' k' + binomial n' k
      end
  end.

(** The mean of the [couponRate] of the quotes of size [k], as
    [batch_calculate_fcn] computes it. *)
Definition size_average (fadd fdiv : num -> num -> num) (quotes : list Quote) (k : Z) : pyval :=
  let size_quotes := filter (fun q => basketSize q = k) quotes in
  py_div fdiv (py_sum fadd (couponRate <$> size_quotes))
         (PyInt (Z.of_nat (length size_quotes))).

(** No two of the numbers are equal. *)
Fixpoint pairwise_distinct (l : list Q) : bool :=
  match l with
  | [] => true
  | x :: r => forallb (fun y => negb (Qeq_bool x y)) r && pairwise_distinct r
  end.

(** Every symbol has a row in [df_iv] with a 3-month put implied vol, and
    no two of these implied vols are equal. *)
Definition distinct_present (df_iv : list row) (symbols : list string) : bool :=
  match mapM (first_row df_iv) symbols with
  | Some rows =>
      match mapM PUT_IMP_VOL_3M rows with
      | Some ivs => pairwise_distinct ivs
      | None => false
      end
  | None => false
  end.

(** The [stock_info] dictionary after the loop over found symbols. *)
Definition info_of (df_iv : list row) (symbols : list string)
    (stock_info : gmap string stock_summary) : gmap string stock_summary :=
  foldl (fun info bbg =>
           match first_row df_iv bbg with
           | Some r => <[bbg := summary_of r]> info
           | None => info
           end) stock_info symbols.

(** What a handler returned, if it did, and the feature dictionaries it
    computed on the way. *)
Definition response_of {A : Type} (m : M A) : option A :=
  match m.2 with
  | Return a => Some a
  | Raise _ => None
  end.

Definition features_computed {A : Type} (m : M A) : list (gmap string pyval) :=
  omap (fun ev => match ev with ComputeFeatures features => Some features | Predict _ => None end)
       m.1.

(* ================================================================== *)
(** * Sample data

    A snapshot with four symbols (AMD and INTC share their 3-month put
    implied vol), a model that reads two columns, and some requests. *)

Module Sample.

Definition mk_row (code : string) (px iv : Q) : row :=
  {| BBG_Code := code;
     PX_LAST := Some px;
     PUT_IMP_VOL_3M := Some iv;
     CALL_IMP_VOL_2M_25D := Some (Qred (iv - 2));
     PUT_IMP_VOL_2M_25D := Some (Qred (iv + 3));
     HIST_PUT_IMP_VOL := None;
     VOL_STDDEV := None;
     VOLATILITY_90D := Some (Qred (iv - 5));
     VOL_PERCENTILE := None;
     CHG_PCT_1YR := None;
     CORR_COEF := Some (1 # 2);
     DIVIDEND_YIELD := None |}.

Definition nvda : row := mk_row "NVDA" 180 55.
Definition tsla : row := mk_row "TSLA" 400 48.
Definition amd : row := mk_row "AMD" 200 40.
Definition intc : row := mk_row "INTC" 20 40.

(** A row whose 3-month put implied vol is missing. *)
Definition xnan : row :=
  {| BBG_Code := "XNAN";
     PX_LAST := Some 50;
     PUT_IMP_VOL_3M := None;
     CALL_IMP_VOL_2M_25D := Some 30;
     PUT_IMP_VOL_2M_25D := Some 35;
     HIST_PUT_IMP_VOL := None;
     VOL_STDDEV := None;
     VOLATILITY_90D := Some 28;
     VOL_PERCENTILE := None;
     CHG_PCT_1YR := None;
     CORR_COEF := Some (1 # 2);
     DIVIDEND_YIELD := None |}.

(** The coupon is one hundredth of the last price of the rank-1 name. *)
Definition sample_model : regressor := fun X =>
  match X with
  | (_, PyFloat (Fin px)) :: _ => Fin (Qred (px / 100))
  | _ => NaN
  end.

Definition sample_world : world :=
  {| model := Some sample_model;
     feature_cols := ["PX_LAST_Rank_1"; "Basket_Size"; "Not_A_Feature"];
     iv_files := [("20250101", [nvda; tsla; amd; intc])] |}.

(** A snapshot with the row XNAN. *)
Definition nan_world : world :=
  {| model := Some sample_model;
     feature_cols := ["PX_LAST_Rank_1"; "Basket_Size"; "Not_A_Feature"];
     iv_files := [("20250101", [xnan; nvda; amd])] |}.

(** The same process before any snapshot was uploaded. *)
Definition empty_world : world :=
  {| model := Some sample_model;
     feature_cols := ["PX_LAST_Rank_1"; "Basket_Size"; "Not_A_Feature"];
     iv_files := [] |}.

(** strike 95, KO 140, KI 65, 6 months, non-call 1, cost 99. *)
Definition terms : deal_terms :=
  {| period := 6;
     strikePrice := 95;
     knockOutPrice := 140;
     knockInPrice := 65;
     kiType := "AKI";
     customFeeRate := 99;
     pricingDate := None;
     nonCallPeriods := Some 1%Z |}.

(** strike 90, KO 100, KI 95: the knock-in barrier is not below the strike. *)
Definition bad_terms : deal_terms :=
  {| period := 6;
     strikePrice := 90;
     knockOutPrice := 100;
     knockInPrice := 95;
     kiType := "AKI";
     customFeeRate := 99;
     pricingDate := None;
     nonCallPeriods := Some 1%Z |}.

(** strike 90.57, KI 60. *)
Definition odd_terms : deal_terms :=
  {| period := 6;
     strikePrice := 9057 # 100;
     knockOutPrice := 140;
     knockInPrice := 60;
     kiType := "AKI";
     customFeeRate := 99;
     pricingDate := None;
     nonCallPeriods := Some 1%Z |}.

End Sample.

From Stdlib Require Import DecimalNat OrderedTypeEx.

(* ================================================================== *)
(** * The columns of the feature dictionary *)

(** The keys assigned by the deal-term block of [compute_features], in the
    order of the assignments. *)
Definition deal_keys : list string :=
  ["Strike (%)"; "KO Barrier (%)"; "KI Barrier (%)"; "Tenor (m)";
   "Non-call Periods (m)"; "Cost (%)"; "Barrier_Type_AKI"; "No_KO_Flag";
   "No_KO_Tenor_Interaction"; "No_KO_KI_Interaction"; "No_KO_Strike_Interaction";
   "Fee"; "Annualized_Fee"; "Tenor_Sqrt"; "Tenor_Squared"; "Callable_Period";
   "Callable_Ratio"; "NonCall_Ratio"; "KO_Strike_Distance"; "Strike_KI_Distance";
   "KO_KI_Range"; "KI_Strike_Ratio"; "KO_Strike_Ratio"; "KI_Distance_Pct";
   "KO_Distance_Pct"].

(** Every key [compute_features] assigns, block after block. *)
Definition feature_names : list string :=
  deal_keys ++ basket_keys ++ (raw_key <$> raw_slots) ++ (rank_key <$> rank_slots)
    ++ skew_keys ++ skew_rank_keys ++ aggregate_keys ++ risk_keys ++ final_keys.

(** A slot of [iv_data_list] that holds no row: [None], or past the end. *)
Definition empty_slot (iv_data_list : list (option row)) (i : nat) : Prop :=
  iv_data_list !! i = None \/ iv_data_list !! i = Some None.

(** The first element of [x :: xs] whose key no other key exceeds: what
    [max(xs, key=...)] returns, and, with the identity key, [py_max]. *)
Definition first_max {A : Type} (key : A -> pyval) (x : A) (xs : list A) : A :=
  fold_left (fun m y => if py_lt (key m) (key y) then y else m) xs x.

(** The sort key of [iv_pairs] for a value read from the dictionary. *)
Definition or_neg_inf (iv_val : pyval) : pyval := if notna iv_val then iv_val else neg_inf.

(** [basket_size] as [compute_features] counts it, and the dictionary it
    has built when the risk scores are computed. *)
Definition basket_size_of (iv_data_list : list (option row)) : nat :=
  length (filter (fun d : option row => is_Some d) iv_data_list).

Definition features_before_risk (fadd fsub fmul fdiv : num -> num -> num) (fsqrt : num -> num)
    (input_data : deal_input) (iv_data_list : list (option row)) : gmap string pyval :=
  let features := deal_features fsub fmul fdiv fsqrt input_data in
  let basket_size := basket_size_of iv_data_list in
  let features := basket_features fdiv basket_size features in
  let features := raw_columns iv_data_list features in
  let sorted_indices := sorted_indices features in
  let features := rank_columns sorted_indices features in
  let features := skew_premium_columns fsub fdiv features in
  let features := skew_premium_rank_columns sorted_indices features in
  aggregate_features fadd fsub fdiv iv_data_list basket_size features.

(** [1 + 0.2 * (basket_size - 1)] *)
Definition size_factor (fadd fsub fmul : num -> num -> num) (basket_size : nat) : pyval :=
  py_add fadd (PyInt 1)
    (py_mul fmul (PyFloat (Fin (2 # 10)))
       (py_sub fsub (PyInt (Z.of_nat basket_size)) (PyInt 1))).

(* ================================================================== *)
(** * The quotes of a batch, basket by basket *)

Section MadeQuotes.
Variables (fadd fsub fmul fdiv : num -> num -> num) (fsqrt : num -> num).
Variable fround : num -> nat -> num.

(** The [iv_data_list] of a basket: the rows of its symbols, sorted and
    padded. *)
Definition basket_rows (stock_iv_data : list (string * row))
    (combo_list : list string) : list (option row) :=
  sort_and_pad (omap (dict_get stock_iv_data) combo_list).

(** The coupon predicted for an [iv_data_list], 0 when the model gives no
    finite number. *)
Definition predicted (mdl : regressor) (columns : list string) (input_data : deal_input)
    (iv_data_list : list (option row)) : Q :=
  default 0%Q
    (safe_float
       (mdl (reindex (compute_features fadd fsub fmul fdiv fsqrt input_data iv_data_list)
               columns))).

(** The quote that the inner loop of [batch_calculate_fcn] appends for the
    basket [kc] when the counter is [quote_id]. *)
Definition made_quote (mdl : regressor) (columns : list string) (t : deal_terms)
    (base_input : deal_input) (stock_iv_data : list (string * row))
    (stock_info : gmap string stock_summary) (kc : Z * list string) (quote_id : nat) : Quote :=
  let predicted_coupon :=
    predicted mdl columns base_input (basket_rows stock_iv_data kc.2) in
  let max_iv :=
    agg_or_nan py_max
      ((fun s =>
          match stock_info !! s ≫= put_iv_3m with
          | Some iv => or_zero (PyFloat (Fin iv))
          | None => PyInt 0
          end) <$> kc.2) in
  {| quote_ident := "quote-" +:+ str_of_nat quote_id;
     quote_stocks := kc.2;
     basketSize := kc.1;
     couponRate := py_round fround (PyFloat (Fin predicted_coupon)) 2;
     distanceToKI :=
       py_round fround
         (py_sub fsub (PyFloat (Fin (strikePrice t))) (PyFloat (Fin (knockInPrice t)))) 1;
     maxIV := if truthy max_iv then Some (py_round fround max_iv 1) else None;
     riskLevel := classify_risk t;
     stockInfo := filter (fun kv => kv.1 ∈ kc.2) stock_info;
     yieldBoost := None |}.

(** The quotes of the baskets [pl], numbered from [quote_id], and what is
    computed for them. *)
Definition made_quotes (mdl : regressor) (columns : list string) (t : deal_terms)
    (base_input : deal_input) (stock_iv_data : list (string * row))
    (stock_info : gmap string stock_summary) (pl : list (Z * list string))
    (quote_id : nat) : list Quote :=
  imap (fun n kc =>
          made_quote mdl columns t base_input stock_iv_data stock_info kc (quote_id + n))
       pl.

Definition made_events (columns : list string) (base_input : deal_input)
    (stock_iv_data : list (string * row)) (pl : list (Z * list string)) : list event :=
  kc ← pl;
  let features :=
    compute_features fadd fsub fmul fdiv fsqrt base_input (basket_rows stock_iv_data kc.2) in
  [ComputeFeatures features; Predict (reindex features columns)].

End MadeQuotes.

(** The response of a batch request that passes every check. *)
Definition batch_response (fadd fsub fmul fdiv : num -> num -> num) (fsqrt : num -> num)
    (fround : num -> nat -> num) (mdl : regressor) (columns : list string)
    (request : BatchFCNRequest) (pricing_date : string) (df_iv : list row) : BatchResponse :=
  let t := batch_terms request in
  let pool := collect_pool df_iv (stockPool request) [] ∅ in
  let made :=
    made_quotes fadd fsub fmul fdiv fsqrt fround mdl columns t (make_input t) pool.1 pool.2
      (planned (fst <$> pool.1) (valid_sizes_of request)) 0 in
  let sorted := sort_desc py_lt couponRate made in
  let quotes :=
    set_yield_boost fsub fround (avg_coupon_by_size fadd fdiv (valid_sizes_of request) sorted)
      (min_size_of (valid_sizes_of request)) <$> sorted in
  {| quotes := quotes;
     totalCount := length quotes;
     pricingDate_out := pricing_date;
     params := echo_params t |}.


(* ================================================================== *)
(** * Listings, market indices and health

    As for the quoting endpoints, the directory of snapshots is the
    [iv_files] of the [world]: every file is a readable snapshot named after
    its date key, and the cache of [load_iv_data] is transparent. *)

(** [sub in s] on strings. *)
Fixpoint str_contains (sub s : string) : bool :=
  String.prefix sub s
  || match s with
     | EmptyString => false
     | String _ s' => str_contains sub s'
     end.

(** The dictionary [market_indices], with its two keys. *)
Record market_indices : Type := MarketIndices {
  SOFR_RATE : Q;
  VIX_INDEX : Q
}.

(** [{'SOFR_RATE': 5.0, 'VIX_INDEX': 15.0}] *)
Definition default_indices : market_indices := {| SOFR_RATE := 5; VIX_INDEX := 15 |}.

(** The loop of [load_iv_data] over the rows of the frame that fills
    [market_indices_cache[date_key]]. *)
Definition extract_indices (df_iv : list row) : market_indices :=
  fold_left (fun market_indices row =>
    let code := BBG_Code row in
    match safe_float (to_num (cell (PX_LAST row))) with
    | Some price =>
        if str_contains "SOFRRATE" code || str_contains "SOFR" code then
          {| SOFR_RATE := price; VIX_INDEX := VIX_INDEX market_indices |}
        else if str_contains "VIX" code then
          {| SOFR_RATE := SOFR_RATE market_indices; VIX_INDEX := price |}
        else market_indices
    | None => market_indices
    end) df_iv default_indices.

(** [get_market_indices(date_key)]: loading the frame fills the cache. *)
Definition get_market_indices (w : world) (date_key : string) : M market_indices :=
  df_iv ← load_iv_data w date_key;
  mret (extract_indices df_iv).

(** One element of the list [get_available_stocks] returns, with the keys
    [code], [price], [vol90d] and [iv]. *)
Record stock_entry : Type := StockEntry {
  entry_code : string;
  entry_price : Q;
  entry_vol90d : option Q;
  entry_iv : option Q
}.

(** The body of the loop of [get_available_stocks]: the entry of a row, or
    [None] where the loop continues. *)
Definition stock_entry_of (r : row) : option stock_entry :=
  let code := BBG_Code r in
  if String.eqb code "" || String.eqb code "nan" || str_contains "Index" code then None
  else
    match safe_float (to_num (cell (PX_LAST r))) with
    | None => None
    | Some price =>
        Some {| entry_code := code;
                entry_price := price;
                entry_vol90d := safe_float (to_num (cell (VOLATILITY_90D r)));
                entry_iv := safe_float (to_num (cell (PUT_IMP_VOL_3M r))) |}
    end.

(** [get_available_stocks(date_key)]: any exception gives the empty list. *)
Definition get_available_stocks (w : world) (date_key : string) : M (list stock_entry) :=
  try_except
    (df_iv ← load_iv_data w date_key;
     mret (omap stock_entry_of df_iv))
    (fun _ => mret []).


(** [GET /api/market/params] *)
Definition get_market_params (w : world) : M market_indices :=
  match get_available_dates w with
  | [] => raise (HTTPException 404 NoIVData)
  | latest_date :: _ => get_market_indices w latest_date
  end.



(** The answer of [GET /api/health]. *)
Record health : Type := Health {
  health_status : string;
  model_available : bool;
  feature_count : nat;
  available_dates : list string
}.

Definition health_check (w : world) : health :=
  {| health_status := "healthy";
     model_available := match model w with Some _ => true | None => false end;
     feature_count := length (feature_cols w);
     available_dates := take 5 (get_available_dates w) |}.

(** [GET /api/dates/available] *)
Definition get_dates (w : world) : list string := get_available_dates w.

(** The price of a row when its code mentions [name] but none of the names
    of [but]. *)
Definition index_price (name : string) (but : list string) (r : row) : option Q :=
  if str_contains name (BBG_Code r)
     && forallb (fun other => negb (str_contains other (BBG_Code r))) but
  then PX_LAST r else None.

(* ================================================================== *)
(** * Bloomberg codes *)

(** [s.replace(old, new)] for a non-empty [old]: the occurrences of [old]
    are replaced from left to right, without overlap; [skip] counts the
    characters of an occurrence still to be passed over. *)
Fixpoint str_replace_from (old new : string) (skip : nat) (s : string) : string :=
  match s with
  | EmptyString => EmptyString
  | String c s' =>
      match skip with
      | S n => str_replace_from old new n s'
      | O =>
          if String.prefix old s
          then new +:+ str_replace_from old new (String.length old - 1) s'
          else String c (str_replace_from old new 0 s')
      end
  end.

Definition str_replace (old new s : string) : string := str_replace_from old new 0 s.

(** The cleaning of [BBG_Code] by [load_iv_data]:
    [.str.replace(' Equity', '')] and then [.str.replace(' US', '')]. *)
Definition clean_code (code : string) : string :=
  str_replace " US" "" (str_replace " Equity" "" code).

(* ================================================================== *)
(** * The training script, row by row

    [retrain_model_v8_optimal.py] builds the same columns on a data frame;
    its row functions are applied here to a row given as a dictionary. *)

(** [[(0, ''), (1, '_2'), (2, '_3'), (3, '_4')]] *)
Definition training_suffixes : list (nat * string) :=
  [(0, ""); (1, "_2"); (2, "_3"); (3, "_4")]%nat.

(** [get_iv_sort_indices(row)] *)
Definition get_iv_sort_indices (row : gmap string pyval) : list nat :=
  let iv_values :=
    (fun '(i, suffix) =>
       let val := default np_nan (row !! ("PUT_IMP_VOL_3M" +:+ suffix)) in
       if notna val then (i, val) else (i, neg_inf))
    <$> training_suffixes in
  fst <$> sort_desc py_lt snd iv_values.

(** The dictionary [iv_groups]. *)
Definition iv_groups : list (string * list string) :=
  [("PUT_IMP_VOL_3M",
    ["PUT_IMP_VOL_3M"; "PUT_IMP_VOL_3M_2"; "PUT_IMP_VOL_3M_3"; "PUT_IMP_VOL_3M_4"]);
   ("VOLATILITY_90D",
    ["VOLATILITY_90D"; "VOLATILITY_90D_2"; "VOLATILITY_90D_3"; "VOLATILITY_90D_4"]);
   ("CALL_IMP_VOL_2M_25D",
    ["CALL_IMP_VOL_2M_25D"; "CALL_IMP_VOL_2M_25D_2"; "CALL_IMP_VOL_2M_25D_3";
     "CALL_IMP_VOL_2M_25D_4"]);
   ("PUT_IMP_VOL_2M_25D",
    ["PUT_IMP_VOL_2M_25D"; "PUT_IMP_VOL_2M_25D_2"; "PUT_IMP_VOL_2M_25D_3";
     "PUT_IMP_VOL_2M_25D_4"]);
   ("HIST_PUT_IMP_VOL",
    ["HIST_PUT_IMP_VOL"; "HIST_PUT_IMP_VOL_2"; "HIST_PUT_IMP_VOL_3"; "HIST_PUT_IMP_VOL_4"]);
   ("VOL_STDDEV", ["VOL_STDDEV"; "VOL_STDDEV_2"; "VOL_STDDEV_3"; "VOL_STDDEV_4"]);
   ("VOL_PERCENTILE",
    ["VOL_PERCENTILE"; "VOL_PERCENTILE_2"; "VOL_PERCENTILE_3"; "VOL_PERCENTILE_4"]);
   ("CHG_PCT_1YR", ["CHG_PCT_1YR"; "CHG_PCT_1YR_2"; "CHG_PCT_1YR_3"; "CHG_PCT_1YR_4"]);
   ("CORR_COEF", ["CORR_COEF"; "CORR_COEF_2"; "CORR_COEF_3"; "CORR_COEF_4"]);
   ("DIVIDEND_YIELD",
    ["DIVIDEND_YIELD"; "DIVIDEND_YIELD_2"; "DIVIDEND_YIELD_3"; "DIVIDEND_YIELD_4"]);
   ("PX_LAST", ["PX_LAST"; "PX_LAST_2"; "PX_LAST_3"; "PX_LAST_4"])].

(** [get_sorted_value(row)] for the columns [original_cols] and the sort
    index [idx] stored in the row. *)
Definition get_sorted_value (row : gmap string pyval) (original_cols : list string)
    (idx : nat) : pyval :=
  match original_cols !! idx with
  | Some col =>
      match row !! col with
      | Some v => v
      | None => np_nan
      end
  | None => np_nan
  end.

Definition iv_3m_cols : list string :=
  ["PUT_IMP_VOL_3M"; "PUT_IMP_VOL_3M_2"; "PUT_IMP_VOL_3M_3"; "PUT_IMP_VOL_3M_4"].

Definition hv_90d_cols : list string :=
  ["VOLATILITY_90D"; "VOLATILITY_90D_2"; "VOLATILITY_90D_3"; "VOLATILITY_90D_4"].

Section Training.
Variables (fadd fsub fdiv : num -> num -> num).

(** [safe_agg(row, cols, func)]; [None] is Python's [None], returned for a
    [func] that is none of the four names. *)
Definition safe_agg (row : gmap string pyval) (cols : list string) (func : string)
    : option pyval :=
  let values :=
    omap (fun col =>
            match row !! col with
            | Some v => if notna v then Some v else None
            | None => None
            end) cols in
  match values with
  | [] => Some np_nan
  | v :: vs =>
      if String.eqb func "max" then Some (py_max v vs)
      else if String.eqb func "min" then Some (py_min v vs)
      else if String.eqb func "mean" then Some (np_mean fadd fdiv v vs)
      else if String.eqb func "range" then
        Some (if (1 <? length values)%nat
              then py_sub fsub (py_max v vs) (py_min v vs) else PyInt 0)
      else None
  end.

End Training.

(* ================================================================== *)
(** * The snapshot store: files, caches, upload and deletion

    [iv_files] of a [world] shows the snapshots as the quoting endpoints see
    them.  Here the directory [IV_DATA_PATH] and the two caches are
    explicit.  A file is known by its name in the directory and holds what
    [pd.read_excel] and the cleaning of [load_iv_data] make of its bytes:
    a frame, or nothing when they raise.  Writing and removing a file are
    taken to succeed.  A character is a code point below 256. *)

(** [s.endswith(suffix)] *)
Fixpoint str_endswith (suffix s : string) : bool :=
  String.eqb s suffix
  || match s with
     | EmptyString => false
     | String _ s' => str_endswith suffix s'
     end.







Module Store.

Record store : Type := MkStore {
  files : gmap string (option (list row));
  iv_cache : gmap string (list row);
  market_indices_cache : gmap string market_indices
}.

(** The [detail] of the HTTP errors of the two endpoints. *)
Inductive failure : Type :=
| Http (status_code : Z) (detail : reason)
| FileNotFound (date_key : string)
| ReadFailure
with reason : Type :=
| OnlyXlsx
| NameNotDate
| InvalidDate
| BadFile (inner : failure)
| InvalidDateFormat
| NoDataForDate.

Inductive outcome (A : Type) : Type :=
| Failed (e : failure)
| Done (a : A).
Arguments Failed {A} e.
Arguments Done {A} a.

(** [f'{date_key}.xlsx'] *)
Definition file_of (date_key : string) : string := date_key +:+ ".xlsx".

(** [load_iv_data(date_key)], with its cache. *)
Definition load_iv_data (date_key : string) (s : store) : store * outcome (list row) :=
  match iv_cache s !! date_key with
  | Some df_iv => (s, Done df_iv)
  | None =>
      match files s !! file_of date_key with
      | None => (s, Failed (FileNotFound date_key))
      | Some None => (s, Failed ReadFailure)
      | Some (Some df_iv) =>
          ({| files := files s;
              iv_cache := <[date_key := df_iv]> (iv_cache s);
              market_indices_cache :=
                <[date_key := extract_indices df_iv]> (market_indices_cache s) |},
           Done df_iv)
      end
  end.

(** [get_available_dates()]: the names listed are those of the directory,
    in whatever order; the result is sorted. *)
Definition get_available_dates (s : store) : list string :=
  let dates :=
    str_replace ".xlsx" ""
    <$> filter (fun f => str_endswith ".xlsx" f = true) (map_to_list (files s)).*1 in
  sort_desc String.ltb (fun d : string => d) dates.

(** [get_available_stocks(date_key)] *)
Definition get_available_stocks (date_key : string) (s : store)
    : store * outcome (list stock_entry) :=
  match load_iv_data date_key s with
  | (s, Done df_iv) => (s, Done (omap stock_entry_of df_iv))
  | (s, Failed _) => (s, Done [])
  end.









End Store.

(* ================================================================== *)
(** * Facts: strings and dictionaries *)

Lemma str_neq (a b : string) : String.eqb a b = false -> a <> b.
Proof. intros H ->. by rewrite String.eqb_refl in H. Qed.

Section Lookup.
Context {V : Type}.
Implicit Types (m : gmap string V) (k : string).

Lemma step_ne m k' k v r : k' <> k -> m !! k = r -> <[k' := v]> m !! k = r.
Proof. intros. by rewrite lookup_insert_ne. Qed.

Lemma step_neb m k' k v r :
  String.eqb k' k = false -> m !! k = r -> <[k' := v]> m !! k = r.
Proof. intros ?%str_neq. by apply step_ne. Qed.

Lemma step_eqb m k' k v r :
  String.eqb k' k = true -> Some v = r -> <[k' := v]> m !! k = r.
Proof. intros ->%String.eqb_eq <-. apply lookup_insert_eq. Qed.

Lemma step_if (c : bool) m1 m2 k r :
  m1 !! k = r -> m2 !! k = r -> (if c then m1 else m2) !! k = r.
Proof. by destruct c. Qed.
End Lookup.

(** Names the next [let] of the goal, so that the dictionaries built on the
    way stay shared. *)
Ltac name_let :=
  match goal with
  | |- context G [let x := ?a in @?b x] =>
      let y := fresh "fs" in
      pose (y := a);
      let g := context G [b y] in
      change g; cbv beta
  end.

(** A lookup through an assignment to another key. *)
Ltac skip_insert :=
  first [ apply step_ne; [assumption|]
        | apply step_neb; [vm_compute; reflexivity|]
        | apply step_if ].

(** A lookup that reaches the assignment to its key. *)
Ltac hit_insert := apply step_eqb; [vm_compute; reflexivity|].


Lemma fold_left_pointwise {A B : Type} (f g : A -> B -> A) l a :
  (forall a b, f a b = g a b) -> fold_left f l a = fold_left g l a.
Proof. intros H. revert a. induction l as [|b l IH]; intros a; cbn; [done|]. by rewrite H, IH. Qed.

(** A loop that assigns one key per element. *)
Section WriteAll.
Context {A V : Type} (key : A -> string) (val : gmap string V -> A -> V).

Lemma write_all_snoc l a m :
  write_all key val (l ++ [a]) m
  = <[key a := val (write_all key val l m) a]> (write_all key val l m).
Proof. unfold write_all. by rewrite fold_left_app. Qed.

Lemma write_all_app l1 l2 m :
  write_all key val (l1 ++ l2) m = write_all key val l2 (write_all key val l1 m).
Proof. unfold write_all. by rewrite fold_left_app. Qed.

Lemma write_all_bind {B : Type} (f : B -> list A) (l : list B) m :
  write_all key val (l ≫= f) m = fold_left (fun m b => write_all key val (f b) m) l m.
Proof.
  revert m. induction l as [|b l IH]; intros m; [done|].
  change ((b :: l) ≫= f) with (f b ++ (l ≫= f)).
  by rewrite write_all_app, IH.
Qed.

Lemma write_all_other l m k :
  k ∉ key <$> l -> write_all key val l m !! k = m !! k.
Proof.
  revert m. induction l as [|a l IH]; intros m Hk; [done|].
  cbn in Hk. apply not_elem_of_cons in Hk as [Hne Hk].
  unfold write_all in *. cbn. rewrite IH by done. by rewrite lookup_insert_ne.
Qed.

Lemma write_all_lookup (keys : list string) l m a :
  NoDup (key <$> l) ->
  key <$> l ⊆ keys ->
  a ∈ l ->
  (forall m1 m2, (forall k, k ∉ keys -> m1 !! k = m2 !! k) -> val m1 a = val m2 a) ->
  write_all key val l m !! key a = Some (val m a).
Proof.
  induction l as [|b l IH] using rev_ind; intros Hnd Hsub Hin Hloc.
  { by apply elem_of_nil in Hin. }
  rewrite fmap_app in Hnd, Hsub. cbn in Hnd, Hsub.
  apply NoDup_app in Hnd as (Hnd & Hdisj & _).
  rewrite write_all_snoc.
  apply elem_of_app in Hin as [Hin|Hin%list_elem_of_singleton].
  - rewrite lookup_insert_ne.
    + apply IH; [done| |done|done]. intros k Hk. apply Hsub. set_solver.
    + intros Heq. apply (Hdisj (key a)); [set_solver | rewrite Heq; set_solver].
  - subst b. rewrite lookup_insert_eq. f_equal. apply Hloc.
    intros k Hk. apply write_all_other. intros Hk'. apply Hk, Hsub. set_solver.
Qed.
End WriteAll.

(* ================================================================== *)
(** * Facts: the order on numbers *)

Lemma Qltb_lt (x y : Q) : Qltb x y = true <-> (x < y)%Q.
Proof. unfold Qltb. rewrite Qlt_alt. destruct (x ?= y)%Q; split; congruence. Qed.

Lemma Qltb_ge (x y : Q) : Qltb x y = false <-> (y <= x)%Q.
Proof.
  rewrite <- not_true_iff_false, Qltb_lt. split; [apply Qnot_lt_le | apply Qle_not_lt].
Qed.

Lemma num_ltb_asym a b : num_ltb a b = true -> num_ltb b a = false.
Proof.
  destruct a, b; cbn; try done.
  rewrite Qltb_lt, Qltb_ge. apply Qlt_le_weak.
Qed.

Lemma num_ltb_irrefl a : num_ltb a a = false.
Proof. destruct a; cbn; try done. apply Qltb_ge, Qle_refl. Qed.

(** Without NaN, "not less than" is transitive. *)
Lemma num_ge_trans a b c :
  is_nan b = false ->
  num_ltb a b = false -> num_ltb b c = false -> num_ltb a c = false.
Proof.
  destruct a, b, c; cbn; try done.
  rewrite !Qltb_ge. intros _ H1 H2. by apply Qle_trans with q0.
Qed.

Lemma notna_is_nan v : notna v = true <-> is_nan (to_num v) = false.
Proof. destruct v as [z|[]]; cbn; split; congruence. Qed.

Lemma py_lt_asym a b : py_lt a b = true -> py_lt b a = false.
Proof. apply num_ltb_asym. Qed.

Lemma py_ge_trans a b c :
  notna b = true -> py_lt a b = false -> py_lt b c = false -> py_lt a c = false.
Proof. intros ?%notna_is_nan. by apply num_ge_trans. Qed.

Lemma num_not_lt_le a b :
  is_nan a = false -> is_nan b = false -> num_ltb a b = false -> num_leb b a = true.
Proof.
  unfold num_leb. destruct a, b; cbn; try done.
  intros _ _ H%Qltb_ge. apply Qle_lteq in H as [H|H].
  - apply Qltb_lt in H. by rewrite H.
  - apply Qeq_bool_iff in H. rewrite H. apply orb_true_r.
Qed.

Lemma py_not_lt_le a b :
  notna a = true -> notna b = true -> py_lt a b = false -> py_le b a = true.
Proof. intros ?%notna_is_nan ?%notna_is_nan. by apply num_not_lt_le. Qed.

(** [max] returns an element that no element exceeds. *)
Lemma py_max_elem x xs : py_max x xs ∈ x :: xs.
Proof.
  revert x. induction xs as [|y xs IH]; intros x; cbn; [set_solver|].
  specialize (IH (if py_gt y x then y else x)).
  change (py_max (if py_gt y x then y else x) xs ∈ x :: y :: xs).
  destruct (py_gt y x); set_solver.
Qed.

Lemma py_max_upper x xs v :
  Forall (fun v => notna v = true) (x :: xs) ->
  v ∈ x :: xs -> py_lt (py_max x xs) v = false.
Proof.
  revert x v. induction xs as [|y xs IH]; intros x v Hok Hv.
  { apply list_elem_of_singleton in Hv as ->. apply num_ltb_irrefl. }
  apply Forall_cons in Hok as [Hx Hok]. pose proof Hok as [Hy Hxs]%Forall_cons.
  change (py_lt (py_max (if py_gt y x then y else x) xs) v = false).
  unfold py_gt. destruct (py_lt x y) eqn:E.
  - apply elem_of_cons in Hv as [->|Hv]; [|by apply IH].
    apply (py_ge_trans _ y); [done|by apply IH; [|left]|by apply py_lt_asym].
  - apply elem_of_cons in Hv as [->|Hv]; [by apply IH; [constructor|left]|].
    apply elem_of_cons in Hv as [->|Hv]; [|by apply IH; [constructor|right]].
    apply (py_ge_trans _ x); [done|by apply IH; [constructor|left]|done].
Qed.

(* ================================================================== *)
(** * Facts: the descending sort *)

Section SortFacts.
Context {A K : Type} (ltb : K -> K -> bool) (key : A -> K).

#[local] Abbreviation nbelow := (not_below ltb key).
#[local] Abbreviation sabove := (above ltb key).
#[local] Abbreviation ins := (fun acc x => insert_desc ltb key x acc).

Lemma insert_desc_perm x l : Permutation (x :: l) (insert_desc ltb key x l).
Proof.
  induction l as [|y l IH]; cbn; [done|].
  destruct (ltb (key x) (key y)); [|done].
  rewrite perm_swap. by constructor.
Qed.

Lemma stable_sort_desc_perm l : Permutation l (stable_sort_desc ltb key l).
Proof.
  induction l as [|x l IH]; cbn; [done|].
  etrans; [|apply insert_desc_perm]. by constructor.
Qed.

(** Whatever the comparison answers, the sort permutes the list. *)
Lemma binary_insert_perm s x : Permutation (x :: s) (binary_insert ltb key s x).
Proof.
  unfold binary_insert. cbv zeta.
  rewrite <- Permutation_middle. by rewrite take_drop.
Qed.

Lemma binarysort_perm s rest : Permutation (s ++ rest) (binarysort ltb key s rest).
Proof.
  unfold binarysort. revert s.
  induction rest as [|x rest IH]; intros s; cbn; [by rewrite app_nil_r|].
  rewrite <- IH, <- binary_insert_perm. cbn. symmetry. apply Permutation_middle.
Qed.

Lemma list_sort_perm l : Permutation l (list_sort ltb key l).
Proof.
  unfold list_sort. destruct (count_run ltb key l) as [n descending].
  rewrite <- binarysort_perm. rewrite <- (take_drop n l) at 1.
  destruct descending; [|done]. by rewrite reverse_Permutation.
Qed.

Lemma sort_desc_perm l : Permutation l (sort_desc ltb key l).
Proof.
  unfold sort_desc. by rewrite reverse_Permutation, <- list_sort_perm, reverse_Permutation.
Qed.

Lemma sort_desc_length l : length (sort_desc ltb key l) = length l.
Proof. symmetry. apply Permutation_length, sort_desc_perm. Qed.

Lemma sort_desc_elem x l : x ∈ sort_desc ltb key l <-> x ∈ l.
Proof. by rewrite <- (sort_desc_perm l). Qed.

(** The insertion sort read from the other end. *)
Lemma stable_sort_desc_reverse m :
  stable_sort_desc ltb key (reverse m) = fold_left ins m [].
Proof.
  unfold stable_sort_desc. generalize (@nil A) as acc.
  induction m as [|x m IH]; intros acc; [done|].
  rewrite reverse_cons, foldr_app. cbn. apply IH.
Qed.

(** An element goes right after the elements that its key is below. *)
Lemma insert_desc_app x d1 d2 :
  Forall (fun e => ltb (key x) (key e) = true) d1 ->
  Forall (fun e => ltb (key x) (key e) = false) d2 ->
  insert_desc ltb key x (d1 ++ d2) = d1 ++ x :: d2.
Proof.
  intros H1 H2. induction H1 as [|e d1 He H1 IH]; cbn.
  - destruct H2 as [|e d2 He H2]; cbn; [done|]. by rewrite He.
  - by rewrite He, IH.
Qed.

(** A run that does not descend is taken over in reverse. *)
Lemma run_ascending prev acc m :
  let k := run_tail ltb key false prev m in
  fold_left ins (take k m) (prev :: acc) = reverse (take k m) ++ prev :: acc.
Proof.
  revert prev acc. induction m as [|z m IH]; intros prev acc; [done|].
  cbn [run_tail]. destruct (ltb (key z) (key prev)) eqn:E; cbn [Bool.eqb]; [done|].
  cbn [firstn fold_left insert_desc]. rewrite E, IH, reverse_cons. by rewrite <- app_assoc.
Qed.

Lemma StronglySorted_lookup_lt (R : A -> A -> Prop) (l : list A) i j x y :
  StronglySorted R l -> (i < j)%nat -> l !! i = Some x -> l !! j = Some y -> R x y.
Proof.
  intros Hs. revert i j. induction Hs as [|a l Hs IH Ha]; intros i j Hij Hi Hj; [done|].
  destruct j as [|j]; [lia|]. cbn in Hj. destruct i as [|i]; cbn in Hi.
  - injection Hi as <-. rewrite Forall_forall in Ha. apply Ha.
    by eapply list_elem_of_lookup_2.
  - apply (IH i j); [lia|done|done].
Qed.

Lemma StronglySorted_snoc (R : A -> A -> Prop) (l : list A) x :
  StronglySorted R l -> Forall (fun y => R y x) l -> StronglySorted R (l ++ [x]).
Proof.
  induction 1 as [|y l Hs IH Hy]; intros Hx; cbn; [repeat constructor|].
  apply Forall_cons in Hx as [Hyx Hx]. constructor; [by apply IH|].
  apply Forall_app. split; [done|by repeat constructor].
Qed.

Lemma StronglySorted_reverse (R : A -> A -> Prop) (l : list A) :
  StronglySorted R l -> StronglySorted (fun x y => R y x) (reverse l).
Proof.
  induction 1 as [|x l Hs IH Hx]; [constructor|].
  rewrite reverse_cons. apply StronglySorted_snoc; [done|]. by apply Forall_reverse.
Qed.

Section Ordered.
(** The keys that occur are comparable: [<] is asymmetric and its negation
    transitive on them. *)
Variable ok : A -> Prop.
Hypothesis asym : forall x y, ok x -> ok y -> ltb (key x) (key y) = true -> nbelow y x.
Hypothesis ge_trans :
  forall x y z, ok x -> ok y -> ok z -> nbelow x y -> nbelow y z -> nbelow x z.

Lemma insert_desc_sorted x l :
  ok x -> Forall ok l ->
  StronglySorted nbelow l -> StronglySorted nbelow (insert_desc ltb key x l).
Proof using asym ge_trans.
  intros Hx Hl Hs. induction Hs as [|y l Hs IH Hy]; cbn.
  { repeat constructor. }
  apply Forall_cons in Hl as [Hoky Hl].
  destruct (ltb (key x) (key y)) eqn:E.
  - constructor; [by apply IH|].
    rewrite <- (insert_desc_perm x l). constructor; [by apply asym|done].
  - constructor; [by constructor|]. constructor; [done|].
    rewrite Forall_forall in Hy, Hl. apply Forall_forall. intros z Hz.
    apply (ge_trans x y z); auto.
Qed.

Lemma stable_sort_desc_sorted l :
  Forall ok l -> StronglySorted nbelow (stable_sort_desc ltb key l).
Proof using asym ge_trans.
  induction l as [|x l IH]; cbn; intros Hl; [constructor|].
  apply Forall_cons in Hl as [Hx Hl].
  apply insert_desc_sorted; [done| |by apply IH].
  by rewrite <- (stable_sort_desc_perm l).
Qed.

Lemma lt_not_below x y z :
  ok x -> ok y -> ok z ->
  ltb (key x) (key y) = true -> nbelow z y -> ltb (key x) (key z) = true.
Proof using ge_trans.
  intros Hx Hy Hz Hxy Hzy. destruct (ltb (key x) (key z)) eqn:E; [done|].
  pose proof (ge_trans x z y Hx Hz Hy E Hzy) as H. unfold not_below in H. congruence.
Qed.

Lemma lt_trans x y z :
  ok x -> ok y -> ok z ->
  ltb (key x) (key y) = true -> ltb (key y) (key z) = true -> ltb (key x) (key z) = true.
Proof using asym ge_trans.
  intros Hx Hy Hz Hxy Hyz. apply (lt_not_below x y z); auto.
Qed.

(** The binary search keeps what [binarysort] states as its invariants: the
    pivot is not below the elements before [l] and is below those from
    [r] on. *)
Lemma bisect_between steps s x l r :
  (r - l <= steps)%nat -> (l <= r <= length s)%nat ->
  StronglySorted (fun a b => nbelow b a) s -> Forall ok s -> ok x ->
  (forall i e, (i < l)%nat -> s !! i = Some e -> ltb (key x) (key e) = false) ->
  (forall i e, (r <= i)%nat -> s !! i = Some e -> ltb (key x) (key e) = true) ->
  let pos := bisect ltb key steps s x l r in
  (forall i e, (i < pos)%nat -> s !! i = Some e -> ltb (key x) (key e) = false)
  /\ (forall i e, (pos <= i)%nat -> s !! i = Some e -> ltb (key x) (key e) = true).
Proof using asym ge_trans.
  intros Hsteps Hlr Hs Hok Hx. revert l r Hsteps Hlr.
  induction steps as [|steps IH]; intros l r Hsteps Hlr Hlow Hhigh; cbn [bisect]; cbv zeta.
  { split; [done|]. intros i e Hi. apply Hhigh. lia. }
  destruct (l <? r)%nat eqn:E; cbv iota.
  2:{ apply Nat.ltb_ge in E. split; [done|]. intros i e Hi. apply Hhigh. lia. }
  apply Nat.ltb_lt in E.
  assert ((r - l) / 2 < r - l)%nat as Hhalf by (apply Nat.div_lt; lia).
  set (p := (l + (r - l) / 2)%nat) in *.
  destruct (lookup_lt_is_Some_2 s p) as [y Hy]; [lia|]. rewrite Hy. cbv iota.
  assert (ok y) as Hoky.
  { rewrite Forall_forall in Hok. by eapply Hok, list_elem_of_lookup_2. }
  destruct (ltb (key x) (key y)) eqn:Exy; cbv iota.
  - apply IH; [lia|lia|done|]. intros i e Hi He.
    destruct (decide (i = p)) as [->|Hne]; [congruence|].
    assert (nbelow e y) as Hey.
    { apply (StronglySorted_lookup_lt _ s p i y e Hs); [lia|done|done]. }
    apply (lt_not_below x y e); auto.
    rewrite Forall_forall in Hok. by eapply Hok, list_elem_of_lookup_2.
  - apply IH; [lia|lia| |done]. intros i e Hi He.
    destruct (decide (i = p)) as [->|Hne]; [congruence|].
    assert (nbelow y e) as Hye.
    { apply (StronglySorted_lookup_lt _ s i p e y Hs); [lia|done|done]. }
    apply (ge_trans x y e); auto.
    rewrite Forall_forall in Hok. by eapply Hok, list_elem_of_lookup_2.
Qed.

(** Inserting by binary search in an ascending list is inserting by a scan
    in its reverse. *)
Lemma binary_insert_reverse s x :
  StronglySorted nbelow (reverse s) -> Forall ok s -> ok x ->
  reverse (binary_insert ltb key s x) = insert_desc ltb key x (reverse s).
Proof using asym ge_trans.
  intros Hs Hok Hx. unfold binary_insert. cbv zeta.
  set (pos := bisect ltb key (length s) s x 0 (length s)).
  destruct (bisect_between (length s) s x 0 (length s)) as [Hlow Hhigh];
    [lia|lia| |done|done| |intros i e Hi He; apply lookup_lt_Some in He; lia|].
  { rewrite <- (reverse_involutive s). by apply StronglySorted_reverse. }
  { intros i e Hi. lia. }
  fold pos in Hlow, Hhigh.
  assert (reverse s = reverse (drop pos s) ++ reverse (take pos s)) as ->
    by by rewrite <- reverse_app, take_drop.
  rewrite reverse_app, reverse_cons, <- app_assoc. cbn [app].
  symmetry. apply insert_desc_app.
  - apply Forall_reverse, Forall_forall. intros e [i He]%list_elem_of_lookup.
    rewrite lookup_drop in He. apply (Hhigh (pos + i)%nat); [lia|done].
  - apply Forall_reverse, Forall_forall. intros e [i He]%list_elem_of_lookup.
    apply lookup_take_Some in He as [He Hi]. by apply (Hlow i).
Qed.

Lemma binarysort_reverse s rest :
  StronglySorted nbelow (reverse s) -> Forall ok s -> Forall ok rest ->
  reverse (binarysort ltb key s rest) = fold_left ins rest (reverse s).
Proof using asym ge_trans.
  unfold binarysort. revert s.
  induction rest as [|x rest IH]; intros s Hs Hok Hrest; [done|].
  apply Forall_cons in Hrest as [Hx Hrest]. cbn [fold_left].
  rewrite IH; [by rewrite binary_insert_reverse| | |done].
  - rewrite binary_insert_reverse by done.
    apply insert_desc_sorted; [done|by apply Forall_reverse|done].
  - by rewrite <- binary_insert_perm; constructor.
Qed.

(** A run that descends strictly is taken over as it is. *)
Lemma run_descending prev pre m :
  ok prev -> Forall ok pre -> Forall ok m ->
  Forall (fun e => ltb (key prev) (key e) = true) pre ->
  let k := run_tail ltb key true prev m in
  fold_left ins (take k m) (pre ++ [prev]) = pre ++ prev :: take k m.
Proof using asym ge_trans.
  revert prev pre. induction m as [|z m IH]; intros prev pre Hprev Hpre Hm Hlt; [done|].
  apply Forall_cons in Hm as [Hz Hm]. cbn [run_tail].
  destruct (ltb (key z) (key prev)) eqn:E; cbn [Bool.eqb]; [|done].
  cbn [firstn fold_left].
  assert (Forall (fun e => ltb (key z) (key e) = true) (pre ++ [prev])) as Hall.
  { apply Forall_app. split; [|by repeat constructor].
    rewrite Forall_forall in Hlt, Hpre. apply Forall_forall. intros e He.
    apply (lt_trans z prev e); auto. }
  rewrite <- (app_nil_r (pre ++ [prev])) at 1.
  rewrite (insert_desc_app z (pre ++ [prev]) []) by (done || constructor).
  rewrite IH; [by rewrite <- app_assoc| |by apply Forall_app; repeat constructor|done|done].
  done.
Qed.

(** The insertion sort of the first run is the run as [list_sort] takes it
    over. *)
Lemma first_run m :
  Forall ok m ->
  fold_left ins (take (count_run ltb key m).1 m) []
  = reverse (if (count_run ltb key m).2
             then reverse (take (count_run ltb key m).1 m)
             else take (count_run ltb key m).1 m).
Proof using asym ge_trans.
  intros Hm. destruct m as [|x [|y m]]; [done|done|].
  apply Forall_cons in Hm as [Hx Hm]. apply Forall_cons in Hm as [Hy Hm].
  cbn [count_run fst snd]. cbv zeta.
  change (take (2 + ?k) (x :: y :: m)) with (x :: y :: take k m).
  cbn [fold_left insert_desc].
  destruct (ltb (key y) (key x)) eqn:E.
  - rewrite reverse_involutive.
    apply (run_descending y [x] m); [done|by repeat constructor|done|by repeat constructor].
  - rewrite run_ascending, !reverse_cons. by rewrite <- !app_assoc.
Qed.

(** On keys that [<] orders, the sort is the stable insertion sort. *)
Lemma sort_desc_stable l :
  Forall ok l -> sort_desc ltb key l = stable_sort_desc ltb key l.
Proof using asym ge_trans.
  intros Hl. rewrite <- (reverse_involutive l) at 2.
  rewrite stable_sort_desc_reverse. unfold sort_desc, list_sort.
  assert (Forall ok (reverse l)) as Hm by by apply Forall_reverse.
  pose proof (first_run (reverse l) Hm) as Hrun.
  destruct (count_run ltb key (reverse l)) as [n descending]. cbn [fst snd] in Hrun.
  set (m := reverse l) in *.
  set (run := if descending then reverse (take n m) else take n m) in *.
  assert (Forall ok (take n m) /\ Forall ok (drop n m)) as [Htake Hdrop].
  { apply Forall_app. by rewrite take_drop. }
  rewrite binarysort_reverse.
  - rewrite <- Hrun, <- fold_left_app. by rewrite take_drop.
  - rewrite <- Hrun, <- stable_sort_desc_reverse.
    apply stable_sort_desc_sorted. by apply Forall_reverse.
  - unfold run. destruct descending; [by apply Forall_reverse|done].
  - done.
Qed.

Lemma sort_desc_sorted l :
  Forall ok l -> StronglySorted nbelow (sort_desc ltb key l).
Proof using asym ge_trans.
  intros Hl. rewrite sort_desc_stable by done. by apply stable_sort_desc_sorted.
Qed.
End Ordered.


(** Two strictly descending lists with the same elements are equal. *)
Lemma strictly_sorted_unique l1 l2 :
  (forall x y, x ∈ l1 -> y ∈ l1 -> sabove x y -> sabove y x -> False) ->
  StronglySorted sabove l1 -> StronglySorted sabove l2 ->
  Permutation l1 l2 -> l1 = l2.
Proof.
  intros Hasym Hs1. revert l2.
  induction Hs1 as [|a t1 Hs1 IH Ha]; intros l2 Hs2 Hp.
  { by apply Permutation_nil in Hp. }
  destruct Hs2 as [|b t2 Hs2 Hb].
  { symmetry in Hp. by apply Permutation_nil in Hp. }
  assert (a = b) as ->.
  { assert (a ∈ b :: t2) as Hin1 by (rewrite <- Hp; left).
    assert (b ∈ a :: t1) as Hin2 by (rewrite Hp; left).
    apply elem_of_cons in Hin1 as [?|Hin1]; [done|].
    apply elem_of_cons in Hin2 as [?|Hin2]; [done|].
    rewrite Forall_forall in Ha, Hb.
    destruct (Hasym a b); [left|by right|auto|auto]. }
  f_equal. apply IH; [|done|by apply Permutation_cons_inv in Hp].
  intros x y Hx Hy. apply Hasym; by right.
Qed.

(** When distinct elements have strictly ordered keys, a sorted list is
    strictly sorted. *)
Lemma sorted_strict l :
  NoDup l ->
  (forall x y, x ∈ l -> y ∈ l -> x <> y ->
     ltb (key x) (key y) = true \/ ltb (key y) (key x) = true) ->
  StronglySorted nbelow l -> StronglySorted sabove l.
Proof.
  intros Hnd Hcmp Hs. induction Hs as [|a l Hs IH Ha]; [constructor|].
  apply NoDup_cons in Hnd as [Hnotin Hnd]. constructor.
  - apply IH; [done|]. intros x y Hx Hy. apply Hcmp; by right.
  - rewrite Forall_forall in Ha. apply Forall_forall. intros y Hy.
    destruct (Hcmp a y) as [H|H]; [left|by right|by intros ->|..|done].
    specialize (Ha y Hy). unfold not_below in Ha. congruence.
Qed.

(** Order invariance of the sort: on elements whose keys are comparable and
    pairwise strictly ordered, the result depends on the set of elements
    only. *)
Lemma sort_desc_perm_eq (ok : A -> Prop) l l' :
  (forall x y, ok x -> ok y -> ltb (key x) (key y) = true -> nbelow y x) ->
  (forall x y z, ok x -> ok y -> ok z -> nbelow x y -> nbelow y z -> nbelow x z) ->
  Forall ok l -> NoDup l ->
  (forall x y, x ∈ l -> y ∈ l -> x <> y ->
     ltb (key x) (key y) = true \/ ltb (key y) (key x) = true) ->
  Permutation l l' ->
  sort_desc ltb key l = sort_desc ltb key l'.
Proof.
  intros Hasym Htrans Hok Hnd Hcmp Hp.
  assert (forall k, Permutation l k -> StronglySorted sabove (sort_desc ltb key k)) as Hstrict.
  { intros k Hk. apply sorted_strict.
    - by rewrite <- sort_desc_perm, <- Hk.
    - intros x y Hx Hy. apply (proj1 (sort_desc_elem _ _)) in Hx. apply (proj1 (sort_desc_elem _ _)) in Hy.
      rewrite <- Hk in Hx. rewrite <- Hk in Hy. by apply Hcmp.
    - apply (sort_desc_sorted ok); [done|done|by rewrite <- Hk]. }
  apply strictly_sorted_unique.
  - intros x y Hx Hy Hxy Hyx. apply (proj1 (sort_desc_elem _ _)) in Hx. apply (proj1 (sort_desc_elem _ _)) in Hy.
    rewrite Forall_forall in Hok.
    pose proof (Hasym x y (Hok x Hx) (Hok y Hy) Hyx) as Hn.
    unfold above, not_below in *. congruence.
  - by apply Hstrict.
  - by apply Hstrict.
  - by rewrite <- !sort_desc_perm.
Qed.
End SortFacts.

(* ================================================================== *)
(** * Facts: combinations *)

Lemma binomial_above n k : (n < k)%nat -> binomial n k = 0%nat.
Proof.
  revert k. induction n as [|n IH]; intros [|k] H; cbn; try lia.
  rewrite !IH by lia. done.
Qed.

Lemma binomial_pos n k : (k <= n)%nat -> (0 < binomial n k)%nat.
Proof.
  revert k. induction n as [|n IH]; intros [|k] H; cbn; try lia.
  specialize (IH k). lia.
Qed.

(** [binomial n k] is n! / (k! (n-k)!). *)
Lemma binomial_fact n k :
  (k <= n)%nat -> (binomial n k * fact k * fact (n - k) = fact n)%nat.
Proof.
  revert k. induction n as [|n IH]; intros k Hk.
  { assert (k = 0%nat) as -> by lia. done. }
  destruct k as [|k].
  { change (binomial (S n) 0) with 1%nat. change (fact 0) with 1%nat.
    rewrite Nat.sub_0_r. lia. }
  cbn [binomial]. replace (S n - S k)%nat with (n - k)%nat by lia.
  destruct (decide (k = n)) as [->|Hne].
  - rewrite (binomial_above n (S n)) by lia.
    specialize (IH n (le_n _)). rewrite Nat.sub_diag in *. cbn [fact] in *. nia.
  - pose proof (IH k ltac:(lia)) as IH1. pose proof (IH (S k) ltac:(lia)) as IH2.
    replace (n - k)%nat with (S (n - S k)) in * by lia.
    set (a := binomial n k) in *. set (b := binomial n (S k)) in *.
    set (fk := fact k) in *. set (fr := fact (n - S k)) in *.
    change (fact (S k)) with ((S k) * fk)%nat in *.
    change (fact (S (n - S k))) with ((S (n - S k)) * fr)%nat in *.
    change (fact (S n)) with ((S n) * fact n)%nat.
    replace (S n) with (S k + S (n - S k))%nat at 3 by lia. nia.
Qed.

Section Combinations.
Context {A : Type}.
Implicit Types (l c : list A).

Lemma combinations_length l k : length (combinations l k) = binomial (length l) k.
Proof.
  revert k. induction l as [|x l IH]; intros [|k]; cbn; try done.
  by rewrite length_app, length_fmap, !IH.
Qed.

Lemma combinations_sublist l k c :
  c ∈ combinations l k -> c `sublist_of` l /\ length c = k.
Proof.
  revert k c. induction l as [|x l IH]; intros [|k] c Hc; cbn in Hc.
  - apply list_elem_of_singleton in Hc as ->. split; [constructor|done].
  - by apply elem_of_nil in Hc.
  - apply list_elem_of_singleton in Hc as ->. split; [apply sublist_nil_l|done].
  - apply elem_of_app in Hc as [Hc|Hc].
    + apply list_elem_of_fmap in Hc as (c' & -> & Hc').
      destruct (IH _ _ Hc') as [Hs Hl]. split; [by constructor|cbn; lia].
    + destruct (IH _ _ Hc) as [Hs Hl]. split; [by constructor|done].
Qed.

Lemma combinations_NoDup l k : NoDup l -> NoDup (combinations l k).
Proof.
  intros Hnd. revert k. induction Hnd as [|x l Hx Hnd IH]; intros [|k]; cbn.
  - apply NoDup_singleton.
  - constructor.
  - apply NoDup_singleton.
  - apply NoDup_app. split; [|split].
    + apply NoDup_fmap_2; [|apply IH]. by intros ?? [= ->].
    + intros c (c' & -> & _)%list_elem_of_fmap Hc.
      apply combinations_sublist in Hc as [Hs _].
      apply Hx. eapply elem_of_sublist; [|exact Hs]. left.
    + apply IH.
Qed.

(** Two subsequences of a duplicate-free list with the same elements are
    the same subsequence. *)
Lemma sublist_perm_eq l c1 c2 :
  NoDup l -> c1 `sublist_of` l -> c2 `sublist_of` l -> c1 ≡ₚ c2 -> c1 = c2.
Proof.
  intros Hnd. revert c1 c2. induction Hnd as [|x l Hx Hnd IH]; intros c1 c2 H1 H2 Hp.
  { apply sublist_nil_r in H1, H2. by subst. }
  apply sublist_cons_r in H1 as [H1|(c1' & -> & H1)];
    apply sublist_cons_r in H2 as [H2|(c2' & -> & H2)].
  - by apply IH.
  - exfalso. apply Hx. eapply elem_of_sublist; [|exact H1]. rewrite Hp. left.
  - exfalso. apply Hx. eapply elem_of_sublist; [|exact H2]. rewrite <- Hp. left.
  - f_equal. apply IH; [done|done|]. by apply Permutation_cons_inv in Hp.
Qed.
End Combinations.

(* ================================================================== *)
(** * Facts: the blocks of [compute_features] *)

Lemma col_values_notna col ivs : Forall (fun v => notna v = true) (col_values col ivs).
Proof.
  apply Forall_forall. intros v Hv. unfold col_values in Hv.
  apply list_elem_of_omap in Hv as (o & _ & Ho).
  destruct o as [d|]; cbn in Ho; [|done].
  destruct (row_get d col) as [v'|]; cbn in Ho; [|done].
  destruct (notna v') eqn:E; [|done]. by injection Ho as <-.
Qed.

(** An implied vol read from a slot is a finite number or NaN. *)
Lemma slot_iv_cell ivs i : exists c, slot_val ivs "PUT_IMP_VOL_3M" i = cell c.
Proof.
  unfold slot_val. destruct (ivs !! i) as [[d|]|]; try by exists None.
  by exists (PUT_IMP_VOL_3M d).
Qed.

Lemma slot_sort_key_notna ivs i : notna (slot_sort_key ivs i) = true.
Proof.
  unfold slot_sort_key. cbn zeta.
  destruct (notna (slot_val ivs "PUT_IMP_VOL_3M" i)) eqn:E; [exact E|reflexivity].
Qed.

(** The slots in rank order, with their sort keys. *)
Lemma ranking_sorted ivs r1 r2 :
  (r1 < r2 < 4)%nat ->
  py_lt (slot_sort_key ivs (nth r1 (ranking ivs) 0%nat))
        (slot_sort_key ivs (nth r2 (ranking ivs) 0%nat)) = false.
Proof.
  intros Hr. unfold ranking.
  set (l := (fun i => (i, slot_sort_key ivs i)) <$> seq 0 max_stocks).
  set (pairs := sort_desc py_lt snd l).
  assert (Forall (fun p : nat * pyval => p.2 = slot_sort_key ivs p.1) l) as Hl.
  { apply Forall_fmap, Forall_forall. by intros i _. }
  assert (Forall (fun p : nat * pyval => p.2 = slot_sort_key ivs p.1) pairs) as Hp.
  { unfold pairs. by rewrite <- (sort_desc_perm py_lt snd l). }
  assert (StronglySorted (not_below py_lt snd) pairs) as Hs.
  { apply (sort_desc_sorted py_lt snd (fun p => notna p.2 = true)).
    - intros x y _ _. apply py_lt_asym.
    - intros x y z _ Hy _. by apply py_ge_trans.
    - eapply Forall_impl; [exact Hl|]. intros p ->. apply slot_sort_key_notna. }
  assert (length pairs = 4%nat) as Hlen.
  { unfold pairs. by rewrite sort_desc_length. }
  destruct (lookup_lt_is_Some_2 pairs r1) as [p1 H1]; [lia|].
  destruct (lookup_lt_is_Some_2 pairs r2) as [p2 H2]; [lia|].
  rewrite !nth_lookup, !list_lookup_fmap, H1, H2. cbn.
  rewrite Forall_lookup in Hp. rewrite <- (Hp _ _ H1), <- (Hp _ _ H2).
  apply (StronglySorted_lookup_lt _ _ _ _ _ _ Hs (proj1 Hr) H1 H2).
Qed.

Section FeatureFacts.
Variables (fadd fsub fmul fdiv : num -> num -> num) (fsqrt : num -> num).
#[local] Abbreviation cf := (compute_features fadd fsub fmul fdiv fsqrt).
#[local] Abbreviation deal_fs := (deal_features fsub fmul fdiv fsqrt).
#[local] Abbreviation basket_fs := (basket_features fdiv).
#[local] Abbreviation skew_fs := (skew_premium_columns fsub fdiv).
#[local] Abbreviation aggregate_fs := (aggregate_features fadd fsub fdiv).
#[local] Abbreviation risk_fs := (risk_features fadd fsub fmul fdiv fsqrt).

Lemma raw_columns_eq ivs m :
  raw_columns ivs m = write_all raw_key (fun _ a => slot_val ivs a.2 a.1) raw_slots m.
Proof.
  unfold raw_columns, raw_slots. rewrite write_all_bind.
  apply fold_left_pointwise. intros m' i.
  rewrite write_all_bind. by apply fold_left_pointwise.
Qed.

Lemma raw_keys_NoDup : NoDup (raw_key <$> raw_slots).
Proof. apply (bool_decide_unpack _). vm_compute. exact I. Qed.


Lemma raw_columns_lookup ivs m a :
  a ∈ raw_slots -> raw_columns ivs m !! raw_key a = Some (slot_val ivs a.2 a.1).
Proof.
  intros Ha. rewrite raw_columns_eq.
  by apply (write_all_lookup raw_key (fun _ a => slot_val ivs a.2 a.1) (raw_key <$> raw_slots));
    [apply raw_keys_NoDup| |done|].
Qed.

Lemma raw_slot_elem i col : (i < 4)%nat -> col ∈ iv_cols -> (i, col) ∈ raw_slots.
Proof.
  intros Hi Hc. unfold raw_slots.
  apply list_elem_of_bind. exists i. split; [|apply elem_of_seq; unfold max_stocks; lia].
  apply list_elem_of_bind. exists col. split; [|done]. by apply list_elem_of_singleton.
Qed.

Lemma rank_slot_elem col r : col ∈ iv_cols -> (r < 4)%nat -> (col, r) ∈ rank_slots.
Proof.
  intros Hc Hr. unfold rank_slots.
  apply list_elem_of_bind. exists col. split; [|done].
  apply list_elem_of_bind. exists r. split; [|apply elem_of_seq; unfold max_stocks; lia].
  by apply list_elem_of_singleton.
Qed.

Lemma rank_columns_eq idxs m :
  rank_columns idxs m
  = write_all rank_key
      (fun m a => getitem m (a.1 +:+ suffix (nth a.2 idxs 0%nat))) rank_slots m.
Proof.
  unfold rank_columns, rank_slots. rewrite write_all_bind.
  apply fold_left_pointwise. intros m' col.
  rewrite write_all_bind. by apply fold_left_pointwise.
Qed.

Lemma rank_keys_NoDup : NoDup (rank_key <$> rank_slots).
Proof. apply (bool_decide_unpack _). vm_compute. exact I. Qed.

Lemma raw_not_rank a : a ∈ raw_slots -> raw_key a ∉ rank_key <$> rank_slots.
Proof.
  revert a. apply Forall_forall. apply (bool_decide_unpack _). vm_compute. exact I.
Qed.

Lemma rank_columns_other idxs m k :
  k ∉ rank_key <$> rank_slots -> rank_columns idxs m !! k = m !! k.
Proof. rewrite rank_columns_eq. apply write_all_other. Qed.

Lemma rank_columns_lookup idxs m col r :
  col ∈ iv_cols -> (r < 4)%nat -> (nth r idxs 0 < 4)%nat ->
  rank_columns idxs m !! rank_key (col, r)
  = Some (getitem m (col +:+ suffix (nth r idxs 0%nat))).
Proof.
  intros Hc Hr Hi. rewrite rank_columns_eq.
  apply (write_all_lookup rank_key
           (fun m a => getitem m (a.1 +:+ suffix (nth a.2 idxs 0%nat)))
           (rank_key <$> rank_slots) _ _ (col, r));
    [apply rank_keys_NoDup|done|by apply rank_slot_elem|].
  intros m1 m2 Hm. cbn. unfold getitem. f_equal.
  apply Hm, (raw_not_rank (_, _)). by apply raw_slot_elem.
Qed.


Lemma skew_premium_other m k : k ∉ skew_keys -> skew_fs m !! k = m !! k.
Proof.
  intros Hk. unfold skew_keys in Hk. cbn in Hk.
  repeat (apply not_elem_of_cons in Hk as [?%not_eq_sym Hk]).
  unfold skew_premium_columns. cbn [fold_left seq max_stocks].
  repeat name_let. by repeat skip_insert.
Qed.

Lemma skew_premium_rank_other idxs m k :
  k ∉ skew_rank_keys -> skew_premium_rank_columns idxs m !! k = m !! k.
Proof.
  intros Hk. unfold skew_rank_keys in Hk. cbn in Hk.
  repeat (apply not_elem_of_cons in Hk as [?%not_eq_sym Hk]).
  unfold skew_premium_rank_columns. cbn [fold_left seq max_stocks].
  repeat name_let. by repeat skip_insert.
Qed.

Lemma aggregate_features_other ivs n m k :
  k ∉ aggregate_keys -> aggregate_fs ivs n m !! k = m !! k.
Proof.
  intros Hk. unfold aggregate_keys in Hk.
  repeat (apply not_elem_of_cons in Hk as [?%not_eq_sym Hk]).
  unfold aggregate_features. repeat name_let. by repeat skip_insert.
Qed.

Lemma risk_features_other input n m k :
  k ∉ risk_keys -> risk_fs input n m !! k = m !! k.
Proof.
  intros Hk. unfold risk_keys in Hk.
  repeat (apply not_elem_of_cons in Hk as [?%not_eq_sym Hk]).
  unfold risk_features. repeat name_let.
  repeat skip_insert; reflexivity.
Qed.





(** The raw 3-month put implied vols read back by [iv_pairs]. *)
Lemma raw_columns_getitem ivs m col i :
  col ∈ iv_cols -> (i < 4)%nat ->
  getitem (raw_columns ivs m) (col +:+ suffix i) = slot_val ivs col i.
Proof.
  intros Hc Hi. unfold getitem. change (col +:+ suffix i) with (raw_key (i, col)).
  by rewrite raw_columns_lookup by by apply raw_slot_elem.
Qed.

Lemma sorted_indices_raw ivs m : sorted_indices (raw_columns ivs m) = ranking ivs.
Proof.
  unfold sorted_indices, ranking, iv_pairs, slot_sort_key. do 2 f_equal.
  apply list_fmap_ext. intros ? i Hi%lookup_seq. unfold max_stocks in Hi.
  cbv zeta. rewrite raw_columns_getitem;
    [by destruct (notna _) | apply (bool_decide_unpack _); vm_compute; exact I | lia].
Qed.

Lemma ranking_perm ivs : Permutation (ranking ivs) (seq 0 4).
Proof.
  unfold ranking. rewrite <- sort_desc_perm, <- list_fmap_compose. by rewrite list_fmap_id.
Qed.

Lemma ranking_lt ivs r : (r < 4)%nat -> (nth r (ranking ivs) 0 < 4)%nat.
Proof.
  intros Hr. pose proof (ranking_perm ivs) as Hp.
  assert (nth r (ranking ivs) 0%nat ∈ seq 0 4) as Hin.
  { rewrite <- Hp. apply list_elem_of_In, nth_In.
    apply Permutation_length in Hp. rewrite Hp. by cbn. }
  apply elem_of_seq in Hin. lia.
Qed.

Lemma rank_not_later a :
  a ∈ rank_slots ->
  rank_key a ∉ skew_keys ++ skew_rank_keys ++ aggregate_keys ++ risk_keys ++ final_keys.
Proof.
  revert a. apply Forall_forall. apply (bool_decide_unpack _). vm_compute. exact I.
Qed.

(** The ranked columns: column [col] at rank [r + 1] holds the value of the
    input slot that the sort puts at position [r]. *)
Lemma cf_rank input ivs col r :
  col ∈ iv_cols -> (r < 4)%nat ->
  cf input ivs !! rank_key (col, r) = Some (slot_val ivs col (nth r (ranking ivs) 0%nat)).
Proof.
  intros Hc Hr.
  pose proof (rank_not_later (col, r) (rank_slot_elem _ _ Hc Hr)) as Hk.
  repeat (apply not_elem_of_app in Hk as [? Hk]).
  unfold final_keys in Hk. repeat (apply not_elem_of_cons in Hk as [?%not_eq_sym Hk]).
  unfold compute_features. cbv zeta.
  do 2 (apply step_ne; [assumption|]).
  rewrite risk_features_other, aggregate_features_other, skew_premium_rank_other,
    skew_premium_other by done.
  rewrite sorted_indices_raw.
  rewrite rank_columns_lookup by auto using ranking_lt.
  f_equal. apply raw_columns_getitem; auto using ranking_lt.
Qed.

Lemma aggregate_features_worst ivs n m :
  aggregate_fs ivs n m !! "Basket_Worst_IV"
  = Some (agg_or_nan py_max (col_values "PUT_IMP_VOL_3M" ivs)).
Proof. unfold aggregate_features. repeat name_let. repeat skip_insert. by hit_insert. Qed.

Lemma risk_features_ki input n m :
  notna (getitem m "Basket_Worst_IV") = true ->
  risk_fs input n m !! "KI_Risk_Score"
  = Some (py_mul fmul (py_div fdiv (getitem m "Basket_Worst_IV") mean_worst_iv)
            (py_div fdiv (PyFloat (Fin (ki_barrier input))) (PyInt 100))).
Proof.
  intros H. unfold risk_features. rewrite H. repeat name_let.
  repeat skip_insert; by hit_insert.
Qed.

Lemma risk_features_ki_nan input n m :
  notna (getitem m "Basket_Worst_IV") = false ->
  risk_fs input n m !! "KI_Risk_Score" = Some np_nan.
Proof.
  intros H. unfold risk_features. rewrite H. cbn [fold_left risk_keys].
  repeat skip_insert. by hit_insert.
Qed.

Lemma cf_ki_risk input ivs :
  let worst_iv := agg_or_nan py_max (col_values "PUT_IMP_VOL_3M" ivs) in
  cf input ivs !! "KI_Risk_Score"
  = Some (if notna worst_iv
          then py_mul fmul (py_div fdiv worst_iv mean_worst_iv)
                 (py_div fdiv (PyFloat (Fin (ki_barrier input))) (PyInt 100))
          else np_nan).
Proof.
  intros worst_iv. unfold compute_features. cbv zeta.
  do 2 (apply step_neb; [vm_compute; reflexivity|]).
  match goal with
  | |- risk_features _ _ _ _ _ _ _ ?m !! _ = _ =>
      assert (getitem m "Basket_Worst_IV" = worst_iv) as Hw
        by (unfold getitem; by rewrite aggregate_features_worst)
  end.
  destruct (notna worst_iv) eqn:E.
  - rewrite risk_features_ki by by rewrite Hw. by rewrite Hw.
  - by rewrite risk_features_ki_nan by by rewrite Hw.
Qed.

End FeatureFacts.

(* ================================================================== *)
(** * Facts: the stock pool and the planned baskets *)

Lemma dict_set_keys {V : Type} (k : string) (v : V) (d : list (string * V)) :
  (dict_set k v d).*1 = if bool_decide (k ∈ d.*1) then d.*1 else d.*1 ++ [k].
Proof.
  induction d as [|[k' v'] d IH]; cbn; [done|].
  destruct (String.eqb_spec k' k) as [->|Hne]; cbn.
  - rewrite bool_decide_eq_true_2; [done|left].
  - rewrite IH. destruct (bool_decide (k ∈ d.*1)) eqn:E.
    + apply bool_decide_eq_true in E. rewrite bool_decide_eq_true_2; [done|by right].
    + apply bool_decide_eq_false in E. rewrite bool_decide_eq_false_2; [done|].
      intros [?|?]%elem_of_cons; [by apply Hne|done].
Qed.

Lemma collect_pool_keys df pool sdata sinfo :
  NoDup sdata.*1 ->
  NoDup (collect_pool df pool sdata sinfo).1.*1
  /\ (forall s, s ∈ (collect_pool df pool sdata sinfo).1.*1
                <-> s ∈ sdata.*1 \/ (s ∈ pool /\ is_Some (first_row df s))).
Proof.
  revert sdata sinfo. induction pool as [|bbg pool IH]; intros sdata sinfo Hnd; cbn.
  { split; [done|]. intros s. split; [by left|].
    intros [?|[Hs _]]; [done|by apply elem_of_nil in Hs]. }
  unfold first_row. destruct (stock_data df bbg) as [|r rs] eqn:E.
  - destruct (IH sdata sinfo Hnd) as [H1 H2]. split; [done|]. intros s. rewrite H2.
    split; intros [?|[Hs Hr]]; auto.
    + right. split; [by right|done].
    + apply elem_of_cons in Hs as [->|Hs]; [|by auto].
      unfold first_row in Hr. rewrite E in Hr. by destruct Hr.
  - assert (NoDup (dict_set bbg r sdata).*1) as Hnd'.
    { rewrite dict_set_keys. destruct (bool_decide _) eqn:B; [done|].
      apply bool_decide_eq_false in B. apply NoDup_app. split; [done|].
      split; [|apply NoDup_singleton]. by intros x Hx ->%list_elem_of_singleton. }
    destruct (IH (dict_set bbg r sdata) (<[bbg:=summary_of r]> sinfo) Hnd') as [H1 H2].
    split; [done|]. intros s. rewrite H2, dict_set_keys.
    assert (is_Some (first_row df bbg)) as Hbbg by (unfold first_row; rewrite E; by eexists).
    destruct (bool_decide _) eqn:B.
    + apply bool_decide_eq_true in B. split; intros [?|[Hs Hr]]; auto.
      * right. split; [by right|done].
      * apply elem_of_cons in Hs as [->|Hs]; auto.
    + split.
      * intros [Hs|[Hs Hr]].
        -- apply elem_of_app in Hs as [?|Hs]; [by left|].
           apply list_elem_of_singleton in Hs as ->. right. split; [left|done].
        -- right. split; [by right|done].
      * intros [?|[Hs Hr]]; [left; apply elem_of_app; by left|].
        apply elem_of_cons in Hs as [->|Hs]; [|by auto].
        left. apply elem_of_app. right. by apply list_elem_of_singleton.
Qed.

(** [valid_stocks]: the symbols of the pool that have a row, each once. *)
Lemma valid_stocks_spec df pool :
  NoDup (valid_stocks_of df pool)
  /\ (forall s, s ∈ valid_stocks_of df pool <-> s ∈ pool /\ is_Some (first_row df s)).
Proof.
  destruct (collect_pool_keys df pool [] ∅) as [H1 H2]; [constructor|].
  split; [done|]. intros s. unfold valid_stocks_of. rewrite H2. cbn.
  split; [intros [Hs|?]; [by apply elem_of_nil in Hs|done]|by right].
Qed.

Lemma min_of_spec x xs :
  min_of x xs ∈ x :: xs /\ Forall (fun y => (min_of x xs <= y)%Z) (x :: xs).
Proof.
  revert x. induction xs as [|y xs IH]; intros x; cbn.
  { split; [left|]. repeat constructor. lia. }
  destruct (IH (if (y <? x)%Z then y else x)) as [Hin Hle].
  change (fold_left _ xs ?a) with (min_of a xs) in *.
  apply Forall_cons in Hle as [Hle Hxs].
  split.
  - destruct (y <? x)%Z; set_solver.
  - destruct (Z.ltb_spec y x); repeat constructor; try done; lia.
Qed.

Lemma filter_all_id {A : Type} (P : A -> Prop) `{!forall x, Decision (P x)} (l : list A) :
  Forall P l -> filter P l = l.
Proof.
  induction 1 as [|x l Hx _ IH]; [done|]. by rewrite filter_cons_True, IH.
Qed.

Lemma filter_none_nil {A : Type} (P : A -> Prop) `{!forall x, Decision (P x)} (l : list A) :
  Forall (fun x => ~ P x) l -> filter P l = [].
Proof.
  induction 1 as [|x l Hx _ IH]; [done|]. by rewrite filter_cons_False, IH.
Qed.

(** The planned baskets of one size. *)
Lemma planned_count vs sizes k :
  length (filter (fun kc : Z * list string => kc.1 = k) (planned vs sizes))
  = (count_occ Z.eq_dec sizes k * binomial (length vs) (Z.to_nat k))%nat.
Proof.
  induction sizes as [|s sizes IH]; [done|].
  unfold planned. cbn [mbind list_bind]. fold (planned vs sizes).
  rewrite filter_app, length_app, IH. cbn [count_occ].
  destruct (Z.eq_dec s k) as [->|Hne].
  - destruct (Z.ltb_spec (Z.of_nat (length vs)) k).
    + rewrite binomial_above by lia. cbn. lia.
    + rewrite filter_all_id, length_fmap, combinations_length; [lia|].
      apply Forall_forall. by intros kc (c & -> & _)%list_elem_of_fmap.
  - assert (filter (fun kc : Z * list string => kc.1 = k)
              (if (Z.of_nat (length vs) <? s)%Z then []
               else (fun combo => (s, combo)) <$> combinations vs (Z.to_nat s)) = []) as ->;
      [|done].
    destruct (_ <? _)%Z; [done|].
    apply filter_none_nil, Forall_forall.
    intros kc (c & -> & _)%list_elem_of_fmap. done.
Qed.

Lemma planned_elem vs sizes k c :
  (k, c) ∈ planned vs sizes ->
  k ∈ sizes /\ (k <= Z.of_nat (length vs))%Z /\ c ∈ combinations vs (Z.to_nat k).
Proof.
  unfold planned. intros (s & Hin & Hs)%list_elem_of_bind.
  destruct (Z.ltb_spec (Z.of_nat (length vs)) s); [by apply elem_of_nil in Hin|].
  apply list_elem_of_fmap in Hin as (c' & [= -> ->] & Hc). done.
Qed.

Lemma planned_has vs sizes k :
  k ∈ sizes -> (0 <= k <= Z.of_nat (length vs))%Z ->
  exists c, (k, c) ∈ planned vs sizes.
Proof.
  intros Hk Hle.
  assert (combinations vs (Z.to_nat k) <> []) as Hne.
  { intros H%(f_equal length). rewrite combinations_length in H. cbn in H.
    pose proof (binomial_pos (length vs) (Z.to_nat k)). lia. }
  destruct (combinations vs (Z.to_nat k)) as [|c cs] eqn:E; [done|].
  exists c. unfold planned. apply list_elem_of_bind. exists k. split; [|done].
  destruct (Z.ltb_spec (Z.of_nat (length vs)) k); [lia|].
  rewrite E. left.
Qed.

(** Without a repeated size, no basket is planned twice. *)
Lemma planned_NoDup vs sizes :
  NoDup vs -> NoDup sizes -> Forall (fun s => (0 <= s)%Z) sizes ->
  NoDup (planned vs sizes).*2.
Proof.
  intros Hvs Hnd Hpos. induction Hnd as [|s sizes Hs Hnd IH]; [constructor|].
  apply Forall_cons in Hpos as [Hs0 Hpos].
  unfold planned. cbn [mbind list_bind]. fold (planned vs sizes).
  rewrite fmap_app. apply NoDup_app. split; [|split; [|by apply IH]].
  - destruct (_ <? _)%Z; [constructor|].
    rewrite <- list_fmap_compose. cbn. rewrite list_fmap_id. by apply combinations_NoDup.
  - intros c Hc1 Hc2.
    apply list_elem_of_fmap in Hc2 as ([k c'] & -> & Hc2). cbn in Hc1.
    apply planned_elem in Hc2 as (Hk & _ & Hc2).
    destruct (_ <? _)%Z; [by apply elem_of_nil in Hc1|].
    apply list_elem_of_fmap in Hc1 as ([s' c''] & -> & Hc1).
    apply list_elem_of_fmap in Hc1 as (c3 & [= -> ->] & Hc1). cbn in Hc2.
    apply combinations_sublist in Hc1 as [_ H1], Hc2 as [_ H2].
    rewrite Forall_forall in Hpos. pose proof (Hpos k Hk).
    assert (s = k) as -> by lia. done.
Qed.

(* ================================================================== *)
(** * Facts: the handlers *)

Ltac msimpl :=
  unfold mbind, M_bind, mret, M_ret, raise, tell, try_except in *; cbn in *.

Section EngineFacts.
Variables (fadd fsub fmul fdiv : num -> num -> num) (fsqrt : num -> num).
Variable fround : num -> nat -> num.
#[local] Abbreviation cf := (compute_features fadd fsub fmul fdiv fsqrt).
#[local] Abbreviation predict_cpn := (predict_coupon fadd fsub fmul fdiv fsqrt).
#[local] Abbreviation single := (calculate_fcn fadd fsub fmul fdiv fsqrt).
#[local] Abbreviation batch := (batch_calculate_fcn fadd fsub fmul fdiv fsqrt fround).

Lemma predict_coupon_eq mdl columns input ivs :
  predict_cpn mdl columns input ivs
  = ([ComputeFeatures (cf input ivs); Predict (reindex (cf input ivs) columns)],
     Return (default 0%Q (safe_float (mdl (reindex (cf input ivs) columns))))).
Proof. reflexivity. Qed.

Lemma get_available_dates_nil w : get_available_dates w = [] <-> iv_files w = [].
Proof.
  unfold get_available_dates. split; intros H.
  - apply (f_equal length) in H. rewrite sort_desc_length, length_fmap in H.
    by destruct (iv_files w).
  - by rewrite H.
Qed.

Lemma collect_rows_silent df symbols acc info :
  (collect_rows df symbols acc info).1 = [].
Proof.
  revert acc info. induction symbols as [|bbg rest IH]; intros acc info; cbn; [done|].
  destruct (stock_data df bbg); [done|apply IH].
Qed.

(** Every symbol has a row: the rows are collected in request order. *)
Lemma collect_rows_found df symbols rows acc info :
  mapM (first_row df) symbols = Some rows ->
  collect_rows df symbols acc info = ([], Return (acc ++ rows, info_of df symbols info)).
Proof.
  revert rows acc info. induction symbols as [|bbg rest IH]; intros rows acc info H.
  { cbn in H. injection H as <-. by rewrite app_nil_r. }
  rewrite mapM_Some in H. apply Forall2_cons_inv_l in H as (r & rows' & Hr & H & ->).
  apply mapM_Some in H. cbn [collect_rows info_of foldl]. rewrite Hr.
  unfold first_row in Hr. destruct (stock_data df bbg) as [|r0 rs]; [done|].
  cbn in Hr. injection Hr as ->.
  rewrite (IH rows' (acc ++ [r]) (<[bbg:=summary_of r]> info) H).
  by rewrite <- app_assoc.
Qed.

Lemma info_of_perm df symbols symbols' info :
  symbols ≡ₚ symbols' -> info_of df symbols info = info_of df symbols' info.
Proof.
  intros Hp. revert info. induction Hp as [|s l l' _ IH|s1 s2 l|l1 l2 l3 _ IH1 _ IH2];
    intros info; cbn.
  - done.
  - apply IH.
  - f_equal. destruct (first_row df s1) as [r1|] eqn:E1, (first_row df s2) as [r2|] eqn:E2;
      try done.
    destruct (decide (s1 = s2)) as [->|Hne].
    + by replace r2 with r1 by congruence.
    + by rewrite insert_insert_ne.
  - by rewrite IH1.
Qed.

Lemma mapM_perm {A B : Type} (f : A -> option B) l l' k :
  l ≡ₚ l' -> mapM f l = Some k -> exists k', mapM f l' = Some k' /\ k ≡ₚ k'.
Proof.
  intros Hp H.
  assert (forall l0 k0, mapM f l0 = Some k0 -> omap f l0 = k0) as Homap.
  { induction l0 as [|a l0 IH]; intros k0 H0; cbn in *; [by injection H0|].
    destruct (f a); cbn in *; [|done].
    destruct (mapM f l0); cbn in *; [|done]. injection H0 as <-. by rewrite (IH _ eq_refl). }
  destruct (mapM_is_Some_2 f l') as [k' Hk'].
  { rewrite <- Hp. apply mapM_is_Some_1. by eexists. }
  exists k'. split; [done|].
  rewrite <- (Homap _ _ H), <- (Homap _ _ Hk'). by rewrite Hp.
Qed.

(** The sort key of a row with an implied vol is that number. *)
Lemma iv_sort_key_num r q :
  PUT_IMP_VOL_3M r = Some q ->
  exists q', to_num (iv_sort_key r) = Fin q' /\ (q' == q)%Q.
Proof.
  intros H. unfold iv_sort_key, row_get. cbn. rewrite H. cbn. unfold or_zero, truthy.
  destruct (Qeq_bool q 0) eqn:E; cbn.
  - exists (inject_Z 0). split; [done|]. apply Qeq_bool_iff in E. by rewrite E.
  - by exists q.
Qed.

Lemma iv_sort_key_notna r q : PUT_IMP_VOL_3M r = Some q -> notna (iv_sort_key r) = true.
Proof.
  intros (q' & H & _)%iv_sort_key_num. apply notna_is_nan. by rewrite H.
Qed.

Lemma iv_sort_key_apart r1 r2 q1 q2 :
  PUT_IMP_VOL_3M r1 = Some q1 -> PUT_IMP_VOL_3M r2 = Some q2 -> ~ (q1 == q2)%Q ->
  py_lt (iv_sort_key r1) (iv_sort_key r2) = true
  \/ py_lt (iv_sort_key r2) (iv_sort_key r1) = true.
Proof.
  intros (q1' & E1 & H1)%iv_sort_key_num (q2' & E2 & H2)%iv_sort_key_num Hne.
  unfold py_lt. rewrite E1, E2. cbn. rewrite !Qltb_lt, H1, H2.
  destruct (Q_dec q1 q2) as [[?|?]|?]; auto. done.
Qed.

Lemma pairwise_distinct_rows rows ivs :
  Forall2 (fun r q => PUT_IMP_VOL_3M r = Some q) rows ivs ->
  pairwise_distinct ivs = true ->
  NoDup rows
  /\ (forall x y, x ∈ rows -> y ∈ rows -> x <> y ->
        py_lt (iv_sort_key x) (iv_sort_key y) = true
        \/ py_lt (iv_sort_key y) (iv_sort_key x) = true).
Proof.
  induction 1 as [|r q rows ivs Hr Hrows IH]; intros Hd.
  { split; [constructor|]. intros x y Hx. by apply elem_of_nil in Hx. }
  cbn in Hd. apply andb_prop in Hd as [Hhead Htail].
  destruct (IH Htail) as [Hnd Hcmp].
  rewrite forallb_forall in Hhead.
  assert (forall y, y ∈ rows -> exists qy, PUT_IMP_VOL_3M y = Some qy /\ ~ (q == qy)%Q)
    as Hother.
  { intros y Hy. apply list_elem_of_lookup in Hy as [i Hi].
    destruct (Forall2_lookup_l _ _ _ _ _ Hrows Hi) as (qy & Hqy & HIV).
    exists qy. split; [done|]. intros Heq%Qeq_bool_iff.
    apply list_elem_of_lookup_2, list_elem_of_In, Hhead in Hqy. by rewrite Heq in Hqy. }
  split.
  - constructor; [|done]. intros Hin. destruct (Hother r Hin) as (qy & Hqy & Hne).
    rewrite Hr in Hqy. injection Hqy as <-. by apply Hne.
  - intros x y Hx Hy Hxy.
    apply elem_of_cons in Hx as [->|Hx]; apply elem_of_cons in Hy as [->|Hy].
    + done.
    + destruct (Hother y Hy) as (qy & Hqy & Hne). by apply (iv_sort_key_apart _ _ q qy).
    + destruct (Hother x Hx) as (qx & Hqx & Hne).
      apply (iv_sort_key_apart _ _ qx q); [done|done|]. intros E. by apply Hne.
    + by apply Hcmp.
Qed.

(** Rows with pairwise distinct implied vols are ranked the same way
    whatever their input order. *)
Lemma sort_and_pad_perm rows rows' ivs :
  mapM PUT_IMP_VOL_3M rows = Some ivs -> pairwise_distinct ivs = true ->
  rows ≡ₚ rows' -> sort_and_pad rows = sort_and_pad rows'.
Proof.
  intros Hivs%mapM_Some Hd Hp. destruct (pairwise_distinct_rows _ _ Hivs Hd) as [Hnd Hcmp].
  unfold sort_and_pad.
  assert (sort_desc py_lt iv_sort_key rows = sort_desc py_lt iv_sort_key rows') as ->;
    [|done].
  apply (sort_desc_perm_eq py_lt iv_sort_key (fun r => is_Some (PUT_IMP_VOL_3M r)));
    try done.
  - intros x y _ _. apply py_lt_asym.
  - intros x y z _ [q Hq] _. apply py_ge_trans. by apply (iv_sort_key_notna _ q).
  - apply Forall_forall. intros r Hr. apply list_elem_of_lookup in Hr as [i Hi].
    destruct (Forall2_lookup_l _ _ _ _ _ Hivs Hi) as (q & _ & Hq). by exists q.
Qed.

(** The first symbol without a row stops the loop. *)
Lemma collect_rows_missing df pre bbg post acc info :
  Forall (fun s => is_Some (first_row df s)) pre ->
  first_row df bbg = None ->
  collect_rows df (pre ++ bbg :: post) acc info
  = ([], Raise (HTTPException 400 (StockNotFound bbg))).
Proof.
  intros Hpre Hnone. revert acc info.
  induction Hpre as [|s pre [r Hr] _ IH]; intros acc info; cbn.
  - unfold first_row in Hnone. by destruct (stock_data df bbg).
  - unfold first_row in Hr. destruct (stock_data df s); [done|]. apply IH.
Qed.

(** What a single quote computes: nothing, or the features of one basket
    followed by one prediction on their projection. *)
Lemma calculate_fcn_trace w request :
  (single w request).1 = []
  \/ exists ivs,
       (single w request).1
       = [ComputeFeatures (cf (make_input (fcn_terms request)) ivs);
          Predict (reindex (cf (make_input (fcn_terms request)) ivs) (feature_cols w))].
Proof.
  unfold calculate_fcn.
  destruct (model w) as [mdl|]; [|by left].
  destruct (get_available_dates w) as [|latest ?]; [by left|].
  destruct (Qle_bool _ _); [by left|].
  destruct (Qle_bool _ _); [by left|].
  unfold load_iv_data. destruct (dict_get _ _) as [df|]; [|by left].
  pose proof (collect_rows_silent df (stocks request) [] ∅) as Hs.
  msimpl. destruct (collect_rows df (stocks request) [] ∅) as [tr [e|[rows info]]];
    cbn in Hs; subst tr; cbn.
  - left. by destruct e.
  - right. by eexists.
Qed.

#[local] Abbreviation qcombo := (quote_combo fadd fsub fmul fdiv fsqrt fround).
#[local] Abbreviation qcombos := (quote_combos fadd fsub fmul fdiv fsqrt fround).
#[local] Abbreviation qsizes := (quote_sizes fadd fsub fmul fdiv fsqrt fround).
#[local] Abbreviation fev := (features_event fadd fsub fmul fdiv fsqrt).
#[local] Abbreviation qfor := (quote_for fsub fround).
#[local] Abbreviation avg_by_size := (avg_coupon_by_size fadd fdiv).
#[local] Abbreviation set_boost := (set_yield_boost fsub fround).

Lemma quote_combo_spec mdl columns t base sdata sinfo k id combo :
  exists tr q,
    qcombo mdl columns t base sdata sinfo k id combo = (tr, Return q)
    /\ qfor t (k, combo) q /\ Forall (fev columns base) tr.
Proof.
  unfold quote_combo. rewrite predict_coupon_eq. msimpl.
  do 2 eexists. split; [reflexivity|]. split; [done|].
  repeat constructor; eexists; [left|right]; reflexivity.
Qed.

Lemma quote_combos_spec mdl columns t base sdata sinfo k combos quotes id :
  exists tr qs,
    qcombos mdl columns t base sdata sinfo k combos quotes id
    = (tr, Return (quotes ++ qs, (id + length combos)%nat))
    /\ Forall2 (qfor t) ((fun combo => (k, combo)) <$> combos) qs
    /\ Forall (fev columns base) tr.
Proof.
  revert quotes id. induction combos as [|combo rest IH]; intros quotes id.
  { exists [], []. msimpl. rewrite app_nil_r, Nat.add_0_r. by repeat split. }
  cbn [quote_combos].
  destruct (quote_combo_spec mdl columns t base sdata sinfo k id combo)
    as (tr1 & q & -> & Hq & Htr1).
  destruct (IH (quotes ++ [q]) (id + 1)%nat) as (tr2 & qs & Hrest & Hqs & Htr2).
  unfold mbind, M_bind. rewrite Hrest. cbn.
  exists (tr1 ++ tr2), (q :: qs). rewrite <- app_assoc. cbn.
  replace (id + 1 + length rest)%nat with (id + S (length rest))%nat by lia.
  split; [done|]. split; [by constructor|by apply Forall_app].
Qed.

Lemma quote_sizes_spec mdl columns t base sdata sinfo vs sizes quotes id :
  exists tr qs id',
    qsizes mdl columns t base sdata sinfo vs sizes quotes id
    = (tr, Return (quotes ++ qs, id'))
    /\ Forall2 (qfor t) (planned vs sizes) qs
    /\ Forall (fev columns base) tr.
Proof.
  revert quotes id. induction sizes as [|k rest IH]; intros quotes id.
  { exists [], [], id. msimpl. rewrite app_nil_r. by repeat split. }
  cbn [quote_sizes]. unfold planned. cbn [mbind list_bind]. fold (planned vs rest).
  destruct (Z.of_nat (length vs) <? k)%Z.
  { apply IH. }
  destruct (quote_combos_spec mdl columns t base sdata sinfo k
              (combinations vs (Z.to_nat k)) quotes id) as (tr1 & qs1 & -> & Hqs1 & Htr1).
  destruct (IH (quotes ++ qs1) (id + length (combinations vs (Z.to_nat k)))%nat)
    as (tr2 & qs2 & id' & Hrest & Hqs2 & Htr2).
  unfold mbind at 1, M_bind at 1. rewrite Hrest.
  exists (tr1 ++ tr2), (qs1 ++ qs2), id'. rewrite <- app_assoc.
  split; [done|]. split; [by apply Forall2_app|by apply Forall_app].
Qed.



(** A batch request that succeeds went through every check, and its quotes
    are those of the planned baskets, sorted and annotated. *)
Lemma batch_inv w request tr resp :
  batch w request = (tr, Return resp) ->
  let t := batch_terms request in
  exists mdl latest rest df qs,
    model w = Some mdl
    /\ get_available_dates w = latest :: rest
    /\ pricingDate_out resp = resolve_pricing_date t latest
    /\ dict_get (iv_files w) (pricingDate_out resp) = Some df
    /\ Qle_bool (strikePrice t) (knockInPrice t) = false
    /\ Qle_bool (knockOutPrice t) (strikePrice t) = false
    /\ valid_sizes_of request <> []
    /\ valid_stocks_of df (stockPool request) <> []
    /\ Forall2 (qfor t)
         (planned (valid_stocks_of df (stockPool request)) (valid_sizes_of request)) qs
    /\ (let sorted := sort_desc py_lt couponRate qs in
        quotes resp
        = set_boost (avg_by_size (valid_sizes_of request) sorted)
            (min_size_of (valid_sizes_of request)) <$> sorted)
    /\ Forall (fev (feature_cols w) (make_input t)) tr.
Proof.
  intros H t. unfold batch_calculate_fcn in H. fold t in H.
  destruct (model w) as [mdl|]; [|done].
  destruct (get_available_dates w) as [|latest rest]; [done|].
  destruct (Qle_bool (strikePrice t) (knockInPrice t)) eqn:Hki; [done|].
  destruct (Qle_bool (knockOutPrice t) (strikePrice t)) eqn:Hko; [done|].
  fold (valid_sizes_of request) in H.
  destruct (valid_sizes_of request) as [|size0 sizes] eqn:Hsizes; [done|].
  unfold load_iv_data in H.
  destruct (dict_get (iv_files w) (resolve_pricing_date t latest)) as [df|] eqn:Hdf;
    [|done].
  unfold mbind at 1, M_bind at 1, mret at 1, M_ret at 1 in H.
  destruct (collect_pool df (stockPool request) [] ∅) as [sdata sinfo] eqn:Hpool.
  assert (valid_stocks_of df (stockPool request) = fst <$> sdata) as Hvs
    by (unfold valid_stocks_of; by rewrite Hpool).
  cbn [app] in H.
  destruct (length (fst <$> sdata) =? 0)%nat eqn:Hlen; [done|].
  destruct (quote_sizes_spec mdl (feature_cols w) t (make_input t) sdata sinfo
              (fst <$> sdata) (size0 :: sizes) [] 0%nat)
    as (tr' & qs & id' & Hq & Hqs & Htr).
  unfold mbind, M_bind in H. rewrite Hq in H. msimpl.
  injection H as <- <-. cbn.
  exists mdl, latest, rest, df, qs. rewrite Hdf, Hvs.
  repeat split; try done.
  - intros Hnil. by rewrite Hnil in Hlen.
  - by rewrite app_nil_r.
Qed.

Lemma set_boost_fields avg min_size q :
  quote_stocks (set_boost avg min_size q) = quote_stocks q
  /\ basketSize (set_boost avg min_size q) = basketSize q
  /\ couponRate (set_boost avg min_size q) = couponRate q.
Proof. done. Qed.

Lemma filter_size_set_boost avg min_size k (qs : list Quote) :
  filter (fun q => basketSize q = k) (set_boost avg min_size <$> qs)
  = set_boost avg min_size <$> filter (fun q => basketSize q = k) qs.
Proof.
  induction qs as [|q qs IH]; [done|]. cbn [fmap list_fmap].
  destruct (decide (basketSize q = k)) as [Hk|Hk].
  - rewrite !filter_cons_True by done. cbn. by rewrite IH.
  - by rewrite !filter_cons_False by done.
Qed.

Lemma size_average_set_boost avg min_size (qs : list Quote) k :
  size_average fadd fdiv (set_boost avg min_size <$> qs) k = size_average fadd fdiv qs k.
Proof.
  unfold size_average. cbn zeta. rewrite filter_size_set_boost, length_fmap.
  by rewrite <- list_fmap_compose.
Qed.

(** [avg_coupon_by_size] has an entry for every requested size with a quote. *)
Lemma avg_lookup sizes (qs : list Quote) k :
  k ∈ sizes -> filter (fun q => basketSize q = k) qs <> [] ->
  avg_by_size sizes qs !! k = Some (size_average fadd fdiv qs k).
Proof.
  intros Hk Hne. unfold avg_coupon_by_size.
  assert (forall m : gmap Z pyval,
            k ∈ sizes \/ m !! k = Some (size_average fadd fdiv qs k) ->
            fold_left (fun avg size =>
              let size_quotes := filter (fun q => basketSize q = size) qs in
              match size_quotes with
              | [] => avg
              | _ :: _ =>
                  <[size := py_div fdiv (py_sum fadd (couponRate <$> size_quotes))
                                   (PyInt (Z.of_nat (length size_quotes)))]> avg
              end) sizes m !! k = Some (size_average fadd fdiv qs k)) as Hgen.
  { clear Hk. induction sizes as [|s sizes IH]; intros m Hm; cbn [fold_left].
    { destruct Hm as [Hm|Hm]; [by apply elem_of_nil in Hm|done]. }
    apply IH. destruct (decide (s = k)) as [->|Hsk].
    - right. cbn zeta. unfold size_average. cbn zeta.
      destruct (filter (fun q => basketSize q = k) qs) eqn:E; [done|].
      by rewrite lookup_insert_eq.
    - destruct Hm as [Hm|Hm].
      + left. by apply elem_of_cons in Hm as [?|?].
      + right. cbn zeta. destruct (filter (fun q => basketSize q = s) qs); [done|].
        by rewrite lookup_insert_ne. }
  apply Hgen. by left.
Qed.

(** The quotes follow the planned baskets. *)
Lemma quotes_of_planned t pl qs :
  Forall2 (qfor t) pl qs ->
  quote_stocks <$> qs = pl.*2 /\ basketSize <$> qs = pl.*1.
Proof.
  induction 1 as [|kc q pl qs (Hs & Hk & _) _ [IH1 IH2]]; [done|].
  cbn. by rewrite Hs, Hk, IH1, IH2.
Qed.

Lemma filter_size_planned t pl qs k :
  Forall2 (qfor t) pl qs ->
  length (filter (fun q => basketSize q = k) qs)
  = length (filter (fun kc : Z * list string => kc.1 = k) pl).
Proof.
  induction 1 as [|kc q pl qs (_ & Hk & _) _ IH]; [done|].
  destruct (decide (kc.1 = k)) as [E|E].
  - rewrite !filter_cons_True by congruence. cbn. by rewrite IH.
  - by rewrite !filter_cons_False by congruence.
Qed.

End EngineFacts.

(* ================================================================== *)
(** * The properties of the specification *)

Section Properties.
Variables (fadd fsub fmul fdiv : num -> num -> num) (fsqrt : num -> num).
Variable fround : num -> nat -> num.
#[local] Abbreviation cf := (compute_features fadd fsub fmul fdiv fsqrt).
#[local] Abbreviation single := (calculate_fcn fadd fsub fmul fdiv fsqrt).
#[local] Abbreviation batch := (batch_calculate_fcn fadd fsub fmul fdiv fsqrt fround).

(** C8.  The projection of a feature dictionary onto a schema has exactly
    the schema's names as columns, in the schema's order; a schema column
    that the dictionary has keeps its value, one that it lacks is NaN, and
    no name outside the schema survives.  The frame handed to the model by a
    single quote is such a projection onto the persisted feature list. *)
Theorem reindex_projects_onto_schema (features : gmap string pyval) (schema : list string) :
  (reindex features schema).*1 = schema
  /\ (forall i name v,
        schema !! i = Some name -> features !! name = Some v ->
        reindex features schema !! i = Some (name, v))
  /\ (forall i name,
        schema !! i = Some name -> features !! name = None ->
        reindex features schema !! i = Some (name, np_nan))
  /\ (forall name v, (name, v) ∈ reindex features schema -> name ∈ schema)
  /\ (forall w request X,
        Predict X ∈ (single w request).1 -> X.*1 = feature_cols w).
Proof.
  assert (forall fs sch, (reindex fs sch).*1 = sch) as Hnames.
  { intros fs sch. unfold reindex.
    rewrite <- list_fmap_compose. apply list_fmap_id. }
  split; [apply Hnames|]. repeat split.
  - intros i name v Hi Hv. unfold reindex.
    rewrite list_lookup_fmap, Hi. cbn. by rewrite Hv.
  - intros i name Hi Hv. unfold reindex.
    rewrite list_lookup_fmap, Hi. cbn. by rewrite Hv.
  - intros name v Hin. rewrite <- (Hnames features schema).
    apply list_elem_of_fmap. by exists (name, v).
  - intros w request X HX.
    destruct (calculate_fcn_trace fadd fsub fmul fdiv fsqrt w request) as [E|[ivs E]];
      rewrite E in HX.
    + by apply elem_of_nil in HX.
    + apply elem_of_cons in HX as [HX|HX]; [done|].
      apply list_elem_of_singleton in HX. injection HX as ->. apply Hnames.
Qed.

(** C6 (amended).  A request whose knock-in barrier is not below the strike,
    or whose knock-out barrier is not above it, always fails, and nothing is
    computed for it: no features, no prediction.  When the model is loaded
    and at least one pricing date is available, the error raised by both
    endpoints is the validation error (status 400). *)
Theorem invalid_barriers_rejected w symbols pool sizes t :
  (strikePrice t <= knockInPrice t \/ knockOutPrice t <= strikePrice t)%Q ->
  (exists e, single w (FCNReq symbols t) = ([], Raise e))
  /\ (exists e, batch w (BatchReq pool sizes t) = ([], Raise e))
  /\ (model w <> None -> iv_files w <> [] ->
      exists e, is_validation_error e
                /\ single w (FCNReq symbols t) = ([], Raise e)
                /\ batch w (BatchReq pool sizes t) = ([], Raise e)).
Proof.
  intros Hbad. unfold calculate_fcn, batch_calculate_fcn, is_validation_error. cbn.
  destruct (model w) as [mdl|]; [|split; [by eexists|split; [by eexists|done]]].
  pose proof (get_available_dates_nil w) as Hnil.
  destruct (get_available_dates w) as [|latest rest].
  { split; [by eexists|split; [by eexists|]]. intros _ Hne. by destruct Hne, Hnil as [-> _]. }
  destruct (Qle_bool (strikePrice t) (knockInPrice t)) eqn:Hki.
  { split; [by eexists|split; [by eexists|]]. intros _ _. eexists. by split; [left|]. }
  destruct (Qle_bool (knockOutPrice t) (strikePrice t)) eqn:Hko.
  { split; [by eexists|split; [by eexists|]]. intros _ _. eexists. by split; [right|]. }
  exfalso. destruct Hbad as [H|H]; apply Qle_bool_iff in H; congruence.
Qed.


(** C4.  When some member of the basket has a 3-month put implied vol, the
    KI risk score is (worst IV / 43.5) * (KI barrier / 100), the worst IV
    being the largest implied vol present; 43.5 is a constant of the
    builder, so the score is determined by the implied vols of this basket
    and the knock-in barrier of this deal alone. *)
Theorem ki_risk_score_formula input ivs iv0 rest :
  col_values "PUT_IMP_VOL_3M" ivs = iv0 :: rest ->
  let worst_iv := py_max iv0 rest in
  cf input ivs !! "KI_Risk_Score"
  = Some (py_mul fmul (py_div fdiv worst_iv (PyFloat (Fin (435 # 10))))
            (py_div fdiv (PyFloat (Fin (ki_barrier input))) (PyInt 100)))
  /\ worst_iv ∈ iv0 :: rest
  /\ (forall v, v ∈ iv0 :: rest -> py_le v worst_iv = true)
  /\ (forall input' ivs',
        ki_barrier input' = ki_barrier input ->
        col_values "PUT_IMP_VOL_3M" ivs' = col_values "PUT_IMP_VOL_3M" ivs ->
        cf input' ivs' !! "KI_Risk_Score" = cf input ivs !! "KI_Risk_Score").
Proof.
  intros Hvals worst_iv.
  pose proof (col_values_notna "PUT_IMP_VOL_3M" ivs) as Hok. rewrite Hvals in Hok.
  pose proof (py_max_elem iv0 rest) as Hin. fold worst_iv in Hin.
  assert (notna worst_iv = true) as Hw by by rewrite Forall_forall in Hok; apply Hok.
  split; [|split; [done|split]].
  - rewrite cf_ki_risk, Hvals. cbn [agg_or_nan]. fold worst_iv. by rewrite Hw.
  - intros v Hv. apply py_not_lt_le; [done| |by apply py_max_upper].
    by rewrite Forall_forall in Hok; apply Hok.
  - intros input' ivs' Hki Hcols. by rewrite !cf_ki_risk, Hcols, Hki.
Qed.

Lemma classify_risk_cases t :
  let is_low := (knockInPrice t < 60 /\ 85 < strikePrice t)%Q in
  let is_high := (70 < knockInPrice t \/ strikePrice t < 70)%Q in
  (classify_risk t = low <-> is_low)
  /\ (classify_risk t = high <-> ~ is_low /\ is_high)
  /\ (classify_risk t = medium <-> ~ is_low /\ ~ is_high).
Proof.
  unfold classify_risk. cbn zeta. rewrite <- !Qltb_lt.
  destruct (Qltb (knockInPrice t) 60), (Qltb 85 (strikePrice t)),
    (Qltb 70 (knockInPrice t)), (Qltb (strikePrice t) 70); cbn; intuition congruence.
Qed.

(** C9 (amended).  In a batch response every quote carries the risk level
    fixed by the deal terms (low exactly when KI < 60 and strike > 85;
    otherwise high exactly when KI > 70 or strike < 70; otherwise medium) and
    the same distance-to-KI, which is strike minus knock-in barrier rounded
    to one decimal; neither depends on the market data of the basket. *)
Theorem batch_risk_level_from_terms w request tr resp q :
  batch w request = (tr, Return resp) -> q ∈ quotes resp ->
  let t := batch_terms request in
  let is_low := (knockInPrice t < 60 /\ 85 < strikePrice t)%Q in
  let is_high := (70 < knockInPrice t \/ strikePrice t < 70)%Q in
  riskLevel q = classify_risk t
  /\ distanceToKI q
     = py_round fround
         (py_sub fsub (PyFloat (Fin (strikePrice t))) (PyFloat (Fin (knockInPrice t)))) 1
  /\ (classify_risk t = low <-> is_low)
  /\ (classify_risk t = high <-> ~ is_low /\ is_high)
  /\ (classify_risk t = medium <-> ~ is_low /\ ~ is_high).
Proof.
  intros H Hq t is_low is_high.
  apply batch_inv in H
    as (mdl & latest & rest & df & qs & _ & _ & _ & _ & _ & _ & _ & _ & Hqs & Hquotes & _).
  cbn zeta in Hquotes. rewrite Hquotes in Hq.
  apply list_elem_of_fmap in Hq as (q0 & -> & Hq0).
  apply (proj1 (sort_desc_elem _ _ _ _)) in Hq0.
  apply list_elem_of_lookup in Hq0 as [i Hi].
  destruct (Forall2_lookup_r _ _ _ _ _ Hqs Hi) as (kc & _ & (_ & _ & Hrisk & Hdist & _)).
  split; [done|]. split; [done|]. apply classify_risk_cases.
Qed.

(** The ranking inside [compute_features]: the ranked columns follow the
    input slots sorted by 3-month put implied vol in descending order, a slot
    without implied vol counting as negative infinity.  For ranks r1 < r2,
    if the later rank has an implied vol then so has the earlier one, and the
    earlier one's is at least as large.  All the ranked columns of one rank
    come from the same input slot, the order of the slots being a
    permutation of the four slots. *)
Theorem ranked_basket_descending input ivs r1 r2 :
  (r1 < r2 < 4)%nat ->
  let features := cf input ivs in
  let rank_iv r := getitem features ("PUT_IMP_VOL_3M_Rank_" +:+ str_of_nat (r + 1)) in
  (notna (rank_iv r2) = true ->
   notna (rank_iv r1) = true /\ py_ge (rank_iv r1) (rank_iv r2) = true)
  /\ ranking ivs ≡ₚ [0; 1; 2; 3]%nat
  /\ (forall col r,
        col ∈ iv_cols -> (r < 4)%nat ->
        features !! (col +:+ "_Rank_" +:+ str_of_nat (r + 1))
        = Some (slot_val ivs col (nth r (ranking ivs) 0%nat))).
Proof.
  intros Hr features rank_iv.
  assert (forall r, (r < 4)%nat ->
            rank_iv r = slot_val ivs "PUT_IMP_VOL_3M" (nth r (ranking ivs) 0%nat)) as Hrank.
  { intros r Hlt. unfold rank_iv, getitem, features.
    change ("PUT_IMP_VOL_3M_Rank_" +:+ str_of_nat (r + 1))
      with (rank_key ("PUT_IMP_VOL_3M", r)).
    rewrite cf_rank; [done| |done]. apply (bool_decide_unpack _). vm_compute. exact I. }
  split; [|split; [apply ranking_perm|]].
  - rewrite !Hrank by lia. intros H2.
    pose proof (ranking_sorted ivs r1 r2 Hr) as Hs. unfold slot_sort_key in Hs.
    cbn zeta in Hs. rewrite H2 in Hs.
    destruct (slot_iv_cell ivs (nth r2 (ranking ivs) 0%nat)) as [c2 E2].
    destruct (notna (slot_val ivs "PUT_IMP_VOL_3M" (nth r1 (ranking ivs) 0%nat))) eqn:H1.
    + split; [done|]. by apply py_not_lt_le.
    + rewrite E2 in Hs, H2. by destruct c2.
  - intros col r Hc Hlt. apply (cf_rank _ _ _ _ _ _ _ col r Hc Hlt).
Qed.

(** C1 (amended).  When every requested symbol has a 3-month put implied vol
    on the resolved pricing date and no two of these implied vols are equal,
    the single-quote path does not depend on the order of the symbols: for
    any permutation of them it computes the same feature dictionary (raw
    suffix columns and ranked columns alike), hands the same frame to the
    model and returns the same response. *)
Theorem single_quote_order_invariant w t symbols symbols' :
  symbols ≡ₚ symbols' ->
  (forall latest rest df,
     get_available_dates w = latest :: rest ->
     dict_get (iv_files w) (resolve_pricing_date t latest) = Some df ->
     distinct_present df symbols = true) ->
  single w (FCNReq symbols t) = single w (FCNReq symbols' t).
Proof.
  intros Hp Hdist. unfold calculate_fcn. cbn [fcn_terms stocks].
  destruct (model w) as [mdl|]; [|done].
  destruct (get_available_dates w) as [|latest rest]; [done|].
  do 2 (destruct (Qle_bool _ _); [done|]).
  specialize (Hdist latest rest). unfold load_iv_data.
  destruct (dict_get (iv_files w) (resolve_pricing_date t latest)) as [df|]; [|done].
  specialize (Hdist df eq_refl eq_refl). unfold distinct_present in Hdist.
  destruct (mapM (first_row df) symbols) as [rows|] eqn:Hrows; [|done].
  destruct (mapM PUT_IMP_VOL_3M rows) as [ivs|] eqn:Hivs; [|done].
  destruct (mapM_perm _ _ _ _ Hp Hrows) as (rows' & Hrows' & Hperm).
  unfold mbind, M_bind, mret, M_ret.
  rewrite (collect_rows_found df symbols rows [] ∅ Hrows).
  rewrite (collect_rows_found df symbols' rows' [] ∅ Hrows').
  cbn [app].
  by rewrite (sort_and_pad_perm rows rows' ivs Hivs Hdist Hperm), (info_of_perm df _ _ ∅ Hp).
Qed.

Lemma valid_sizes_range request s :
  s ∈ valid_sizes_of request <-> (1 <= s <= 4)%Z /\ s ∈ basketSizes request.
Proof. unfold valid_sizes_of. by rewrite list_elem_of_filter. Qed.

Lemma count_occ_valid_sizes request k :
  (1 <= k <= 4)%Z ->
  count_occ Z.eq_dec (valid_sizes_of request) k = count_occ Z.eq_dec (basketSizes request) k.
Proof.
  intros Hk. unfold valid_sizes_of. induction (basketSizes request) as [|s l IH]; [done|].
  destruct (decide ((1 <= s)%Z /\ (s <= 4)%Z)) as [Hs|Hs].
  - rewrite filter_cons_True by done. cbn. rewrite IH. done.
  - rewrite filter_cons_False by done. cbn. destruct (Z.eq_dec s k); [lia|done].
Qed.

(** C3 (amended).  Let N be the number of distinct pool symbols that have an
    observation on the resolved pricing date.  For every size k between 1
    and 4 the response holds C(N, k) quotes of size k per occurrence of k in
    the requested sizes; the symbols of a quote are k distinct symbols taken
    from those N, in pool order; and when no valid size is requested twice,
    no two quotes have the same symbol set. *)
Theorem batch_quotes_enumerate_combinations w request tr resp :
  batch w request = (tr, Return resp) ->
  exists df,
    dict_get (iv_files w) (pricingDate_out resp) = Some df
    /\ let valid_stocks := valid_stocks_of df (stockPool request) in
       NoDup valid_stocks
       /\ (forall s, s ∈ valid_stocks
                     <-> s ∈ stockPool request /\ is_Some (first_row df s))
       /\ (forall k, (1 <= k <= 4)%Z ->
             length (filter (fun q => basketSize q = k) (quotes resp))
             = (count_occ Z.eq_dec (basketSizes request) k
                * binomial (length valid_stocks) (Z.to_nat k))%nat)
       /\ (forall q, q ∈ quotes resp ->
             quote_stocks q `sublist_of` valid_stocks
             /\ NoDup (quote_stocks q)
             /\ Z.of_nat (length (quote_stocks q)) = basketSize q
             /\ (1 <= basketSize q <= 4)%Z)
       /\ (NoDup (valid_sizes_of request) ->
           forall i j qi qj,
             quotes resp !! i = Some qi -> quotes resp !! j = Some qj ->
             quote_stocks qi ≡ₚ quote_stocks qj -> i = j).
Proof.
  intros H.
  apply batch_inv in H
    as (mdl & latest & rest & df & qs & _ & _ & _ & Hdf & _ & _ & _ & _ & Hqs & Hquotes & _).
  cbn zeta in Hquotes.
  exists df. split; [done|]. cbn zeta.
  destruct (valid_stocks_spec df (stockPool request)) as [Hnd Hvs].
  set (vs := valid_stocks_of df (stockPool request)) in *.
  set (sizes := valid_sizes_of request) in *.
  set (pl := planned vs sizes) in *.
  destruct (quotes_of_planned _ _ _ _ _ Hqs) as [Hstocks Hsizes].
  pose proof (sort_desc_perm py_lt couponRate qs) as Hperm.
  assert (forall q, q ∈ quotes resp ->
            exists c, (basketSize q, c) ∈ pl /\ quote_stocks q = c) as Hplanned.
  { intros q Hq. rewrite Hquotes in Hq.
    apply list_elem_of_fmap in Hq as (q0 & -> & Hq0). rewrite <- Hperm in Hq0.
    apply list_elem_of_lookup in Hq0 as [i Hi].
    destruct (Forall2_lookup_r _ _ _ _ _ Hqs Hi) as ([k c] & Hkc & (Hs & Hk & _)).
    exists c. cbn in Hs, Hk. cbn. rewrite Hk. split; [|done].
    by eapply list_elem_of_lookup_2. }
  split; [done|]. split; [done|]. split; [|split].
  - intros k Hk. rewrite Hquotes, filter_size_set_boost, length_fmap.
    rewrite <- Hperm, (filter_size_planned _ _ _ _ _ _ Hqs).
    unfold pl, sizes. by rewrite planned_count, count_occ_valid_sizes.
  - intros q Hq. destruct (Hplanned q Hq) as (c & Hc & ->).
    apply planned_elem in Hc as (Hk%valid_sizes_range & _ & Hc).
    apply combinations_sublist in Hc as [Hsub Hlen].
    split; [done|]. split; [by eapply sublist_NoDup|]. split; [lia|tauto].
  - intros Hsz i j qi qj Hi Hj Hp.
    assert (NoDup (quote_stocks <$> quotes resp)) as Hnd'.
    { rewrite Hquotes, <- list_fmap_compose.
      rewrite (list_fmap_ext _ quote_stocks _ (fun _ _ _ => eq_refl)).
      rewrite <- Hperm, Hstocks. apply planned_NoDup; [done|done|].
      apply Forall_forall. intros s Hs%valid_sizes_range. lia. }
    assert (quote_stocks qi = quote_stocks qj) as Heq.
    { destruct (Hplanned qi (list_elem_of_lookup_2 _ _ _ Hi)) as (ci & Hci & Ei).
      destruct (Hplanned qj (list_elem_of_lookup_2 _ _ _ Hj)) as (cj & Hcj & Ej).
      apply planned_elem in Hci as (_ & _ & Hci), Hcj as (_ & _ & Hcj).
      apply combinations_sublist in Hci as [Hsi _], Hcj as [Hsj _].
      rewrite Ei, Ej in *. by apply (sublist_perm_eq vs). }
    apply (NoDup_lookup _ i j (quote_stocks qi) Hnd');
      rewrite list_lookup_fmap; [by rewrite Hi|by rewrite Hj, Heq].
Qed.

(** C7 (amended).  The minimum of the valid requested sizes is one of them.
    A quote of a larger size carries the rounded difference, to two
    decimals, between the average coupon rate of the quotes of its size and
    the average coupon rate of the quotes of the minimum size; a quote of
    the minimum size carries no boost. *)
Theorem yield_boost_relative_to_min_size w request tr resp q :
  batch w request = (tr, Return resp) -> q ∈ quotes resp ->
  let sizes := valid_sizes_of request in
  let min_size := min_size_of sizes in
  let average := size_average fadd fdiv (quotes resp) in
  min_size ∈ sizes
  /\ Forall (fun s => (min_size <= s)%Z) sizes
  /\ basketSize q ∈ sizes
  /\ ((min_size < basketSize q)%Z ->
      yieldBoost q
      = Some (py_round fround
                (py_sub fsub (average (basketSize q)) (average min_size)) 2))
  /\ (basketSize q = min_size -> yieldBoost q = None).
Proof.
  intros H Hq sizes min_size average.
  apply batch_inv in H
    as (mdl & latest & rest & df & qs & _ & _ & _ & _ & _ & _ & Hne & _ & Hqs & Hquotes & _).
  cbn zeta in Hquotes. fold sizes min_size in Hquotes, Hne.
  set (vs := valid_stocks_of df (stockPool request)) in *.
  set (sorted := sort_desc py_lt couponRate qs) in *.
  set (avg := avg_coupon_by_size fadd fdiv sizes sorted) in *.
  pose proof (sort_desc_perm py_lt couponRate qs) as Hperm. fold sorted in Hperm.
  assert (min_size ∈ sizes /\ Forall (fun s => (min_size <= s)%Z) sizes) as [Hmin Hle].
  { unfold min_size, min_size_of. destruct sizes as [|s0 ss]; [done|]. apply min_of_spec. }
  assert (forall k c, (k, c) ∈ planned vs sizes ->
            filter (fun q' => basketSize q' = k) sorted <> []) as Hsome.
  { intros k c Hkc. apply list_elem_of_lookup in Hkc as [i Hi].
    destruct (Forall2_lookup_l _ _ _ _ _ Hqs Hi) as (q' & Hq' & (_ & Hk & _)).
    apply list_elem_of_lookup_2 in Hq'. rewrite Hperm in Hq'. cbn in Hk.
    intros Hnil. assert (q' ∈ filter (fun q' => basketSize q' = k) sorted) as Hin
      by by apply list_elem_of_filter.
    rewrite Hnil in Hin. by apply elem_of_nil in Hin. }
  rewrite Hquotes in Hq. apply list_elem_of_fmap in Hq as (q0 & -> & Hq0).
  rewrite <- Hperm in Hq0. apply list_elem_of_lookup in Hq0 as [i Hi].
  destruct (Forall2_lookup_r _ _ _ _ _ Hqs Hi) as ([k c] & Hkc & (_ & Hk & _ & _ & _)).
  cbn in Hk. apply list_elem_of_lookup_2 in Hkc.
  pose proof (planned_elem _ _ _ _ Hkc) as (Hksz & HkN & _).
  change (basketSize (set_yield_boost fsub fround avg min_size q0)) with (basketSize q0).
  rewrite Hk. split; [done|]. split; [done|]. split; [done|].
  unfold set_yield_boost. cbn [yieldBoost]. rewrite Hk. split.
  - intros Hlt. apply Z.ltb_lt in Hlt as Hltb. rewrite Hltb.
    assert (1 <= min_size)%Z as Hpos.
    { pose proof Hmin as Hm. unfold sizes in Hm. apply valid_sizes_range in Hm. lia. }
    destruct (planned_has vs sizes min_size Hmin ltac:(lia)) as [c' Hc'].
    unfold avg. rewrite !(avg_lookup fadd fdiv) by eauto. cbn [default].
    unfold average. rewrite Hquotes.
    by rewrite !(size_average_set_boost fadd fsub fdiv fround).
  - intros ->. rewrite Z.ltb_irrefl. by destruct (avg !! min_size).
Qed.

End Properties.

(* ================================================================== *)
(** * The properties on the sample data *)

(** C5.  A requested symbol without a row makes the single quote raise
    [HTTPException(400, ...)] inside the [try] block, whose last handler
    catches it and raises status 500 in its place; the caller never sees the
    400.  In batch mode such a symbol is left out of the pool, and a pool
    without any row fails the same way, 400 turned into 500.  Without any
    pricing date both endpoints raise 404. *)
Theorem missing_symbol_surfaces_as_500 :
  Exact.calculate_fcn Sample.sample_world (FCNReq ["AMD"; "ZZZ"] Sample.terms)
  = ([], Raise (HTTPException 500 (CalcError (HTTPException 400 (StockNotFound "ZZZ")))))
  /\ Exact.batch_calculate_fcn Sample.sample_world (BatchReq ["ZZZ"] [1%Z] Sample.terms)
     = ([], Raise (HTTPException 500 (BatchCalcError (HTTPException 400 EmptyPool))))
  /\ (fun resp => quote_stocks <$> quotes resp)
       <$> response_of (Exact.batch_calculate_fcn Sample.sample_world
                          (BatchReq ["AMD"; "ZZZ"] [1%Z; 2%Z] Sample.terms))
     = Some [["AMD"]]
  /\ Exact.calculate_fcn Sample.empty_world (FCNReq ["AMD"] Sample.terms)
     = ([], Raise (HTTPException 404 NoIVData))
  /\ Exact.batch_calculate_fcn Sample.empty_world (BatchReq ["AMD"] [1%Z] Sample.terms)
     = ([], Raise (HTTPException 404 NoIVData)).
Proof. repeat split; vm_compute; reflexivity. Qed.

(** The same holds on every snapshot: the first requested symbol without a
    row turns a request that passed every check into status 500. *)
Lemma single_quote_missing_symbol fadd fsub fmul fdiv fsqrt w t mdl latest rest df pre bbg post :
  model w = Some mdl ->
  get_available_dates w = latest :: rest ->
  Qle_bool (strikePrice t) (knockInPrice t) = false ->
  Qle_bool (knockOutPrice t) (strikePrice t) = false ->
  dict_get (iv_files w) (resolve_pricing_date t latest) = Some df ->
  Forall (fun s => is_Some (first_row df s)) pre ->
  first_row df bbg = None ->
  calculate_fcn fadd fsub fmul fdiv fsqrt w (FCNReq (pre ++ bbg :: post) t)
  = ([], Raise (HTTPException 500 (CalcError (HTTPException 400 (StockNotFound bbg))))).
Proof.
  intros Hm Hd Hki Hko Hdf Hpre Hnone. unfold calculate_fcn. cbn [fcn_terms stocks].
  rewrite Hm, Hd, Hki, Hko. unfold load_iv_data. rewrite Hdf.
  unfold mbind, M_bind, mret, M_ret.
  by rewrite (collect_rows_missing df pre bbg post [] ∅ Hpre Hnone).
Qed.

(** C2.  The sort of the endpoint does not put an entry without 3-month put
    implied vol last.  The key of such a row is NaN, which [or 0] leaves as
    it is, NaN being truthy, and which [<] never orders.  Requested as XNAN,
    NVDA the basket stays XNAN, NVDA, and requested as AMD, XNAN, NVDA it
    stays as requested, implied vol 40 ahead of 55: the single quote hands
    the basket to the feature builder with the entry without implied vol
    ahead of one that has it, as the raw columns show, and so does the batch
    quote.  Only the ranked columns, sorted once more with negative infinity
    for the missing value, are in descending order. *)
Theorem missing_iv_not_sorted_last :
  let basket := [Some Sample.xnan; Some Sample.nvda; None; None] in
  let features := Exact.compute_features (make_input Sample.terms) basket in
  PUT_IMP_VOL_3M Sample.xnan = None
  /\ iv_sort_key Sample.xnan = np_nan
  /\ sort_and_pad [Sample.xnan; Sample.nvda] = basket
  /\ sort_and_pad [Sample.amd; Sample.xnan; Sample.nvda]
     = [Some Sample.amd; Some Sample.xnan; Some Sample.nvda; None]
  /\ (Exact.calculate_fcn Sample.nan_world (FCNReq ["XNAN"; "NVDA"] Sample.terms)).1
     = [ComputeFeatures features;
        Predict (reindex features (feature_cols Sample.nan_world))]
  /\ (Exact.batch_calculate_fcn Sample.nan_world
        (BatchReq ["XNAN"; "NVDA"] [2%Z] Sample.terms)).1
     = [ComputeFeatures features;
        Predict (reindex features (feature_cols Sample.nan_world))]
  /\ features !! "PUT_IMP_VOL_3M" = Some np_nan
  /\ features !! "PUT_IMP_VOL_3M_2" = Some (PyFloat (Fin 55))
  /\ features !! "PUT_IMP_VOL_3M_Rank_1" = Some (PyFloat (Fin 55))
  /\ features !! "PUT_IMP_VOL_3M_Rank_2" = Some np_nan.
Proof. repeat split; vm_compute; reflexivity. Qed.

(** C1: AMD and INTC have the same 3-month put implied vol; the stable sort
    keeps them in request order, so the two orders of the same pair give
    different features and different yields. *)
Lemma equal_ivs_keep_request_order :
  let a := Exact.calculate_fcn Sample.sample_world (FCNReq ["AMD"; "INTC"] Sample.terms) in
  let b := Exact.calculate_fcn Sample.sample_world (FCNReq ["INTC"; "AMD"] Sample.terms) in
  ["AMD"; "INTC"] ≡ₚ ["INTC"; "AMD"]
  /\ (fun features => features !! "PX_LAST_Rank_1") <$> features_computed a
     = [Some (PyFloat (Fin 200))]
  /\ (fun features => features !! "PX_LAST_Rank_1") <$> features_computed b
     = [Some (PyFloat (Fin 20))]
  /\ (fun features => features !! "PX_LAST") <$> features_computed a
     = [Some (PyFloat (Fin 200))]
  /\ (fun features => features !! "PX_LAST") <$> features_computed b
     = [Some (PyFloat (Fin 20))]
  /\ annualized_yield <$> response_of a = Some 2%Q
  /\ annualized_yield <$> response_of b = Some (1 # 5)%Q
  /\ a <> b.
Proof.
  cbn zeta. split; [apply perm_swap|].
  repeat (split; [vm_compute; reflexivity|]).
  intros H. apply (f_equal (fun m => annualized_yield <$> response_of m)) in H.
  vm_compute in H. discriminate.
Qed.

(** C3: a size requested twice is quoted twice. *)
Lemma repeated_size_repeats_quotes :
  (fun resp => quote_stocks <$> quotes resp)
    <$> response_of (Exact.batch_calculate_fcn Sample.sample_world
                       (BatchReq ["AMD"] [1%Z; 1%Z] Sample.terms))
  = Some [["AMD"]; ["AMD"]]
  /\ binomial 1 1 = 1%nat.
Proof. split; vm_compute; reflexivity. Qed.

(** C6: without any pricing date, a request with the knock-in barrier above
    the strike gets the 404 of the missing data, not the validation error. *)
Lemma no_dates_precede_validation :
  (strikePrice Sample.bad_terms <= knockInPrice Sample.bad_terms)%Q
  /\ Exact.calculate_fcn Sample.empty_world (FCNReq ["AMD"] Sample.bad_terms)
     = ([], Raise (HTTPException 404 NoIVData))
  /\ Exact.batch_calculate_fcn Sample.empty_world (BatchReq ["AMD"] [1%Z] Sample.bad_terms)
     = ([], Raise (HTTPException 404 NoIVData))
  /\ ~ is_validation_error (HTTPException 404 NoIVData).
Proof.
  split; [by vm_compute|]. do 2 (split; [vm_compute; reflexivity|]).
  by intros [H|H].
Qed.

(** C7: the averages of sizes 2 and 1 differ by -1/15; the boost carried by
    the quotes of size 2 is that difference rounded to two decimals, -0.07. *)
Lemma boost_is_rounded :
  let outcome :=
    Exact.batch_calculate_fcn Sample.sample_world
      (BatchReq ["NVDA"; "TSLA"; "AMD"] [1%Z; 2%Z] Sample.terms) in
  let average k :=
    (fun resp => size_average Exact.fadd Exact.fdiv (quotes resp) k) <$> response_of outcome in
  average 1%Z = Some (PyFloat (Fin (13 # 5)))
  /\ average 2%Z = Some (PyFloat (Fin (38 # 15)))
  /\ py_sub Exact.fsub (PyFloat (Fin (38 # 15))) (PyFloat (Fin (13 # 5)))
     = PyFloat (Fin (-1 # 15))
  /\ (fun resp => (fun q => (basketSize q, yieldBoost q)) <$> quotes resp)
       <$> response_of outcome
     = Some [(1%Z, None); (2%Z, Some (PyFloat (Fin (-7 # 100))));
             (1%Z, None); (1%Z, None);
             (2%Z, Some (PyFloat (Fin (-7 # 100))));
             (2%Z, Some (PyFloat (Fin (-7 # 100))))].
Proof. cbn zeta. repeat split; vm_compute; reflexivity. Qed.

(** C9: with strike 90.57 and knock-in barrier 60 the quote carries 30.6,
    not 30.57. *)
Lemma distance_is_rounded :
  py_sub Exact.fsub (PyFloat (Fin (strikePrice Sample.odd_terms)))
         (PyFloat (Fin (knockInPrice Sample.odd_terms)))
  = PyFloat (Fin (3057 # 100))
  /\ (fun resp => distanceToKI <$> quotes resp)
       <$> response_of (Exact.batch_calculate_fcn Sample.sample_world
                          (BatchReq ["AMD"] [1%Z] Sample.odd_terms))
     = Some [PyFloat (Fin (153 # 5))].
Proof. split; vm_compute; reflexivity. Qed.

(* ================================================================== *)
(** * The theorems at concrete inputs *)

Lemma reindex_projects_onto_schema_witness :
  let features := Exact.compute_features (make_input Sample.terms) [Some Sample.amd] in
  let schema := feature_cols Sample.sample_world in
  schema !! 1%nat = Some "Basket_Size"
  /\ features !! "Basket_Size" = Some (PyInt 1)
  /\ schema !! 2%nat = Some "Not_A_Feature"
  /\ features !! "Not_A_Feature" = None
  /\ (reindex features schema).*1 = schema
  /\ reindex features schema !! 1%nat = Some ("Basket_Size", PyInt 1)
  /\ reindex features schema !! 2%nat = Some ("Not_A_Feature", np_nan).
Proof.
  intros features schema.
  assert (schema !! 1%nat = Some "Basket_Size") as H1 by reflexivity.
  assert (features !! "Basket_Size" = Some (PyInt 1)) as H2 by (vm_compute; reflexivity).
  assert (schema !! 2%nat = Some "Not_A_Feature") as H3 by reflexivity.
  assert (features !! "Not_A_Feature" = None) as H4 by (vm_compute; reflexivity).
  destruct (reindex_projects_onto_schema Exact.fadd Exact.fsub Exact.fmul Exact.fdiv
              Exact.fsqrt features schema) as (Hnames & Hhas & Hlacks & _).
  exact (conj H1 (conj H2 (conj H3 (conj H4 (conj Hnames
           (conj (Hhas 1%nat "Basket_Size" (PyInt 1) H1 H2)
                 (Hlacks 2%nat "Not_A_Feature" H3 H4))))))).
Defined.

Lemma single_quote_order_invariant_witness :
  ["AMD"; "NVDA"] ≡ₚ ["NVDA"; "AMD"]
  /\ distinct_present [Sample.nvda; Sample.tsla; Sample.amd; Sample.intc] ["AMD"; "NVDA"] = true
  /\ Exact.calculate_fcn Sample.sample_world (FCNReq ["AMD"; "NVDA"] Sample.terms)
     = Exact.calculate_fcn Sample.sample_world (FCNReq ["NVDA"; "AMD"] Sample.terms).
Proof.
  split; [apply perm_swap|]. split; [vm_compute; reflexivity|].
  apply (single_quote_order_invariant Exact.fadd Exact.fsub Exact.fmul Exact.fdiv Exact.fsqrt
           Sample.sample_world Sample.terms ["AMD"; "NVDA"] ["NVDA"; "AMD"]).
  - apply perm_swap.
  - intros latest rest df Hdates Hdf.
    vm_compute in Hdates. injection Hdates as <- <-.
    vm_compute in Hdf. injection Hdf as <-.
    vm_compute. reflexivity.
Defined.

Lemma ranked_basket_descending_witness :
  let features :=
    Exact.compute_features (make_input Sample.terms)
      [Some Sample.amd; Some Sample.nvda; None; Some Sample.tsla] in
  let rank_iv r := getitem features ("PUT_IMP_VOL_3M_Rank_" +:+ str_of_nat (r + 1)) in
  (0 < 1 < 4)%nat
  /\ notna (rank_iv 1%nat) = true
  /\ notna (rank_iv 0%nat) = true
  /\ py_ge (rank_iv 0%nat) (rank_iv 1%nat) = true.
Proof.
  intros features rank_iv.
  assert (0 < 1 < 4)%nat as Hr by lia.
  assert (notna (rank_iv 1%nat) = true) as H1 by (vm_compute; reflexivity).
  destruct (ranked_basket_descending Exact.fadd Exact.fsub Exact.fmul Exact.fdiv Exact.fsqrt
              (make_input Sample.terms)
              [Some Sample.amd; Some Sample.nvda; None; Some Sample.tsla]
              0%nat 1%nat Hr) as (Hdesc & _).
  destruct (Hdesc H1) as [H0 Hge]. exact (conj Hr (conj H1 (conj H0 Hge))).
Defined.

Lemma ki_risk_score_formula_witness :
  let input := make_input Sample.terms in
  let ivs := [Some Sample.amd; Some Sample.nvda; None; None] in
  col_values "PUT_IMP_VOL_3M" ivs = [PyFloat (Fin 40); PyFloat (Fin 55)]
  /\ py_max (PyFloat (Fin 40)) [PyFloat (Fin 55)] = PyFloat (Fin 55)
  /\ Exact.compute_features input ivs !! "KI_Risk_Score"
     = Some (py_mul Exact.fmul
               (py_div Exact.fdiv (py_max (PyFloat (Fin 40)) [PyFloat (Fin 55)])
                       (PyFloat (Fin (435 # 10))))
               (py_div Exact.fdiv (PyFloat (Fin (ki_barrier input))) (PyInt 100))).
Proof.
  intros input ivs.
  assert (col_values "PUT_IMP_VOL_3M" ivs = [PyFloat (Fin 40); PyFloat (Fin 55)]) as H
    by reflexivity.
  split; [exact H|]. split; [reflexivity|].
  exact (proj1 (ki_risk_score_formula Exact.fadd Exact.fsub Exact.fmul Exact.fdiv Exact.fsqrt
                  input ivs _ _ H)).
Defined.

Lemma invalid_barriers_rejected_witness :
  (strikePrice Sample.bad_terms <= knockInPrice Sample.bad_terms
   \/ knockOutPrice Sample.bad_terms <= strikePrice Sample.bad_terms)%Q
  /\ exists e,
       is_validation_error e
       /\ Exact.calculate_fcn Sample.sample_world (FCNReq ["AMD"] Sample.bad_terms)
          = ([], Raise e)
       /\ Exact.batch_calculate_fcn Sample.sample_world
            (BatchReq ["AMD"] [1%Z] Sample.bad_terms)
          = ([], Raise e).
Proof.
  assert (strikePrice Sample.bad_terms <= knockInPrice Sample.bad_terms
          \/ knockOutPrice Sample.bad_terms <= strikePrice Sample.bad_terms)%Q as H
    by (left; vm_compute; discriminate).
  split; [exact H|].
  destruct (invalid_barriers_rejected Exact.fadd Exact.fsub Exact.fmul Exact.fdiv Exact.fsqrt
              Exact.fround Sample.sample_world ["AMD"] ["AMD"] [1%Z] Sample.bad_terms H)
    as (_ & _ & Hvalid).
  apply Hvalid; discriminate.
Defined.

(** The batch request of the following lemmas: three symbols with rows, one
    without, sizes 1 and 2. *)
Lemma sample_batch_succeeds :
  exists tr resp,
    Exact.batch_calculate_fcn Sample.sample_world
      (BatchReq ["NVDA"; "TSLA"; "ZZZ"; "AMD"] [1%Z; 2%Z] Sample.terms)
    = (tr, Return resp)
    /\ exists q, q ∈ quotes resp.
Proof.
  assert ((fun resp => length (quotes resp))
            <$> response_of (Exact.batch_calculate_fcn Sample.sample_world
                               (BatchReq ["NVDA"; "TSLA"; "ZZZ"; "AMD"] [1%Z; 2%Z]
                                  Sample.terms))
          = Some 6%nat) as Hlen by (vm_compute; reflexivity).
  destruct (Exact.batch_calculate_fcn Sample.sample_world
              (BatchReq ["NVDA"; "TSLA"; "ZZZ"; "AMD"] [1%Z; 2%Z] Sample.terms))
    as [tr [e|resp]] eqn:H.
  { discriminate Hlen. }
  exists tr, resp. split; [reflexivity|].
  unfold response_of in Hlen. cbn in Hlen.
  destruct (quotes resp) as [|q qs]; [discriminate Hlen|].
  exists q. left.
Defined.

Lemma batch_quotes_enumerate_combinations_witness :
  exists tr resp df,
    Exact.batch_calculate_fcn Sample.sample_world
      (BatchReq ["NVDA"; "TSLA"; "ZZZ"; "AMD"] [1%Z; 2%Z] Sample.terms)
    = (tr, Return resp)
    /\ dict_get (iv_files Sample.sample_world) (pricingDate_out resp) = Some df
    /\ (forall k, (1 <= k <= 4)%Z ->
          length (filter (fun q => basketSize q = k) (quotes resp))
          = (count_occ Z.eq_dec [1%Z; 2%Z] k
             * binomial (length (valid_stocks_of df ["NVDA"; "TSLA"; "ZZZ"; "AMD"]))
                        (Z.to_nat k))%nat).
Proof.
  destruct sample_batch_succeeds as (tr & resp & H & _).
  destruct (batch_quotes_enumerate_combinations Exact.fadd Exact.fsub Exact.fmul Exact.fdiv
              Exact.fsqrt Exact.fround _ _ _ _ H) as (df & Hdf & _ & _ & Hcount & _).
  exists tr, resp, df. exact (conj H (conj Hdf Hcount)).
Defined.

Lemma yield_boost_relative_to_min_size_witness :
  exists tr resp q,
    Exact.batch_calculate_fcn Sample.sample_world
      (BatchReq ["NVDA"; "TSLA"; "ZZZ"; "AMD"] [1%Z; 2%Z] Sample.terms)
    = (tr, Return resp)
    /\ q ∈ quotes resp
    /\ ((1 < basketSize q)%Z ->
        yieldBoost q
        = Some (py_round Exact.fround
                  (py_sub Exact.fsub
                     (size_average Exact.fadd Exact.fdiv (quotes resp) (basketSize q))
                     (size_average Exact.fadd Exact.fdiv (quotes resp) 1%Z)) 2))
    /\ (basketSize q = 1%Z -> yieldBoost q = None).
Proof.
  destruct sample_batch_succeeds as (tr & resp & H & q & Hq).
  destruct (yield_boost_relative_to_min_size Exact.fadd Exact.fsub Exact.fmul Exact.fdiv
              Exact.fsqrt Exact.fround _ _ _ _ q H Hq) as (_ & _ & _ & Hboost & Hnone).
  exists tr, resp, q. exact (conj H (conj Hq (conj Hboost Hnone))).
Defined.

Lemma batch_risk_level_from_terms_witness :
  exists tr resp q,
    Exact.batch_calculate_fcn Sample.sample_world
      (BatchReq ["NVDA"; "TSLA"; "ZZZ"; "AMD"] [1%Z; 2%Z] Sample.terms)
    = (tr, Return resp)
    /\ q ∈ quotes resp
    /\ riskLevel q = classify_risk Sample.terms
    /\ distanceToKI q
       = py_round Exact.fround
           (py_sub Exact.fsub (PyFloat (Fin (strikePrice Sample.terms)))
                   (PyFloat (Fin (knockInPrice Sample.terms)))) 1.
Proof.
  destruct sample_batch_succeeds as (tr & resp & H & q & Hq).
  destruct (batch_risk_level_from_terms Exact.fadd Exact.fsub Exact.fmul Exact.fdiv
              Exact.fsqrt Exact.fround _ _ _ _ q H Hq) as (Hrisk & Hdist & _).
  exists tr, resp, q. exact (conj H (conj Hq (conj Hrisk Hdist))).
Defined.

(* ================================================================== *)
(** * Further facts: the columns of the feature dictionary *)

Lemma write_all_dom {A V : Type} (key : A -> string) (val : gmap string V -> A -> V) l m :
  dom (write_all key val l m) = list_to_set (key <$> l) ∪ dom m.
Proof.
  revert m. induction l as [|a l IH]; intros m.
  { cbn. set_solver. }
  change (write_all key val (a :: l) m) with (write_all key val l (<[key a := val m a]> m)).
  rewrite IH, dom_insert_L. cbn. set_solver.
Qed.

(** The keys of a dictionary after the assignments [ks], last one first. *)
Lemma union_rev (ks : list string) (X : gset string) :
  foldr (fun k Y => {[k]} ∪ Y) X (rev ks) = list_to_set ks ∪ X.
Proof.
  revert X. induction ks as [|k ks IH]; intros X; cbn; [set_solver|].
  rewrite foldr_app. cbn. rewrite IH. set_solver.
Qed.

Lemma union_keys (ks : list string) (X : gset string) :
  foldr (fun k Y => {[k]} ∪ Y) X ks = list_to_set ks ∪ X.
Proof. induction ks as [|k ks IH]; cbn; [set_solver|]. rewrite IH. set_solver. Qed.

Lemma list_to_set_same (l1 l2 : list string) :
  forallb (fun x => bool_decide (x ∈ l2)) l1 && forallb (fun x => bool_decide (x ∈ l1)) l2
  = true ->
  list_to_set (C := gset string) l1 = list_to_set l2.
Proof.
  intros [H1 H2]%andb_true_iff. rewrite forallb_forall in H1, H2.
  apply set_eq. intros x. rewrite !elem_of_list_to_set. split; intros Hx.
  - apply list_elem_of_In, H1 in Hx. by apply bool_decide_eq_true_1 in Hx.
  - apply list_elem_of_In, H2 in Hx. by apply bool_decide_eq_true_1 in Hx.
Qed.

(** The literal keys of a union of singletons. *)
Ltac keys_of t :=
  lazymatch t with
  | {[ ?k ]} ∪ ?r => let l := keys_of r in constr:(k :: l)
  | _ => constr:(@nil string)
  end.

(** Two sets of literal keys joined to the same set are compared by
    evaluation. *)
Ltac same_keys :=
  lazymatch goal with
  | |- ?lhs = list_to_set ?ks ∪ ?X =>
      let l := keys_of lhs in
      change (foldr (fun k Y => {[k]} ∪ Y) X l = list_to_set ks ∪ X);
      rewrite union_keys; f_equal; apply list_to_set_same; vm_compute; reflexivity
  end.

(** Peels the assignments off a dictionary whose keys are asked for. *)
Ltac dom_steps :=
  repeat first
    [ rewrite dom_insert_L
    | match goal with
      | |- context [dom ?f] => is_var f; unfold f
      | |- context [dom (if ?c then _ else _)] => case c
      end ].

Section ColumnFacts.
Variables (fadd fsub fmul fdiv : num -> num -> num) (fsqrt : num -> num).
#[local] Abbreviation cf := (compute_features fadd fsub fmul fdiv fsqrt).
#[local] Abbreviation deal_fs := (deal_features fsub fmul fdiv fsqrt).
#[local] Abbreviation basket_fs := (basket_features fdiv).
#[local] Abbreviation skew_fs := (skew_premium_columns fsub fdiv).
#[local] Abbreviation aggregate_fs := (aggregate_features fadd fsub fdiv).
#[local] Abbreviation risk_fs := (risk_features fadd fsub fmul fdiv fsqrt).

Lemma deal_features_dom input : dom (deal_fs input) = list_to_set deal_keys.
Proof.
  unfold deal_features. repeat name_let. dom_steps. rewrite dom_empty_L.
  rewrite <- (right_id_L ∅ (∪) (list_to_set deal_keys)).
  exact (union_rev deal_keys ∅).
Qed.

Lemma basket_features_dom n m : dom (basket_fs n m) = list_to_set basket_keys ∪ dom m.
Proof.
  unfold basket_features. repeat name_let. dom_steps.
  exact (union_rev basket_keys (dom m)).
Qed.

Lemma raw_columns_dom ivs m :
  dom (raw_columns ivs m) = list_to_set (raw_key <$> raw_slots) ∪ dom m.
Proof. rewrite raw_columns_eq. apply write_all_dom. Qed.

Lemma rank_columns_dom idxs m :
  dom (rank_columns idxs m) = list_to_set (rank_key <$> rank_slots) ∪ dom m.
Proof. rewrite rank_columns_eq. apply write_all_dom. Qed.

Lemma skew_premium_dom m : dom (skew_fs m) = list_to_set skew_keys ∪ dom m.
Proof.
  unfold skew_premium_columns. cbn [fold_left seq max_stocks].
  repeat name_let. dom_steps.
  exact (union_rev skew_keys (dom m)).
Qed.

Lemma skew_premium_rank_dom idxs m :
  dom (skew_premium_rank_columns idxs m) = list_to_set skew_rank_keys ∪ dom m.
Proof.
  unfold skew_premium_rank_columns. cbn [fold_left seq max_stocks].
  repeat name_let. dom_steps.
  exact (union_rev skew_rank_keys (dom m)).
Qed.

Lemma aggregate_features_dom ivs n m :
  dom (aggregate_fs ivs n m) = list_to_set aggregate_keys ∪ dom m.
Proof.
  unfold aggregate_features. repeat name_let. dom_steps.
  exact (union_rev aggregate_keys (dom m)).
Qed.

Lemma risk_features_dom input n m :
  dom (risk_fs input n m) = list_to_set risk_keys ∪ dom m.
Proof.
  unfold risk_features. cbn [fold_left risk_keys]. repeat name_let.
  dom_steps; same_keys.
Qed.

Lemma cf_dom input ivs : dom (cf input ivs) = list_to_set feature_names.
Proof.
  unfold compute_features. cbv zeta.
  rewrite !dom_insert_L, risk_features_dom, aggregate_features_dom, skew_premium_rank_dom,
    skew_premium_dom, rank_columns_dom, raw_columns_dom, basket_features_dom,
    deal_features_dom.
  apply (bool_decide_unpack _). vm_compute. exact I.
Qed.

Lemma feature_names_NoDup : NoDup feature_names.
Proof. apply (bool_decide_unpack _). vm_compute. exact I. Qed.

End ColumnFacts.

(* ================================================================== *)
(** * Further facts: the largest implied vol and the first rank *)

Lemma num_lt_le_trans a b c :
  is_nan a = false -> is_nan b = false -> is_nan c = false ->
  num_ltb a c = true -> num_ltb a b = false -> num_ltb b c = true.
Proof.
  destruct a as [| | |x], b as [| | |y], c as [| | |z]; cbn; try done.
  intros _ _ _ H1%Qltb_lt H2%Qltb_ge. apply Qltb_lt. eapply Qle_lt_trans; eauto.
Qed.

Lemma num_le_lt_trans a b c :
  is_nan a = false -> is_nan b = false -> is_nan c = false ->
  num_ltb a b = true -> num_ltb c b = false -> num_ltb a c = true.
Proof.
  destruct a as [| | |x], b as [| | |y], c as [| | |z]; cbn; try done.
  intros _ _ _ H1%Qltb_lt H2%Qltb_ge. apply Qltb_lt. eapply Qlt_le_trans; eauto.
Qed.

Lemma py_lt_le_trans a b c :
  notna a = true -> notna b = true -> notna c = true ->
  py_lt a c = true -> py_lt a b = false -> py_lt b c = true.
Proof. rewrite !notna_is_nan. apply num_lt_le_trans. Qed.

Lemma py_le_lt_trans a b c :
  notna a = true -> notna b = true -> notna c = true ->
  py_lt a b = true -> py_lt c b = false -> py_lt a c = true.
Proof. rewrite !notna_is_nan. apply num_le_lt_trans. Qed.

Section FirstMax.
Context {A : Type} (key : A -> pyval).
#[local] Abbreviation ok := (fun x : A => notna (key x) = true).

Lemma first_max_elem x xs : first_max key x xs ∈ x :: xs.
Proof.
  revert x. induction xs as [|y xs IH]; intros x; cbn; [set_solver|].
  unfold first_max in *. cbn. destruct (py_lt (key x) (key y)); specialize (IH y) as IHy;
    [set_solver|]. specialize (IH x). set_solver.
Qed.

Lemma first_max_ok x xs : Forall ok (x :: xs) -> ok (first_max key x xs).
Proof.
  intros H. rewrite Forall_forall in H. apply H, first_max_elem.
Qed.

Lemma first_max_upper x xs v :
  Forall ok (x :: xs) -> v ∈ x :: xs -> py_lt (key (first_max key x xs)) (key v) = false.
Proof.
  revert x v. induction xs as [|y xs IH]; intros x v Hok Hv.
  { apply list_elem_of_singleton in Hv as ->. cbn. apply num_ltb_irrefl. }
  apply Forall_cons in Hok as [Hx Hok]. pose proof Hok as Hok'.
  apply Forall_cons in Hok' as [Hy Hxs].
  change (first_max key x (y :: xs))
    with (first_max key (if py_lt (key x) (key y) then y else x) xs).
  destruct (py_lt (key x) (key y)) eqn:E.
  - apply elem_of_cons in Hv as [->|Hv]; [|by apply IH].
    assert (py_lt (key (first_max key y xs)) (key y) = false) as Hm
      by (apply IH; [done|set_solver]).
    destruct (py_lt (key (first_max key y xs)) (key x)) eqn:E'; [|done].
    rewrite (py_le_lt_trans _ (key x) (key y)) in Hm; auto using first_max_ok.
    by apply py_lt_asym.
  - assert (Forall ok (x :: xs)) as Hok2 by by constructor.
    apply elem_of_cons in Hv as [->|[->|Hv]%elem_of_cons].
    + apply IH; [done|set_solver].
    + assert (py_lt (key (first_max key x xs)) (key x) = false) as Hm
        by (apply IH; [done|set_solver]).
      eapply py_ge_trans; [exact Hx|exact Hm|exact E].
    + apply IH; [done|set_solver].
Qed.

(** Started from an element that [y] does not exceed, the scan gives what
    it gives from [y], unless nothing exceeds the start. *)
Lemma first_max_start x y xs :
  ok x -> Forall ok (y :: xs) ->
  py_lt (key x) (key y) = false ->
  first_max key x xs
  = if py_lt (key x) (key (first_max key y xs)) then first_max key y xs else x.
Proof.
  revert x y. induction xs as [|z xs IH]; intros x y Hx Hyxs E.
  { cbn. by rewrite E. }
  apply Forall_cons in Hyxs as [Hy Hzxs]. pose proof Hzxs as Hzxs'.
  apply Forall_cons in Hzxs' as [Hz Hxs].
  change (first_max key x (z :: xs))
    with (first_max key (if py_lt (key x) (key z) then z else x) xs).
  change (first_max key y (z :: xs))
    with (first_max key (if py_lt (key y) (key z) then z else y) xs).
  destruct (py_lt (key x) (key z)) eqn:Exz.
  - rewrite (py_lt_le_trans (key x) (key y) (key z)) by done.
    assert (py_lt (key (first_max key z xs)) (key z) = false) as Hm
      by (apply first_max_upper; [done|set_solver]).
    rewrite (py_le_lt_trans (key x) (key z) (key (first_max key z xs)));
      auto using first_max_ok.
  - destruct (py_lt (key y) (key z)) eqn:Eyz.
    + by apply IH.
    + apply IH; [done|by constructor|done].
Qed.

Lemma stable_sort_desc_head x xs :
  Forall ok (x :: xs) ->
  head (stable_sort_desc py_lt key (x :: xs)) = Some (first_max key x xs).
Proof.
  revert x. induction xs as [|y xs IH]; intros x Hok; [done|].
  apply Forall_cons in Hok as [Hx Hok]. pose proof Hok as Hok'.
  apply Forall_cons in Hok' as [Hy Hxs].
  specialize (IH y Hok).
  change (stable_sort_desc py_lt key (x :: y :: xs))
    with (insert_desc py_lt key x (stable_sort_desc py_lt key (y :: xs))).
  destruct (stable_sort_desc py_lt key (y :: xs)) as [|h t]; [done|].
  cbn in IH. injection IH as ->. cbn [insert_desc head].
  change (first_max key x (y :: xs))
    with (first_max key (if py_lt (key x) (key y) then y else x) xs).
  destruct (py_lt (key x) (key y)) eqn:E.
  - assert (py_lt (key (first_max key y xs)) (key y) = false) as Hm
      by (apply first_max_upper; [done|set_solver]).
    by rewrite (py_le_lt_trans (key x) (key y) (key (first_max key y xs)));
      auto using first_max_ok.
  - rewrite (first_max_start x y xs) by done.
    by destruct (py_lt (key x) (key (first_max key y xs))).
Qed.
(** The descending sort of keys without NaN is stable: it puts the first
    largest element in front. *)
Lemma sort_desc_head x xs :
  Forall ok (x :: xs) ->
  head (sort_desc py_lt key (x :: xs)) = Some (first_max key x xs).
Proof.
  intros Hok. rewrite (sort_desc_stable py_lt key ok); [by apply stable_sort_desc_head| | |done].
  - intros a b _ _. apply py_lt_asym.
  - intros a b c _ Hb _. by apply py_ge_trans.
Qed.
End FirstMax.

Lemma first_max_fmap {A : Type} (key : A -> pyval) x xs :
  key (first_max key x xs) = first_max id (key x) (key <$> xs).
Proof.
  revert x. induction xs as [|y xs IH]; intros x; [done|].
  change (first_max key x (y :: xs))
    with (first_max key (if py_lt (key x) (key y) then y else x) xs).
  change (first_max id (key x) (key <$> y :: xs))
    with (first_max id (if py_lt (key x) (key y) then key y else key x) (key <$> xs)).
  rewrite IH. by destruct (py_lt (key x) (key y)).
Qed.

Lemma py_max_first_max x xs : py_max x xs = first_max id x xs.
Proof. done. Qed.

Lemma slot_val_cons o ivs col i : slot_val (o :: ivs) col (S i) = slot_val ivs col i.
Proof. done. Qed.

Lemma slot_val_beyond ivs col i : (length ivs <= i)%nat -> slot_val ivs col i = np_nan.
Proof. intros H. unfold slot_val. by rewrite lookup_ge_None_2. Qed.

(** The values [col_values] collects are the values of the slots that are
    numbers, in slot order. *)
Lemma col_values_slots col ivs n :
  (length ivs <= n)%nat ->
  col_values col ivs
  = filter (fun v => notna v = true) (slot_val ivs col <$> seq 0 n).
Proof.
  revert n. induction ivs as [|o ivs IH]; intros n Hn.
  - cbn. symmetry. apply filter_none_nil. apply Forall_fmap, Forall_forall.
    intros i _. cbn. by rewrite slot_val_beyond by (cbn; lia).
  - destruct n as [|n]; [cbn in Hn; lia|]. cbn in Hn.
    rewrite <- cons_seq, <- fmap_S_seq, fmap_cons, <- list_fmap_compose.
    rewrite filter_cons.
    rewrite (list_fmap_ext (slot_val (o :: ivs) col ∘ S) (slot_val ivs col) (seq 0 n))
      by done.
    rewrite <- (IH n) by lia.
    unfold col_values at 1. cbn [omap list_omap]. fold (col_values col ivs).
    unfold slot_val at 1. cbn [lookup list_lookup].
    destruct o as [d|]; cbn; [|done].
    destruct (row_get d col) as [v|]; cbn; [|done].
    destruct (notna v) eqn:E; cbn; [|done].
    by destruct (decide (true = true)).
Qed.

Lemma first_max_or_neg_inf (vs : list pyval) (m : pyval) :
  Forall (fun v => exists c, v = cell c) vs ->
  (exists q, m = PyFloat (Fin q)) ->
  first_max id m (or_neg_inf <$> vs)
  = first_max id m (filter (fun v => notna v = true) vs).
Proof.
  intros Hvs. revert m. induction Hvs as [|v vs [c ->] _ IH]; intros m Hm; [done|].
  rewrite fmap_cons, filter_cons.
  change (first_max id m (or_neg_inf (cell c) :: (or_neg_inf <$> vs)))
    with (first_max id (if py_lt m (or_neg_inf (cell c)) then or_neg_inf (cell c) else m)
            (or_neg_inf <$> vs)).
  destruct c as [q|]; cbn [cell or_neg_inf notna np_nan].
  - destruct (decide (true = true)); [|done].
    change (first_max id m (PyFloat (Fin q) :: filter (fun v => notna v = true) vs))
      with (first_max id (if py_lt m (PyFloat (Fin q)) then PyFloat (Fin q) else m)
              (filter (fun v => notna v = true) vs)).
    apply IH. destruct (py_lt m (PyFloat (Fin q))); eauto.
  - destruct (decide (false = true)); [done|].
    destruct Hm as [q ->]. cbn. by apply IH; eauto.
Qed.

(** With [-inf] standing for the missing values, the largest key is the
    largest value that is present, if there is one. *)
Lemma first_max_sentinel (vs : list pyval) k0 ks v0 rest :
  Forall (fun v => exists c, v = cell c) vs ->
  or_neg_inf <$> vs = k0 :: ks ->
  filter (fun v => notna v = true) vs = v0 :: rest ->
  first_max id k0 ks = py_max v0 rest.
Proof.
  intros Hvs. revert k0 ks.
  induction Hvs as [|v vs [c ->] Hvs IH]; intros k0 ks Hk Hf; [done|].
  rewrite fmap_cons in Hk. injection Hk as <- <-.
  rewrite filter_cons in Hf.
  destruct c as [q|]; cbn [cell or_neg_inf notna np_nan] in *.
  - destruct (decide (true = true)); [|done]. injection Hf as <- <-.
    apply first_max_or_neg_inf; eauto.
  - destruct (decide (false = true)); [done|].
    destruct vs as [|v' vs]; [done|].
    rewrite fmap_cons.
    change (first_max id neg_inf (or_neg_inf v' :: (or_neg_inf <$> vs)))
      with (first_max id (if py_lt neg_inf (or_neg_inf v') then or_neg_inf v' else neg_inf)
              (or_neg_inf <$> vs)).
    rewrite <- (IH (or_neg_inf v') (or_neg_inf <$> vs)) by done.
    f_equal. apply Forall_cons in Hvs as [[c' ->] _]. by destruct c'.
Qed.

Lemma slot_val_cell ivs col i : col ∈ iv_cols -> exists c, slot_val ivs col i = cell c.
Proof.
  intros Hc. unfold slot_val.
  destruct (ivs !! i) as [[d|]|]; try by exists None.
  revert col Hc. apply Forall_forall. repeat constructor; cbn; eauto.
Qed.

Lemma slot_sort_key_eq ivs i :
  slot_sort_key ivs i = or_neg_inf (slot_val ivs "PUT_IMP_VOL_3M" i).
Proof. done. Qed.

Lemma iv_in_cols : "PUT_IMP_VOL_3M" ∈ iv_cols.
Proof. apply (bool_decide_unpack _). vm_compute. exact I. Qed.

(** The slot ranked first holds the largest implied vol that is present. *)
Lemma ranking_head_worst ivs v0 rest :
  (length ivs <= 4)%nat ->
  col_values "PUT_IMP_VOL_3M" ivs = v0 :: rest ->
  slot_val ivs "PUT_IMP_VOL_3M" (nth 0 (ranking ivs) 0%nat) = py_max v0 rest.
Proof.
  intros Hlen Hv.
  rewrite (col_values_slots _ _ 4) in Hv by done.
  set (pairs := (fun i => (i, slot_sort_key ivs i)) <$> seq 0 max_stocks).
  assert (Forall (fun p : nat * pyval => notna p.2 = true) pairs) as Hok.
  { apply Forall_fmap, Forall_forall. intros i _. apply slot_sort_key_notna. }
  assert (ranking ivs = fst <$> sort_desc py_lt snd pairs) as Hr by done.
  pose proof (sort_desc_head snd (0%nat, slot_sort_key ivs 0)
                (tail pairs) Hok) as Hh.
  change ((0%nat, slot_sort_key ivs 0) :: tail pairs) with pairs in Hh.
  set (best := first_max snd (0%nat, slot_sort_key ivs 0) (tail pairs)) in *.
  assert (nth 0 (ranking ivs) 0%nat = best.1) as ->.
  { rewrite Hr. destruct (sort_desc py_lt snd pairs) as [|h t]; [done|].
    cbn in Hh. by injection Hh as ->. }
  assert (best ∈ pairs) as Hin by apply (first_max_elem snd).
  apply list_elem_of_fmap in Hin as (i & Hi & _).
  assert (best.2 = py_max v0 rest) as Hb.
  { unfold best. rewrite (first_max_fmap snd).
    apply (first_max_sentinel (slot_val ivs "PUT_IMP_VOL_3M" <$> seq 0 4)); [| |done].
    - apply Forall_fmap, Forall_forall. intros j _. apply slot_val_cell, iv_in_cols.
    - done. }
  rewrite Hi in Hb |- *. cbn in Hb |- *. rewrite slot_sort_key_eq in Hb.
  assert (notna (py_max v0 rest) = true) as Hn.
  { pose proof (py_max_elem v0 rest) as Hel.
    assert (Forall (fun v => notna v = true) (v0 :: rest)) as Hall.
    { rewrite <- Hv. apply Forall_forall. by intros v [? _]%list_elem_of_filter. }
    rewrite Forall_forall in Hall. by apply Hall. }
  destruct (slot_val_cell ivs "PUT_IMP_VOL_3M" i iv_in_cols) as [[q|] Hc];
    rewrite Hc in Hb |- *; cbn in Hb; [done|].
  rewrite <- Hb in Hn. (* the sentinel is a number, but it comes from no value *)
  rewrite <- Hb.
  exfalso.
  assert (py_max v0 rest ∈ v0 :: rest) as Hel by apply py_max_elem.
  rewrite <- Hv, <- Hb in Hel. apply list_elem_of_filter in Hel as [Hna Hel].
  apply list_elem_of_fmap in Hel as (j & Hj & _).
  destruct (slot_val_cell ivs "PUT_IMP_VOL_3M" j iv_in_cols) as [[q|] Hc'];
    rewrite Hc' in Hj; done.
Qed.

Lemma py_min_elem x xs : py_min x xs ∈ x :: xs.
Proof.
  revert x. induction xs as [|y xs IH]; intros x; cbn; [set_solver|].
  unfold py_min in *. cbn. destruct (py_lt y x); [specialize (IH y)|specialize (IH x)];
    set_solver.
Qed.

Lemma py_min_lower x xs v :
  Forall (fun v => notna v = true) (x :: xs) ->
  v ∈ x :: xs -> py_lt v (py_min x xs) = false.
Proof.
  revert x v. induction xs as [|y xs IH]; intros x v Hok Hv.
  { apply list_elem_of_singleton in Hv as ->. apply num_ltb_irrefl. }
  apply Forall_cons in Hok as [Hx Hok]. pose proof Hok as Hok'.
  apply Forall_cons in Hok' as [Hy Hxs].
  change (py_min x (y :: xs)) with (py_min (if py_lt y x then y else x) xs).
  assert (forall z, Forall (fun v => notna v = true) (z :: xs) -> notna (py_min z xs) = true)
    as Hmin.
  { intros z Hz. rewrite Forall_forall in Hz. apply Hz, py_min_elem. }
  destruct (py_lt y x) eqn:E.
  - apply elem_of_cons in Hv as [->|Hv]; [|by apply IH].
    assert (py_lt y (py_min y xs) = false) as Hm by (apply IH; [done|set_solver]).
    destruct (py_lt x (py_min y xs)) eqn:E'; [|done].
    assert (py_lt (py_min y xs) x = false) as Ha by by apply py_lt_asym.
    by rewrite (py_le_lt_trans y x (py_min y xs)) in Hm by auto.
  - assert (Forall (fun v => notna v = true) (x :: xs)) as Hok2 by by constructor.
    apply elem_of_cons in Hv as [->|[->|Hv]%elem_of_cons].
    + apply IH; [done|set_solver].
    + assert (py_lt x (py_min x xs) = false) as Hm by (apply IH; [done|set_solver]).
      eapply py_ge_trans; [exact Hx|exact E|exact Hm].
    + apply IH; [done|set_solver].
Qed.

Section RiskFacts.
Variables (fadd fsub fmul fdiv : num -> num -> num) (fsqrt : num -> num).
#[local] Abbreviation cf := (compute_features fadd fsub fmul fdiv fsqrt).
#[local] Abbreviation before_risk := (features_before_risk fadd fsub fmul fdiv fsqrt).
#[local] Abbreviation aggregate_fs := (aggregate_features fadd fsub fdiv).
#[local] Abbreviation risk_fs := (risk_features fadd fsub fmul fdiv fsqrt).
#[local] Abbreviation sfactor := (size_factor fadd fsub fmul).

Lemma cf_stages input ivs :
  cf input ivs
  = let features :=
      risk_fs input (basket_size_of ivs) (before_risk input ivs) in
    let features :=
      <["Return_Potential" :=
          py_mul fmul (py_div fdiv (PyFloat (Fin (ko_barrier input))) (PyInt 100))
                 (py_div fdiv (PyInt (tenor input)) (PyInt 12))]> features in
    <["No_KO_Basket_Interaction" :=
        py_mul fmul (getitem features "No_KO_Flag")
               (PyInt (Z.of_nat (basket_size_of ivs)))]> features.
Proof. unfold compute_features, features_before_risk, basket_size_of. reflexivity. Qed.

Lemma cf_risk_key input ivs k :
  k ∉ final_keys ->
  cf input ivs !! k = risk_fs input (basket_size_of ivs) (before_risk input ivs) !! k.
Proof.
  intros Hk. unfold final_keys in Hk.
  repeat (apply not_elem_of_cons in Hk as [?%not_eq_sym Hk]).
  rewrite cf_stages. cbv zeta. by do 2 (apply step_ne; [assumption|]).
Qed.

Lemma cf_before_risk input ivs k :
  k ∉ risk_keys ++ final_keys -> cf input ivs !! k = before_risk input ivs !! k.
Proof.
  intros [? ?]%not_elem_of_app. rewrite cf_risk_key by done.
  by apply risk_features_other.
Qed.

Lemma before_risk_rank input ivs col r :
  col ∈ iv_cols -> (r < 4)%nat ->
  before_risk input ivs !! rank_key (col, r)
  = Some (slot_val ivs col (nth r (ranking ivs) 0%nat)).
Proof.
  intros Hc Hr. rewrite <- cf_before_risk; [by apply cf_rank|].
  pose proof (rank_not_later (col, r) (rank_slot_elem _ _ Hc Hr)) as Hk.
  repeat (apply not_elem_of_app in Hk as [? Hk]). by apply not_elem_of_app.
Qed.

(** The aggregates of the 3-month put implied vols. *)
Lemma aggregate_features_iv ivs n m :
  let iv_values := col_values "PUT_IMP_VOL_3M" ivs in
  let fs := aggregate_fs ivs n m in
  fs !! "Basket_Worst_IV" = Some (agg_or_nan py_max iv_values)
  /\ fs !! "Basket_Best_IV" = Some (agg_or_nan py_min iv_values)
  /\ fs !! "Basket_IV_Range"
     = Some (if (2 <=? length iv_values)%nat
             then py_sub fsub (agg_or_nan py_max iv_values) (agg_or_nan py_min iv_values)
             else PyInt 0)
  /\ fs !! "Basket_Avg_IV" = Some (agg_or_nan (np_mean fadd fdiv) iv_values)
  /\ fs !! "IV_HV_Ratio"
     = Some (match iv_values, col_values "VOLATILITY_90D" ivs with
             | _ :: _, _ :: _ =>
                 py_div fdiv (agg_or_nan (np_mean fadd fdiv) iv_values)
                   (agg_or_nan (np_mean fadd fdiv) (col_values "VOLATILITY_90D" ivs))
             | _, _ => np_nan
             end).
Proof.
  cbv zeta. unfold aggregate_features. repeat name_let.
  repeat split; repeat skip_insert; by hit_insert.
Qed.

Lemma not_risk_or_final (k : string) :
  k ∈ aggregate_keys -> k ∉ risk_keys ++ final_keys.
Proof.
  revert k. apply Forall_forall. apply (bool_decide_unpack _). vm_compute. exact I.
Qed.

Lemma cf_aggregate_key input ivs k :
  k ∈ aggregate_keys -> cf input ivs !! k = before_risk input ivs !! k.
Proof. intros Hk. by apply cf_before_risk, not_risk_or_final. Qed.

Lemma risk_features_all_nan input n m k :
  notna (getitem m "Basket_Worst_IV") = false ->
  k ∈ risk_keys -> risk_fs input n m !! k = Some np_nan.
Proof.
  intros H Hk. unfold risk_features. rewrite H. cbn [fold_left risk_keys].
  revert k Hk. apply Forall_forall.
  repeat (apply Forall_cons; split; [repeat skip_insert; by hit_insert|]).
  constructor.
Qed.

Lemma risk_features_sorted input n m :
  notna (getitem m "Basket_Worst_IV") = true ->
  notna (getitem m "PUT_IMP_VOL_3M_Rank_1") = true ->
  risk_fs input n m !! "Risk_Score_Sorted"
  = Some (py_mul fmul
            (py_mul fmul (py_div fdiv (getitem m "PUT_IMP_VOL_3M_Rank_1") mean_rank1_iv)
                    (py_div fdiv (PyFloat (Fin (ki_barrier input))) (PyInt 100)))
            (sfactor n)).
Proof.
  intros H H1. unfold risk_features. rewrite H. repeat name_let.
  hit_insert.
  match goal with |- Some (if _ then _ else ?b) = _ => generalize b; intros other end.
  by rewrite H1.
Qed.

End RiskFacts.

(* ================================================================== *)
(** * Further properties of the feature builder *)

Section FeatureProperties.
Variables (fadd fsub fmul fdiv : num -> num -> num) (fsqrt : num -> num).
#[local] Abbreviation cf := (compute_features fadd fsub fmul fdiv fsqrt).
#[local] Abbreviation before_risk := (features_before_risk fadd fsub fmul fdiv fsqrt).
#[local] Abbreviation sfactor := (size_factor fadd fsub fmul).

Lemma before_risk_iv input ivs :
  let iv_values := col_values "PUT_IMP_VOL_3M" ivs in
  let fs := before_risk input ivs in
  fs !! "Basket_Worst_IV" = Some (agg_or_nan py_max iv_values)
  /\ fs !! "Basket_Best_IV" = Some (agg_or_nan py_min iv_values)
  /\ fs !! "Basket_IV_Range"
     = Some (if (2 <=? length iv_values)%nat
             then py_sub fsub (agg_or_nan py_max iv_values) (agg_or_nan py_min iv_values)
             else PyInt 0)
  /\ fs !! "Basket_Avg_IV" = Some (agg_or_nan (np_mean fadd fdiv) iv_values)
  /\ fs !! "IV_HV_Ratio"
     = Some (match iv_values, col_values "VOLATILITY_90D" ivs with
             | _ :: _, _ :: _ =>
                 py_div fdiv (agg_or_nan (np_mean fadd fdiv) iv_values)
                   (agg_or_nan (np_mean fadd fdiv) (col_values "VOLATILITY_90D" ivs))
             | _, _ => np_nan
             end).
Proof. unfold features_before_risk. cbv zeta. apply aggregate_features_iv. Qed.

Lemma col_values_all_notna col ivs v : v ∈ col_values col ivs -> notna v = true.
Proof.
  pose proof (col_values_notna col ivs) as H. rewrite Forall_forall in H. apply H.
Qed.

(** X1.  Whatever the deal terms and the basket, [compute_features] returns
    a dictionary with the same 159 keys: the keys its blocks assign, none of
    them assigned by two blocks. *)
Theorem feature_columns_fixed input ivs :
  dom (cf input ivs) = list_to_set feature_names
  /\ NoDup feature_names
  /\ length feature_names = 159%nat
  /\ (forall input' ivs', dom (cf input' ivs') = dom (cf input ivs)).
Proof.
  split; [apply cf_dom|]. split; [apply feature_names_NoDup|]. split; [done|].
  intros input' ivs'. by rewrite !cf_dom.
Qed.

(** X2.  For a basket of at most four slots in which some implied vol is
    present, the implied vol of the first rank is the largest implied vol of
    the basket, [Basket_Worst_IV]; the sorted risk score is then computed
    from it with the reference mean 52.4. *)
Theorem first_rank_is_worst_iv input ivs :
  (length ivs <= 4)%nat ->
  col_values "PUT_IMP_VOL_3M" ivs <> [] ->
  let features := cf input ivs in
  let worst_iv := getitem features "Basket_Worst_IV" in
  features !! "PUT_IMP_VOL_3M_Rank_1" = features !! "Basket_Worst_IV"
  /\ notna worst_iv = true
  /\ features !! "Risk_Score_Sorted"
     = Some (py_mul fmul
               (py_mul fmul (py_div fdiv worst_iv (PyFloat (Fin (524 # 10))))
                       (py_div fdiv (PyFloat (Fin (ki_barrier input))) (PyInt 100)))
               (sfactor (basket_size_of ivs))).
Proof.
  intros Hlen Hne. cbv zeta.
  destruct (col_values "PUT_IMP_VOL_3M" ivs) as [|v0 rest] eqn:Hv; [done|].
  destruct (before_risk_iv input ivs) as (Hw & _). rewrite Hv in Hw. cbn in Hw.
  pose proof (before_risk_rank fadd fsub fmul fdiv fsqrt input ivs "PUT_IMP_VOL_3M" 0
                iv_in_cols ltac:(lia)) as Hr.
  rewrite (ranking_head_worst ivs v0 rest) in Hr by done.
  change (rank_key ("PUT_IMP_VOL_3M", 0%nat)) with "PUT_IMP_VOL_3M_Rank_1" in Hr.
  assert (notna (py_max v0 rest) = true) as Hn.
  { apply (col_values_all_notna "PUT_IMP_VOL_3M" ivs). rewrite Hv. apply py_max_elem. }
  assert (cf input ivs !! "Basket_Worst_IV" = Some (py_max v0 rest)) as Hcw.
  { rewrite cf_before_risk; [done|]. apply (bool_decide_unpack _). vm_compute. exact I. }
  assert (cf input ivs !! "PUT_IMP_VOL_3M_Rank_1" = Some (py_max v0 rest)) as Hcr.
  { rewrite cf_before_risk; [done|]. apply (bool_decide_unpack _). vm_compute. exact I. }
  unfold getitem. rewrite Hcw, Hcr. cbn [default]. split; [done|]. split; [done|].
  rewrite cf_risk_key by (apply (bool_decide_unpack _); vm_compute; exact I).
  rewrite risk_features_sorted; unfold getitem; rewrite ?Hw, ?Hr; done.
Qed.

(** X3.  When no member of the basket has a 3-month put implied vol, no
    maximum of an empty list is taken: the worst, best and average implied
    vol and the IV/HV ratio are NaN, the IV range is the integer 0, and all
    nine risk scores are NaN. *)
Theorem no_implied_vol_no_risk_score input ivs :
  col_values "PUT_IMP_VOL_3M" ivs = [] ->
  let features := cf input ivs in
  features !! "Basket_Worst_IV" = Some np_nan
  /\ features !! "Basket_Best_IV" = Some np_nan
  /\ features !! "Basket_Avg_IV" = Some np_nan
  /\ features !! "IV_HV_Ratio" = Some np_nan
  /\ features !! "Basket_IV_Range" = Some (PyInt 0)
  /\ (forall k, k ∈ risk_keys -> features !! k = Some np_nan).
Proof.
  intros Hv. cbv zeta.
  destruct (before_risk_iv input ivs) as (Hw & Hb & Hr & Ha & Hh).
  rewrite Hv in Hw, Hb, Hr, Ha, Hh. cbn in Hw, Hb, Hr, Ha, Hh.
  rewrite !cf_aggregate_key by (apply (bool_decide_unpack _); vm_compute; exact I).
  repeat (split; [done|]).
  intros k Hk. rewrite cf_risk_key.
  - apply risk_features_all_nan; [|done]. unfold getitem. by rewrite Hw.
  - revert k Hk. apply Forall_forall. apply (bool_decide_unpack _). vm_compute. exact I.
Qed.

(** X4.  When some implied vol is present, [Basket_Best_IV] is the smallest
    and [Basket_Worst_IV] the largest of the implied vols present, each one
    of them; the range is their difference when at least two are present
    and the integer 0 for a single one. *)
Theorem basket_iv_extremes input ivs iv0 rest :
  col_values "PUT_IMP_VOL_3M" ivs = iv0 :: rest ->
  let features := cf input ivs in
  let best_iv := py_min iv0 rest in
  let worst_iv := py_max iv0 rest in
  features !! "Basket_Best_IV" = Some best_iv
  /\ features !! "Basket_Worst_IV" = Some worst_iv
  /\ best_iv ∈ iv0 :: rest
  /\ worst_iv ∈ iv0 :: rest
  /\ (forall v, v ∈ iv0 :: rest -> py_le best_iv v = true /\ py_le v worst_iv = true)
  /\ features !! "Basket_IV_Range"
     = Some (match rest with
             | [] => PyInt 0
             | _ :: _ => py_sub fsub worst_iv best_iv
             end).
Proof.
  intros Hv. cbv zeta.
  destruct (before_risk_iv input ivs) as (Hw & Hb & Hr & _).
  rewrite Hv in Hw, Hb, Hr. cbn [agg_or_nan] in Hw, Hb, Hr.
  rewrite !cf_aggregate_key by (apply (bool_decide_unpack _); vm_compute; exact I).
  assert (Forall (fun v => notna v = true) (iv0 :: rest)) as Hall.
  { rewrite <- Hv. apply col_values_notna. }
  split; [done|]. split; [done|]. split; [apply py_min_elem|]. split; [apply py_max_elem|].
  split.
  - intros v Hin. pose proof Hall as Hall'. rewrite Forall_forall in Hall'. split.
    + apply py_not_lt_le; [by apply Hall'|apply Hall', py_min_elem|by apply py_min_lower].
    + apply py_not_lt_le; [apply Hall', py_max_elem|by apply Hall'|by apply py_max_upper].
  - rewrite Hr. by destruct rest.
Qed.

End FeatureProperties.

Section SlotFacts.
Variables (fadd fsub fmul fdiv : num -> num -> num) (fsqrt : num -> num).
#[local] Abbreviation cf := (compute_features fadd fsub fmul fdiv fsqrt).
#[local] Abbreviation skew_fs := (skew_premium_columns fsub fdiv).

Lemma raw_not_later a :
  a ∈ raw_slots ->
  raw_key a ∉ (rank_key <$> rank_slots) ++ skew_keys ++ skew_rank_keys ++ aggregate_keys
              ++ risk_keys ++ final_keys.
Proof.
  revert a. apply Forall_forall. apply (bool_decide_unpack _). vm_compute. exact I.
Qed.

Lemma skew_not_later k :
  k ∈ skew_keys -> k ∉ skew_rank_keys ++ aggregate_keys ++ risk_keys ++ final_keys.
Proof.
  revert k. apply Forall_forall. apply (bool_decide_unpack _). vm_compute. exact I.
Qed.

Lemma raw_not_skew a : a ∈ raw_slots -> raw_key a ∉ skew_keys.
Proof.
  revert a. apply Forall_forall. apply (bool_decide_unpack _). vm_compute. exact I.
Qed.

(** The raw column of a slot in the finished dictionary. *)
Lemma cf_raw input ivs col i :
  col ∈ iv_cols -> (i < 4)%nat ->
  cf input ivs !! (col +:+ suffix i) = Some (slot_val ivs col i).
Proof.
  intros Hc Hi. change (col +:+ suffix i) with (raw_key (i, col)).
  pose proof (raw_not_later (i, col) (raw_slot_elem _ _ Hi Hc)) as Hk.
  repeat (apply not_elem_of_app in Hk as [? Hk]).
  unfold final_keys in Hk. repeat (apply not_elem_of_cons in Hk as [?%not_eq_sym Hk]).
  unfold compute_features. cbv zeta.
  do 2 (apply step_ne; [assumption|]).
  rewrite risk_features_other, aggregate_features_other, skew_premium_rank_other,
    skew_premium_other, rank_columns_other by done.
  by apply raw_columns_lookup, raw_slot_elem.
Qed.

Lemma skew_premium_lookup m i :
  (i < 4)%nat ->
  let put_iv := getitem m ("PUT_IMP_VOL_2M_25D" +:+ suffix i) in
  let call_iv := getitem m ("CALL_IMP_VOL_2M_25D" +:+ suffix i) in
  let hist_iv := getitem m ("VOLATILITY_90D" +:+ suffix i) in
  let iv_3m := getitem m ("PUT_IMP_VOL_3M" +:+ suffix i) in
  skew_fs m !! ("IV_Skew_" +:+ str_of_nat (i + 1))
  = Some (if notna put_iv && notna call_iv then py_sub fsub put_iv call_iv else np_nan)
  /\ skew_fs m !! ("IV_Premium_" +:+ str_of_nat (i + 1))
     = Some (if notna iv_3m && notna hist_iv && negb (py_eq hist_iv (PyInt 0))
             then py_div fdiv (py_sub fsub iv_3m hist_iv) hist_iv else np_nan).
Proof.
  intros Hi. cbv zeta. unfold skew_premium_columns.
  set (step := fun (features : gmap string pyval) (i : nat) => _).
  change (fold_left step (seq 0 max_stocks) m)
    with (step (step (step (step m 0) 1) 2) 3)%nat.
  assert (forall f j k,
            String.eqb ("IV_Skew_" +:+ str_of_nat (j + 1)) k = false ->
            String.eqb ("IV_Premium_" +:+ str_of_nat (j + 1)) k = false ->
            step f j !! k = f !! k) as Hother.
  { intros f j k ?%str_neq ?%str_neq. unfold step. by rewrite !lookup_insert_ne. }
  assert (forall f j k,
            String.eqb ("IV_Skew_" +:+ str_of_nat (j + 1)) k = false ->
            String.eqb ("IV_Premium_" +:+ str_of_nat (j + 1)) k = false ->
            getitem (step f j) k = getitem f k) as Hget.
  { intros f j k ? ?. unfold getitem. by rewrite Hother. }
  assert (forall f j,
            let put_iv := getitem f ("PUT_IMP_VOL_2M_25D" +:+ suffix j) in
            let call_iv := getitem f ("CALL_IMP_VOL_2M_25D" +:+ suffix j) in
            let hist_iv := getitem f ("VOLATILITY_90D" +:+ suffix j) in
            let iv_3m := getitem f ("PUT_IMP_VOL_3M" +:+ suffix j) in
            step f j !! ("IV_Skew_" +:+ str_of_nat (j + 1))
            = Some (if notna put_iv && notna call_iv
                    then py_sub fsub put_iv call_iv else np_nan)
            /\ step f j !! ("IV_Premium_" +:+ str_of_nat (j + 1))
               = Some (if notna iv_3m && notna hist_iv && negb (py_eq hist_iv (PyInt 0))
                       then py_div fdiv (py_sub fsub iv_3m hist_iv) hist_iv else np_nan))
    as Hhere.
  { intros f j. cbv zeta. unfold step. split.
    - rewrite lookup_insert_ne by (intros H; cbn in H; discriminate H). by rewrite lookup_insert_eq.
    - by rewrite lookup_insert_eq. }
  clearbody step.
  destruct i as [|[|[|[|]]]]; try lia;
    (split; rewrite ?Hother by (vm_compute; reflexivity);
     match goal with
     | |- step ?f ?j !! _ = _ =>
         destruct (Hhere f j) as [Hs Hp]; cbv zeta in Hs, Hp;
         rewrite ?Hs, ?Hp, ?Hget by (vm_compute; reflexivity)
     end; done).
Qed.
Lemma cf_skew_key input ivs k :
  k ∈ skew_keys ->
  cf input ivs !! k
  = skew_fs (rank_columns (ranking ivs)
               (raw_columns ivs
                  (basket_features fdiv (basket_size_of ivs)
                     (deal_features fsub fmul fdiv fsqrt input)))) !! k.
Proof.
  intros Hk. pose proof (skew_not_later k Hk) as Hl.
  repeat (apply not_elem_of_app in Hl as [? Hl]).
  unfold final_keys in Hl. repeat (apply not_elem_of_cons in Hl as [?%not_eq_sym Hl]).
  unfold compute_features. cbv zeta.
  do 2 (apply step_ne; [assumption|]).
  rewrite risk_features_other, aggregate_features_other, skew_premium_rank_other by done.
  by rewrite sorted_indices_raw.
Qed.

Lemma ranked_getitem_raw idxs ivs m col i :
  col ∈ iv_cols -> (i < 4)%nat ->
  getitem (rank_columns idxs (raw_columns ivs m)) (col +:+ suffix i) = slot_val ivs col i.
Proof.
  intros Hc Hi. rewrite <- (raw_columns_getitem ivs m col i) by done.
  unfold getitem. f_equal. apply rank_columns_other.
  apply (raw_not_rank (i, col)). by apply raw_slot_elem.
Qed.

Lemma skew_key_elem i :
  (i < 4)%nat ->
  "IV_Skew_" +:+ str_of_nat (i + 1) ∈ skew_keys
  /\ "IV_Premium_" +:+ str_of_nat (i + 1) ∈ skew_keys.
Proof.
  intros Hi. destruct i as [|[|[|[|]]]]; try lia;
    split; apply (bool_decide_unpack _); vm_compute; exact I.
Qed.

Lemma slot_val_empty ivs col i : empty_slot ivs i -> slot_val ivs col i = np_nan.
Proof. unfold slot_val. by intros [-> | ->]. Qed.

End SlotFacts.

Section SlotProperties.
Variables (fadd fsub fmul fdiv : num -> num -> num) (fsqrt : num -> num).
#[local] Abbreviation cf := (compute_features fadd fsub fmul fdiv fsqrt).

(** X5.  The skew and the premium of slot [i] are computed from the raw
    values of that slot alone: the skew is the 25-delta put vol minus the
    call vol when both are present, the premium is (IV - HV) / HV when both
    are present and HV is not zero, and each is NaN otherwise, so that
    nothing is divided by zero.  A slot without a row has NaN in all its raw
    columns, in its skew and in its premium. *)
Theorem skew_and_premium_of_slot input ivs i :
  (i < 4)%nat ->
  let features := cf input ivs in
  let put_iv := slot_val ivs "PUT_IMP_VOL_2M_25D" i in
  let call_iv := slot_val ivs "CALL_IMP_VOL_2M_25D" i in
  let hist_iv := slot_val ivs "VOLATILITY_90D" i in
  let iv_3m := slot_val ivs "PUT_IMP_VOL_3M" i in
  let skew := features !! ("IV_Skew_" +:+ str_of_nat (i + 1)) in
  let premium := features !! ("IV_Premium_" +:+ str_of_nat (i + 1)) in
  skew = Some (if notna put_iv && notna call_iv then py_sub fsub put_iv call_iv else np_nan)
  /\ premium
     = Some (if notna iv_3m && notna hist_iv && negb (py_eq hist_iv (PyInt 0))
             then py_div fdiv (py_sub fsub iv_3m hist_iv) hist_iv else np_nan)
  /\ (py_eq hist_iv (PyInt 0) = true -> premium = Some np_nan)
  /\ (forall col, col ∈ iv_cols -> features !! (col +:+ suffix i) = Some (slot_val ivs col i))
  /\ (empty_slot ivs i ->
      skew = Some np_nan /\ premium = Some np_nan
      /\ forall col, col ∈ iv_cols -> features !! (col +:+ suffix i) = Some np_nan).
Proof.
  intros Hi. cbv zeta.
  destruct (skew_key_elem i Hi) as [Hks Hkp].
  rewrite !cf_skew_key by done.
  match goal with
  | |- context [skew_premium_columns _ _ ?m] =>
      destruct (skew_premium_lookup fsub fdiv m i Hi) as [Hs Hp]
  end.
  cbv zeta in Hs, Hp.
  rewrite !ranked_getitem_raw in Hs, Hp
    by (first [lia | apply (bool_decide_unpack _); vm_compute; exact I]).
  rewrite Hs, Hp.
  split; [done|]. split; [done|]. split.
  { intros ->. by rewrite andb_false_r. }
  split; [intros col Hc; by apply cf_raw|].
  intros He. rewrite !(slot_val_empty ivs _ i He). cbn.
  split; [done|]. split; [done|].
  intros col Hc. rewrite cf_raw by done. by rewrite slot_val_empty.
Qed.

End SlotProperties.

(* ================================================================== *)
(** * Further facts: the handlers, step by step *)

Lemma dict_get_set {V : Type} (k k' : string) (v : V) (d : list (string * V)) :
  dict_get (dict_set k v d) k' = if String.eqb k k' then Some v else dict_get d k'.
Proof.
  induction d as [|[k0 v0] d IH]; cbn.
  { by destruct (String.eqb k k'). }
  destruct (String.eqb k0 k) eqn:E0; cbn.
  - apply String.eqb_eq in E0 as ->. by destruct (String.eqb k k').
  - rewrite IH. destruct (String.eqb k0 k') eqn:E1; [|done].
    apply String.eqb_eq in E1 as ->. by rewrite String.eqb_sym, E0.
Qed.

Lemma dict_get_keys {V : Type} (d : list (string * V)) (k : string) :
  is_Some (dict_get d k) <-> k ∈ d.*1.
Proof.
  induction d as [|[k0 v0] d IH]; cbn.
  { split; [by intros [? ?]|by intros ?%elem_of_nil]. }
  destruct (String.eqb k0 k) eqn:E.
  - apply String.eqb_eq in E as ->. split; [set_solver|by eexists].
  - apply str_neq in E. rewrite IH. set_solver.
Qed.

(** What the loop over the pool has stored for every symbol. *)
Lemma collect_pool_get df pool sdata sinfo s :
  (forall s, sinfo !! s = summary_of <$> dict_get sdata s) ->
  (forall s r, dict_get sdata s = Some r -> first_row df s = Some r) ->
  let out := collect_pool df pool sdata sinfo in
  out.2 !! s = summary_of <$> dict_get out.1 s
  /\ (forall r, dict_get out.1 s = Some r -> first_row df s = Some r).
Proof.
  revert sdata sinfo. induction pool as [|bbg pool IH]; intros sdata sinfo Hinfo Hrow.
  { cbn. split; [apply Hinfo|apply Hrow]. }
  cbn [collect_pool]. destruct (stock_data df bbg) as [|r rows] eqn:E; [by apply IH|].
  apply IH.
  - intros s'. rewrite dict_get_set. destruct (String.eqb bbg s') eqn:E'.
    + apply String.eqb_eq in E' as ->. by rewrite lookup_insert_eq.
    + apply str_neq in E'. by rewrite lookup_insert_ne.
  - intros s' r'. rewrite dict_get_set. destruct (String.eqb bbg s') eqn:E'; [|apply Hrow].
    apply String.eqb_eq in E' as ->. intros [= <-]. unfold first_row. by rewrite E.
Qed.

Lemma collect_pool_rows df pool s :
  let out := collect_pool df pool [] ∅ in
  s ∈ out.1.*1 ->
  exists r, first_row df s = Some r
            /\ dict_get out.1 s = Some r /\ out.2 !! s = Some (summary_of r).
Proof.
  intros out Hs. apply dict_get_keys in Hs as [r Hr].
  destruct (collect_pool_get df pool [] ∅ s) as [Hinfo Hrow]; [done|done|].
  exists r. fold out in Hinfo, Hrow. rewrite Hinfo, Hr. split; [by apply Hrow|done].
Qed.

Section RunFacts.
Variables (fadd fsub fmul fdiv : num -> num -> num) (fsqrt : num -> num).
Variable fround : num -> nat -> num.
#[local] Abbreviation cf := (compute_features fadd fsub fmul fdiv fsqrt).
#[local] Abbreviation single := (calculate_fcn fadd fsub fmul fdiv fsqrt).
#[local] Abbreviation batch := (batch_calculate_fcn fadd fsub fmul fdiv fsqrt fround).
#[local] Abbreviation qcombo := (quote_combo fadd fsub fmul fdiv fsqrt fround).
#[local] Abbreviation qcombos := (quote_combos fadd fsub fmul fdiv fsqrt fround).
#[local] Abbreviation qsizes := (quote_sizes fadd fsub fmul fdiv fsqrt fround).
#[local] Abbreviation made := (made_quote fadd fsub fmul fdiv fsqrt fround).
#[local] Abbreviation mades := (made_quotes fadd fsub fmul fdiv fsqrt fround).
#[local] Abbreviation events := (made_events fadd fsub fmul fdiv fsqrt).
#[local] Abbreviation set_boost := (set_yield_boost fsub fround).
#[local] Abbreviation response := (batch_response fadd fsub fmul fdiv fsqrt fround).

Lemma quote_combo_made mdl columns t base sdata sinfo k id combo :
  qcombo mdl columns t base sdata sinfo k id combo
  = (events columns base sdata [(k, combo)],
     Return (made mdl columns t base sdata sinfo (k, combo) id)).
Proof. reflexivity. Qed.

Lemma made_quotes_cons mdl columns t base sdata sinfo kc pl id :
  mades mdl columns t base sdata sinfo (kc :: pl) id
  = made mdl columns t base sdata sinfo kc id
    :: mades mdl columns t base sdata sinfo pl (id + 1).
Proof.
  unfold made_quotes. cbn. rewrite Nat.add_0_r. f_equal.
  apply imap_ext. intros n x _. cbn. f_equal. lia.
Qed.

Lemma made_quotes_app mdl columns t base sdata sinfo pl1 pl2 id :
  mades mdl columns t base sdata sinfo (pl1 ++ pl2) id
  = mades mdl columns t base sdata sinfo pl1 id
    ++ mades mdl columns t base sdata sinfo pl2 (id + length pl1).
Proof.
  unfold made_quotes. rewrite imap_app. f_equal.
  apply imap_ext. intros n x _. cbn. f_equal. lia.
Qed.

Lemma made_quotes_length mdl columns t base sdata sinfo pl id :
  length (mades mdl columns t base sdata sinfo pl id) = length pl.
Proof. apply length_imap. Qed.

Lemma made_events_app columns base sdata pl1 pl2 :
  events columns base sdata (pl1 ++ pl2)
  = events columns base sdata pl1 ++ events columns base sdata pl2.
Proof. unfold made_events. apply bind_app. Qed.

Lemma quote_combos_made mdl columns t base sdata sinfo k combos quotes id :
  let pl := (fun combo => (k, combo)) <$> combos in
  qcombos mdl columns t base sdata sinfo k combos quotes id
  = (events columns base sdata pl,
     Return (quotes ++ mades mdl columns t base sdata sinfo pl id,
             (id + length combos)%nat)).
Proof.
  revert quotes id. induction combos as [|combo rest IH]; intros quotes id.
  { cbn. msimpl. by rewrite app_nil_r, Nat.add_0_r. }
  cbn [quote_combos]. rewrite quote_combo_made.
  unfold mbind at 1, M_bind at 1. rewrite IH. cbn zeta. rewrite fmap_cons.
  rewrite made_quotes_cons, <- app_assoc. cbn [app].
  change (events columns base sdata ((k, combo) :: ((fun combo => (k, combo)) <$> rest)))
    with (events columns base sdata [(k, combo)]
          ++ events columns base sdata ((fun combo => (k, combo)) <$> rest)).
  do 3 f_equal. cbn. lia.
Qed.

Lemma quote_sizes_made mdl columns t base sdata sinfo vs sizes quotes id :
  let pl := planned vs sizes in
  qsizes mdl columns t base sdata sinfo vs sizes quotes id
  = (events columns base sdata pl,
     Return (quotes ++ mades mdl columns t base sdata sinfo pl id, (id + length pl)%nat)).
Proof.
  revert quotes id. induction sizes as [|k rest IH]; intros quotes id.
  { cbn. msimpl. by rewrite app_nil_r, Nat.add_0_r. }
  cbn zeta. cbn [quote_sizes]. unfold planned. cbn [mbind list_bind]. fold (planned vs rest).
  destruct (Z.of_nat (length vs) <? k)%Z.
  { cbn [app]. apply IH. }
  rewrite quote_combos_made. unfold mbind at 1, M_bind at 1. rewrite IH. cbn zeta.
  rewrite made_quotes_app, made_events_app, <- app_assoc, length_app, !length_fmap.
  do 3 f_equal. lia.
Qed.

(** A batch request that passes every check returns [batch_response], and
    computes the features of every planned basket, in order. *)
Lemma batch_run w request mdl latest rest df :
  let t := batch_terms request in
  let pricing_date := resolve_pricing_date t latest in
  model w = Some mdl ->
  get_available_dates w = latest :: rest ->
  Qle_bool (strikePrice t) (knockInPrice t) = false ->
  Qle_bool (knockOutPrice t) (strikePrice t) = false ->
  valid_sizes_of request <> [] ->
  dict_get (iv_files w) pricing_date = Some df ->
  valid_stocks_of df (stockPool request) <> [] ->
  batch w request
  = (events (feature_cols w) (make_input t) (collect_pool df (stockPool request) [] ∅).1
       (planned (valid_stocks_of df (stockPool request)) (valid_sizes_of request)),
     Return (response mdl (feature_cols w) request pricing_date df)).
Proof.
  intros t pricing_date Hm Hd Hki Hko Hsz Hdf Hvs.
  unfold batch_calculate_fcn. fold t. rewrite Hm, Hd, Hki, Hko.
  fold (valid_sizes_of request).
  destruct (valid_sizes_of request) as [|size0 sizes] eqn:Hsizes; [done|].
  unfold load_iv_data. fold pricing_date. rewrite Hdf.
  unfold mbind at 1, M_bind at 1, mret at 1, M_ret at 1.
  unfold batch_response. fold t. rewrite Hsizes.
  unfold valid_stocks_of in Hvs |- *.
  destruct (collect_pool df (stockPool request) [] ∅) as [sdata sinfo] eqn:Hpool.
  cbn [fst snd] in Hvs |- *.
  destruct (length (fst <$> sdata) =? 0)%nat eqn:Hlen.
  { apply Nat.eqb_eq in Hlen. by destruct (fst <$> sdata). }
  unfold mbind, M_bind. rewrite quote_sizes_made. msimpl. by rewrite app_nil_r.
Qed.

(** Conversely, a batch request that returns has passed every check. *)
Lemma batch_returned w request tr resp :
  batch w request = (tr, Return resp) ->
  let t := batch_terms request in
  exists mdl latest rest df,
    model w = Some mdl
    /\ get_available_dates w = latest :: rest
    /\ Qle_bool (strikePrice t) (knockInPrice t) = false
    /\ Qle_bool (knockOutPrice t) (strikePrice t) = false
    /\ valid_sizes_of request <> []
    /\ dict_get (iv_files w) (resolve_pricing_date t latest) = Some df
    /\ valid_stocks_of df (stockPool request) <> []
    /\ resp = response mdl (feature_cols w) request (resolve_pricing_date t latest) df
    /\ tr = events (feature_cols w) (make_input t)
              (collect_pool df (stockPool request) [] ∅).1
              (planned (valid_stocks_of df (stockPool request)) (valid_sizes_of request)).
Proof.
  intros H t.
  destruct (batch_inv fadd fsub fmul fdiv fsqrt fround w request tr resp H)
    as (mdl & latest & rest & df & qs & Hm & Hd & Hpd & Hdf & Hki & Hko & Hsz & Hvs & _).
  fold t in Hpd, Hki, Hko. rewrite Hpd in Hdf.
  exists mdl, latest, rest, df.
  rewrite (batch_run w request mdl latest rest df) in H by done.
  injection H as <- <-. by repeat split.
Qed.

End RunFacts.

Lemma Qle_bool_false (a b : Q) : Qle_bool a b = false <-> (b < a)%Q.
Proof.
  split.
  - intros H. apply Qnot_le_lt. intros Hle%Qle_bool_iff. congruence.
  - intros H. destruct (Qle_bool a b) eqn:E; [|done].
    apply Qle_bool_iff in E. by apply Qlt_not_le in H.
Qed.

Lemma info_of_lookup df symbols info s :
  info_of df symbols info !! s
  = match (if bool_decide (s ∈ symbols) then first_row df s else None) with
    | Some r => Some (summary_of r)
    | None => info !! s
    end.
Proof.
  revert info. induction symbols as [|bbg rest IH]; intros info; [done|].
  change (info_of df (bbg :: rest) info)
    with (info_of df rest (match first_row df bbg with
                           | Some r => <[bbg := summary_of r]> info
                           | None => info
                           end)).
  rewrite IH.
  destruct (decide (s = bbg)) as [->|Hne].
  - rewrite (bool_decide_eq_true_2 (bbg ∈ bbg :: rest)) by set_solver.
    destruct (first_row df bbg) as [r|] eqn:E.
    + rewrite lookup_insert_eq. by destruct (bool_decide _).
    + by destruct (bool_decide _).
  - assert (bool_decide (s ∈ bbg :: rest) = bool_decide (s ∈ rest)) as ->.
    { apply bool_decide_ext. set_solver. }
    destruct (bool_decide (s ∈ rest)), (first_row df s), (first_row df bbg);
      try done; by rewrite lookup_insert_ne.
Qed.


(** The rows of a basket, read from the dictionary of the pool. *)
Lemma pool_rows_of_combo df (sdata : list (string * row)) combo :
  (forall s, s ∈ combo ->
     exists r, first_row df s = Some r /\ dict_get sdata s = Some r) ->
  mapM (first_row df) combo = Some (omap (dict_get sdata) combo).
Proof.
  induction combo as [|s combo IH]; intros H; [done|].
  destruct (H s ltac:(set_solver)) as (r & Hf & Hg).
  cbn. rewrite Hf, Hg. cbn. rewrite IH by (intros ? ?; apply H; set_solver). done.
Qed.

Section SingleFacts.
Variables (fadd fsub fmul fdiv : num -> num -> num) (fsqrt : num -> num).
Variable fround : num -> nat -> num.
#[local] Abbreviation cf := (compute_features fadd fsub fmul fdiv fsqrt).
#[local] Abbreviation single := (calculate_fcn fadd fsub fmul fdiv fsqrt).
#[local] Abbreviation predicted_by := (predicted fadd fsub fmul fdiv fsqrt).
#[local] Abbreviation made := (made_quote fadd fsub fmul fdiv fsqrt fround).
#[local] Abbreviation mades := (made_quotes fadd fsub fmul fdiv fsqrt fround).
#[local] Abbreviation set_boost := (set_yield_boost fsub fround).
#[local] Abbreviation response := (batch_response fadd fsub fmul fdiv fsqrt fround).

(** A single quote that passes every check. *)
Lemma single_run w request mdl latest rest df rows :
  let t := fcn_terms request in
  let pricing_date := resolve_pricing_date t latest in
  let features := cf (make_input t) (sort_and_pad rows) in
  model w = Some mdl ->
  get_available_dates w = latest :: rest ->
  Qle_bool (strikePrice t) (knockInPrice t) = false ->
  Qle_bool (knockOutPrice t) (strikePrice t) = false ->
  dict_get (iv_files w) pricing_date = Some df ->
  mapM (first_row df) (stocks request) = Some rows ->
  single w request
  = ([ComputeFeatures features; Predict (reindex features (feature_cols w))],
     Return {| annualized_yield :=
                 predicted_by mdl (feature_cols w) (make_input t) (sort_and_pad rows);
               calibrated_yield :=
                 Some (predicted_by mdl (feature_cols w) (make_input t) (sort_and_pad rows));
               input_params := echo_params t;
               cost_pct := customFeeRate t;
               pricing_date_used := pricing_date;
               stock_info_out := info_of df (stocks request) ∅ |}).
Proof.
  intros t pricing_date features Hm Hd Hki Hko Hdf Hrows.
  unfold calculate_fcn. fold t. rewrite Hm, Hd, Hki, Hko.
  unfold load_iv_data. fold pricing_date. rewrite Hdf.
  unfold mbind at 1, M_bind at 1, mret at 1, M_ret at 1.
  rewrite (collect_rows_found df (stocks request) rows [] ∅ Hrows).
  reflexivity.
Qed.

Lemma single_returned w request tr resp :
  single w request = (tr, Return resp) ->
  let t := fcn_terms request in
  exists mdl latest rest df rows,
    model w = Some mdl
    /\ get_available_dates w = latest :: rest
    /\ Qle_bool (strikePrice t) (knockInPrice t) = false
    /\ Qle_bool (knockOutPrice t) (strikePrice t) = false
    /\ dict_get (iv_files w) (resolve_pricing_date t latest) = Some df
    /\ mapM (first_row df) (stocks request) = Some rows.
Proof.
  intros H t. unfold calculate_fcn in H. fold t in H.
  destruct (model w) as [mdl|]; [|done].
  destruct (get_available_dates w) as [|latest rest]; [done|].
  destruct (Qle_bool (strikePrice t) (knockInPrice t)) eqn:Hki; [done|].
  destruct (Qle_bool (knockOutPrice t) (strikePrice t)) eqn:Hko; [done|].
  unfold load_iv_data in H.
  destruct (dict_get (iv_files w) (resolve_pricing_date t latest)) as [df|] eqn:Hdf;
    [|done].
  destruct (mapM (first_row df) (stocks request)) as [rows|] eqn:Hrows.
  { by exists mdl, latest, rest, df, rows. }
  exfalso.
  assert (exists pre bbg post,
            stocks request = pre ++ bbg :: post
            /\ Forall (fun s => is_Some (first_row df s)) pre
            /\ first_row df bbg = None) as (pre & bbg & post & Hs & Hpre & Hbbg).
  { clear H. induction (stocks request) as [|s l IH]; [done|].
    cbn in Hrows. destruct (first_row df s) as [r|] eqn:E.
    - destruct (mapM (first_row df) l) as [rs|]; [done|].
      destruct IH as (pre & bbg & post & -> & Hpre & Hbbg); [done|].
      exists (s :: pre), bbg, post. split; [done|]. split; [|done].
      constructor; [by rewrite E|done].
    - by exists [], s, l. }
  unfold mbind at 1, M_bind at 1, mret at 1, M_ret at 1 in H.
  rewrite Hs, (collect_rows_missing df pre bbg post [] ∅ Hpre Hbbg) in H.
  by msimpl.
Qed.

Lemma set_boost_other_fields avg min_size q :
  quote_ident (set_boost avg min_size q) = quote_ident q
  /\ stockInfo (set_boost avg min_size q) = stockInfo q
  /\ maxIV (set_boost avg min_size q) = maxIV q
  /\ distanceToKI (set_boost avg min_size q) = distanceToKI q
  /\ riskLevel (set_boost avg min_size q) = riskLevel q.
Proof. done. Qed.

(** Every quote of the response is the quote made for a planned basket,
    with its boost. *)
Lemma response_quote mdl columns request pricing_date df q :
  q ∈ quotes (response mdl columns request pricing_date df) ->
  let t := batch_terms request in
  let pool := collect_pool df (stockPool request) [] ∅ in
  exists avg min_size n kc,
    planned (valid_stocks_of df (stockPool request)) (valid_sizes_of request) !! n = Some kc
    /\ q = set_boost avg min_size
             (made mdl columns t (make_input t) pool.1 pool.2 kc n).
Proof.
  intros Hq t pool. unfold batch_response in Hq. cbn [quotes] in Hq.
  apply list_elem_of_fmap in Hq as (q0 & -> & Hq0).
  apply (proj1 (sort_desc_elem _ _ _ _)) in Hq0.
  unfold made_quotes in Hq0. apply elem_of_lookup_imap in Hq0 as (n & kc & -> & Hkc).
  by eexists _, _, n, kc.
Qed.

Lemma response_quotes_perm mdl columns request pricing_date df :
  let t := batch_terms request in
  let pool := collect_pool df (stockPool request) [] ∅ in
  exists avg min_size,
    quotes (response mdl columns request pricing_date df)
    ≡ₚ set_boost avg min_size
         <$> mades mdl columns t (make_input t) pool.1 pool.2
               (planned (valid_stocks_of df (stockPool request)) (valid_sizes_of request)) 0.
Proof.
  intros t pool. unfold batch_response. cbn [quotes]. do 2 eexists.
  apply fmap_Permutation. symmetry. apply sort_desc_perm.
Qed.

End SingleFacts.

(* ================================================================== *)
(** * Further properties of the two quoting endpoints *)

Lemma str_of_nat_inj (a b : nat) : str_of_nat a = str_of_nat b -> a = b.
Proof.
  unfold str_of_nat. intros H. apply Unsigned.to_uint_inj.
  apply (f_equal NilEmpty.uint_of_string) in H. rewrite !NilEmpty.usu in H.
  by injection H.
Qed.

Lemma append_inj_r (p a b : string) : p +:+ a = p +:+ b -> a = b.
Proof. induction p as [|c p IH]; cbn; [done|]. intros [= H]. by apply IH. Qed.



Section QuoteProperties.
Variables (fadd fsub fmul fdiv : num -> num -> num) (fsqrt : num -> num).
Variable fround : num -> nat -> num.
#[local] Abbreviation cf := (compute_features fadd fsub fmul fdiv fsqrt).
#[local] Abbreviation single := (calculate_fcn fadd fsub fmul fdiv fsqrt).
#[local] Abbreviation batch := (batch_calculate_fcn fadd fsub fmul fdiv fsqrt fround).
#[local] Abbreviation made := (made_quote fadd fsub fmul fdiv fsqrt fround).
#[local] Abbreviation mades := (made_quotes fadd fsub fmul fdiv fsqrt fround).
#[local] Abbreviation response := (batch_response fadd fsub fmul fdiv fsqrt fround).


Lemma sort_and_pad_length rows : length (sort_and_pad rows) = Nat.max 4 (length rows).
Proof.
  unfold sort_and_pad. rewrite length_app, length_fmap, length_replicate, sort_desc_length.
  lia.
Qed.




(** X8.  A pricing date given in the request for which no snapshot exists
    makes both endpoints fail with status 404, the detail naming that date,
    whatever the symbols are; nothing is computed. *)
Theorem unknown_pricing_date_is_404 w symbols pool sizes t mdl d :
  model w = Some mdl ->
  iv_files w <> [] ->
  (knockInPrice t < strikePrice t)%Q ->
  (strikePrice t < knockOutPrice t)%Q ->
  pricingDate t = Some d -> d <> "" ->
  dict_get (iv_files w) d = None ->
  single w (FCNReq symbols t) = ([], Raise (HTTPException 404 (MissingFile d)))
  /\ (Exists (fun s => 1 <= s <= 4)%Z sizes ->
      batch w (BatchReq pool sizes t) = ([], Raise (HTTPException 404 (MissingFile d)))).
Proof.
  intros Hm Hf Hki%Qle_bool_false Hko%Qle_bool_false Hd Hne Hdf.
  assert (forall latest, resolve_pricing_date t latest = d) as Hres.
  { intros latest. unfold resolve_pricing_date. rewrite Hd.
    destruct (String.eqb d "") eqn:E; [|done]. by apply String.eqb_eq in E. }
  destruct (get_available_dates w) as [|latest rest] eqn:Hdates.
  { by apply get_available_dates_nil in Hdates. }
  split.
  - unfold calculate_fcn. cbn [fcn_terms stocks].
    rewrite Hm, Hdates, Hki, Hko. unfold load_iv_data. by rewrite Hres, Hdf.
  - intros Hs. unfold batch_calculate_fcn. cbn [batch_terms stockPool basketSizes].
    rewrite Hm, Hdates, Hki, Hko.
    destruct (filter _ sizes) as [|size0 sizes'] eqn:Hsz.
    { exfalso. apply Exists_exists in Hs as (s & Hin & Hr).
      assert (s ∈ filter (fun s => (1 <= s)%Z /\ (s <= 4)%Z) sizes) as Hin'
        by (apply list_elem_of_filter; split; [lia|done]).
      rewrite Hsz in Hin'. by apply elem_of_nil in Hin'. }
    unfold load_iv_data. by rewrite Hres, Hdf.
Qed.

End QuoteProperties.

Section BatchProperties.
Variables (fadd fsub fmul fdiv : num -> num -> num) (fsqrt : num -> num).
Variable fround : num -> nat -> num.
#[local] Abbreviation cf := (compute_features fadd fsub fmul fdiv fsqrt).
#[local] Abbreviation single := (calculate_fcn fadd fsub fmul fdiv fsqrt).
#[local] Abbreviation batch := (batch_calculate_fcn fadd fsub fmul fdiv fsqrt fround).
#[local] Abbreviation made := (made_quote fadd fsub fmul fdiv fsqrt fround).
#[local] Abbreviation mades := (made_quotes fadd fsub fmul fdiv fsqrt fround).
#[local] Abbreviation set_boost := (set_yield_boost fsub fround).
#[local] Abbreviation response := (batch_response fadd fsub fmul fdiv fsqrt fround).




Lemma made_coupon_notna mdl columns t base sdata sinfo kc n :
  (forall x digits, is_nan (fround (Fin x) digits) = false) ->
  notna (couponRate (made mdl columns t base sdata sinfo kc n)) = true.
Proof. intros H. apply notna_is_nan. cbn. apply H. Qed.

(** X10.  When rounding a finite number gives a number, the quotes of a
    batch response are in descending order of coupon rate: no quote has a
    smaller coupon rate than a quote after it. *)
Theorem batch_quotes_sorted_by_coupon w request tr resp i j qi qj :
  (forall x digits, is_nan (fround (Fin x) digits) = false) ->
  batch w request = (tr, Return resp) ->
  (i < j)%nat ->
  quotes resp !! i = Some qi -> quotes resp !! j = Some qj ->
  py_ge (couponRate qi) (couponRate qj) = true.
Proof.
  intros Hround H Hij Hi Hj.
  destruct (batch_returned fadd fsub fmul fdiv fsqrt fround w request tr resp H)
    as (mdl & latest & rest & df & _ & _ & _ & _ & _ & _ & _ & -> & _).
  unfold batch_response in Hi, Hj. cbn [quotes] in Hi, Hj.
  rewrite list_lookup_fmap in Hi, Hj.
  destruct (sort_desc _ _ _ !! i) as [qi'|] eqn:Hi'; [|done].
  destruct (sort_desc _ _ _ !! j) as [qj'|] eqn:Hj'; [|done].
  injection Hi as <-. injection Hj as <-. cbn.
  set (ok := fun q : Quote => notna (couponRate q) = true).
  assert (Forall ok (made_quotes fadd fsub fmul fdiv fsqrt fround mdl (feature_cols w)
                       (batch_terms request) (make_input (batch_terms request))
                       (collect_pool df (stockPool request) [] ∅).1
                       (collect_pool df (stockPool request) [] ∅).2
                       (planned ((collect_pool df (stockPool request) [] ∅).1).*1
                          (valid_sizes_of request)) 0)) as Hok.
  { apply Forall_forall. intros q (n & kc & -> & _)%elem_of_lookup_imap.
    by apply made_coupon_notna. }
  pose proof (sort_desc_sorted py_lt couponRate ok
                (fun x y _ _ => py_lt_asym _ _)
                (fun x y z _ Hy _ => py_ge_trans _ _ _ Hy) _ Hok) as Hsorted.
  pose proof (StronglySorted_lookup_lt _ _ _ _ _ _ Hsorted Hij Hi' Hj') as Hnb.
  assert (forall q, q ∈ sort_desc py_lt couponRate
                          (made_quotes fadd fsub fmul fdiv fsqrt fround mdl (feature_cols w)
                             (batch_terms request) (make_input (batch_terms request))
                             (collect_pool df (stockPool request) [] ∅).1
                             (collect_pool df (stockPool request) [] ∅).2
                             (planned ((collect_pool df (stockPool request) [] ∅).1).*1
                                (valid_sizes_of request)) 0) -> ok q) as Hall.
  { intros q Hq%sort_desc_elem. rewrite Forall_forall in Hok. by apply Hok. }
  apply py_not_lt_le; [apply Hall|apply Hall|exact Hnb]; by eapply list_elem_of_lookup_2.
Qed.

(** X11.  The identifiers of the quotes of a batch response are the strings
    quote-0, quote-1, ... up to the total count, each used once: they number
    the quotes in the order of their computation, before the sort. *)
Theorem batch_quote_ids w request tr resp :
  batch w request = (tr, Return resp) ->
  quote_ident <$> quotes resp
  ≡ₚ (fun n => "quote-" +:+ str_of_nat n) <$> seq 0 (totalCount resp)
  /\ NoDup (quote_ident <$> quotes resp).
Proof.
  intros H.
  destruct (batch_returned fadd fsub fmul fdiv fsqrt fround w request tr resp H)
    as (mdl & latest & rest & df & _ & _ & _ & _ & _ & _ & _ & -> & _).
  assert (quote_ident <$> quotes (response mdl (feature_cols w) request
                                     (resolve_pricing_date (batch_terms request) latest) df)
          ≡ₚ (fun n => "quote-" +:+ str_of_nat n)
               <$> seq 0 (totalCount (response mdl (feature_cols w) request
                                        (resolve_pricing_date (batch_terms request) latest)
                                        df))) as Hperm.
  { unfold batch_response. cbn [quotes totalCount].
    rewrite length_fmap, sort_desc_length, made_quotes_length.
    rewrite <- list_fmap_compose.
    etrans; [apply fmap_Permutation; symmetry; apply sort_desc_perm|].
    unfold made_quotes. rewrite fmap_imap. by rewrite <- imap_seq_0. }
  split; [done|]. rewrite Hperm. apply NoDup_fmap_2; [|apply NoDup_seq].
  intros a b Hab. by apply str_of_nat_inj, (append_inj_r "quote-").
Qed.

(** The symbols of a planned basket are among the usable symbols of the
    pool, each with a row. *)
Lemma planned_symbols df pool sizes n kc s :
  planned (valid_stocks_of df pool) sizes !! n = Some kc ->
  s ∈ kc.2 ->
  exists r, first_row df s = Some r
            /\ dict_get (collect_pool df pool [] ∅).1 s = Some r
            /\ (collect_pool df pool [] ∅).2 !! s = Some (summary_of r).
Proof.
  intros Hkc Hs. apply list_elem_of_lookup_2 in Hkc. destruct kc as [k c].
  apply planned_elem in Hkc as (_ & _ & Hc). apply combinations_sublist in Hc as [Hsub _].
  apply collect_pool_rows. eapply elem_of_sublist; [exact Hs|exact Hsub].
Qed.

(** X12.  The stock information attached to a quote covers exactly the
    symbols of its basket, and gives for each the price, 3-month put implied
    vol and 90-day volatility of the first row the snapshot has for it. *)
Theorem batch_quote_stock_info w request tr resp q :
  batch w request = (tr, Return resp) -> q ∈ quotes resp ->
  exists df,
    dict_get (iv_files w) (pricingDate_out resp) = Some df
    /\ dom (stockInfo q) = list_to_set (quote_stocks q)
    /\ (forall s, s ∈ quote_stocks q ->
          exists r, first_row df s = Some r /\ stockInfo q !! s = Some (summary_of r)).
Proof.
  intros H Hq.
  destruct (batch_returned fadd fsub fmul fdiv fsqrt fround w request tr resp H)
    as (mdl & latest & rest & df & _ & _ & _ & _ & _ & Hdf & _ & -> & _).
  exists df. split; [done|].
  apply response_quote in Hq as (avg & min_size & n & kc & Hkc & ->).
  cbn [stockInfo quote_stocks set_yield_boost made_quote].
  assert (forall s, s ∈ kc.2 ->
            exists r, first_row df s = Some r
                      /\ filter (fun kv : string * stock_summary => kv.1 ∈ kc.2)
                           (collect_pool df (stockPool request) [] ∅).2 !! s
                         = Some (summary_of r)) as Hin.
  { intros s Hs. destruct (planned_symbols _ _ _ _ _ _ Hkc Hs) as (r & Hr & _ & Hinfo).
    exists r. split; [done|]. by apply map_lookup_filter_Some. }
  split; [|done].
  apply set_eq. intros s. rewrite elem_of_dom, elem_of_list_to_set. split.
  - intros [x Hx]. by apply map_lookup_filter_Some in Hx as [_ ?].
  - intros Hs. destruct (Hin s Hs) as (r & _ & ->). by eexists.
Qed.

(** X13.  Every quote of a batch response agrees with the single quote of
    its basket: asked for the same symbols under the same terms, the
    single-quote endpoint returns, its yield rounded to two decimals is the
    coupon rate of the batch quote, and its stock information is that of
    the batch quote. *)
Theorem batch_quote_matches_single w request tr resp q :
  batch w request = (tr, Return resp) -> q ∈ quotes resp ->
  exists tr1 resp1,
    single w (FCNReq (quote_stocks q) (batch_terms request)) = (tr1, Return resp1)
    /\ couponRate q = py_round fround (PyFloat (Fin (annualized_yield resp1))) 2
    /\ stockInfo q = stock_info_out resp1
    /\ pricingDate_out resp = pricing_date_used resp1.
Proof.
  intros H Hq.
  destruct (batch_returned fadd fsub fmul fdiv fsqrt fround w request tr resp H)
    as (mdl & latest & rest & df & Hm & Hd & Hki & Hko & _ & Hdf & _ & -> & _).
  apply response_quote in Hq as (avg & min_size & n & kc & Hkc & ->).
  cbn [stockInfo quote_stocks couponRate set_yield_boost made_quote].
  set (sdata := (collect_pool df (stockPool request) [] ∅).1) in *.
  assert (mapM (first_row df) kc.2 = Some (omap (dict_get sdata) kc.2)) as Hrows.
  { apply pool_rows_of_combo. intros s Hs.
    destruct (planned_symbols _ _ _ _ _ _ Hkc Hs) as (r & Hr & Hg & _). by exists r. }
  do 2 eexists.
  split.
  { by apply (single_run fadd fsub fmul fdiv fsqrt w (FCNReq kc.2 (batch_terms request))
                mdl latest rest df _ Hm Hd Hki Hko Hdf Hrows). }
  cbn [annualized_yield stock_info_out pricing_date_used stocks fcn_terms].
  split; [done|]. split; [|done].
  apply map_eq. intros s. rewrite info_of_lookup, lookup_empty.
  destruct (bool_decide (s ∈ kc.2)) eqn:E.
  - apply bool_decide_eq_true_1 in E.
    destruct (planned_symbols _ _ _ _ _ _ Hkc E) as (r & Hr & _ & Hinfo).
    rewrite Hr. by apply map_lookup_filter_Some.
  - apply bool_decide_eq_false_1 in E. apply map_lookup_filter_None. right.
    intros x _. done.
Qed.

End BatchProperties.

(* ================================================================== *)
(** * The non-call period of an accepted request *)


Section NonCallProperties.
Variables (fadd fsub fmul fdiv : num -> num -> num) (fsqrt : num -> num).
Variable fround : num -> nat -> num.
#[local] Abbreviation cf := (compute_features fadd fsub fmul fdiv fsqrt).
#[local] Abbreviation single := (calculate_fcn fadd fsub fmul fdiv fsqrt).
#[local] Abbreviation batch := (batch_calculate_fcn fadd fsub fmul fdiv fsqrt fround).


End NonCallProperties.


(* ================================================================== *)
(** * Further facts: strings, dates and listings *)

Lemma prefix_shorter (p q s : string) :
  String.prefix (p +:+ q) s = true -> String.prefix p s = true.
Proof.
  revert s. induction p as [|a p IH]; intros s; [by destruct s|].
  change (String a p +:+ q) with (String a (p +:+ q)).
  destruct s as [|b s]; cbn; [done|]. destruct (Ascii.ascii_dec a b); [apply IH|done].
Qed.

Lemma str_contains_prefix (p q s : string) :
  (forall s', String.prefix q s' = true -> String.prefix p s' = true) ->
  str_contains q s = true -> str_contains p s = true.
Proof.
  intros Hpq. induction s as [|c s IH]; cbn [str_contains].
  - rewrite !orb_false_r. apply Hpq.
  - intros [H|H]%orb_true_iff; apply orb_true_iff; [left; by apply Hpq|right; by apply IH].
Qed.

(** A code that mentions SOFRRATE mentions SOFR. *)
Lemma sofrrate_is_sofr (s : string) :
  str_contains "SOFRRATE" s = true -> str_contains "SOFR" s = true.
Proof.
  apply str_contains_prefix. intros s' H.
  apply (prefix_shorter "SOFR" "RATE"). exact H.
Qed.

Lemma string_ltb_lt (a b : string) : String.ltb a b = true <-> String_as_OT.lt a b.
Proof.
  rewrite <- String_as_OT.cmp_lt. unfold String.ltb.
  change String_as_OT.cmp with String.compare. by destruct (String.compare a b).
Qed.

Lemma string_ltb_asym (a b : string) : String.ltb a b = true -> String.ltb b a = false.
Proof.
  unfold String.ltb. rewrite (String.compare_antisym b a).
  by destruct (String.compare a b).
Qed.

Lemma string_ltb_total (a b : string) :
  String.ltb a b = false -> String.ltb b a = false -> a = b.
Proof.
  unfold String.ltb. rewrite (String.compare_antisym b a).
  destruct (String.compare a b) eqn:E; try done. intros _ _. by apply String.compare_eq_iff.
Qed.

Lemma string_ge_trans (a b c : string) :
  String.ltb a b = false -> String.ltb b c = false -> String.ltb a c = false.
Proof.
  intros Hab Hbc. destruct (String.ltb a c) eqn:Hac; [|done].
  destruct (String.ltb c b) eqn:Hcb.
  - assert (String.ltb a b = true); [|congruence].
    apply string_ltb_lt. eapply String_as_OT.lt_trans; by apply string_ltb_lt.
  - assert (b = c) as -> by by apply string_ltb_total. congruence.
Qed.

Lemma available_dates_sorted w :
  StronglySorted (fun a b => String.ltb a b = false) (get_available_dates w).
Proof.
  unfold get_available_dates.
  apply (sort_desc_sorted String.ltb (fun s : string => s) (fun _ => True)).
  - intros x y _ _. apply string_ltb_asym.
  - intros x y z _ _ _. apply string_ge_trans.
  - by apply Forall_forall.
Qed.

Lemma available_dates_perm w : get_available_dates w ≡ₚ (iv_files w).*1.
Proof. unfold get_available_dates. symmetry. apply sort_desc_perm. Qed.

(** The latest date is the key of a snapshot. *)
Lemma latest_snapshot w latest rest :
  get_available_dates w = latest :: rest ->
  exists df, dict_get (iv_files w) latest = Some df.
Proof.
  intros H. apply dict_get_keys. rewrite <- available_dates_perm, H. left.
Qed.

Lemma string_leb_ltb (a b : string) : String.leb a b = negb (String.ltb b a).
Proof.
  unfold String.leb, String.ltb. rewrite (String.compare_antisym a b).
  by destruct (String.compare b a).
Qed.

(** X14.  The available dates are the date keys of the snapshots, latest
    first: each is at least as late as every date after it, so the first one
    is the latest; the health answer shows the first five of them, which
    none of the others exceeds. *)
Theorem available_dates_latest_first w :
  get_dates w ≡ₚ (iv_files w).*1
  /\ (forall i j a b,
        (i < j)%nat -> get_dates w !! i = Some a -> get_dates w !! j = Some b ->
        String.leb b a = true)
  /\ (forall latest rest d,
        get_dates w = latest :: rest -> d ∈ (iv_files w).*1 -> String.leb d latest = true)
  /\ available_dates (health_check w) = take 5 (get_dates w)
  /\ (length (available_dates (health_check w)) <= 5)%nat
  /\ (forall shown hidden,
        shown ∈ available_dates (health_check w) ->
        hidden ∈ drop 5 (get_dates w) -> String.leb hidden shown = true).
Proof.
  unfold get_dates. pose proof (available_dates_sorted w) as Hs.
  assert (forall i j a b,
            (i < j)%nat -> get_available_dates w !! i = Some a ->
            get_available_dates w !! j = Some b -> String.leb b a = true) as Hord.
  { intros i j a b Hij Hi Hj. rewrite string_leb_ltb.
    by rewrite (StronglySorted_lookup_lt _ _ _ _ _ _ Hs Hij Hi Hj). }
  split; [apply available_dates_perm|]. split; [done|]. split.
  { intros latest rest d Hd Hin. rewrite <- available_dates_perm, Hd in Hin.
    apply elem_of_cons in Hin as [->|Hin].
    - rewrite string_leb_ltb.
      destruct (String.ltb latest latest) eqn:E; [|done].
      pose proof (string_ltb_asym _ _ E). congruence.
    - apply list_elem_of_lookup in Hin as [j Hj].
      apply (Hord 0%nat (S j)); [lia|by rewrite Hd|by rewrite Hd]. }
  split; [done|]. split; [cbn; rewrite length_take; lia|].
  intros shown hidden Hsh Hh. cbn in Hsh.
  apply list_elem_of_lookup in Hsh as [i Hi], Hh as [j Hj].
  rewrite lookup_take_Some in Hi. destruct Hi as [Hi Hlt].
  rewrite lookup_drop in Hj. apply (Hord i (5 + j)%nat); [lia|done|done].
Qed.


Lemma safe_float_cell (c : option Q) : safe_float (to_num (cell c)) = c.
Proof. by destruct c. Qed.

Lemma extract_indices_snoc df r :
  extract_indices (df ++ [r])
  = let market_indices := extract_indices df in
    match PX_LAST r with
    | Some price =>
        if str_contains "SOFR" (BBG_Code r) then
          {| SOFR_RATE := price; VIX_INDEX := VIX_INDEX market_indices |}
        else if str_contains "VIX" (BBG_Code r) then
          {| SOFR_RATE := SOFR_RATE market_indices; VIX_INDEX := price |}
        else market_indices
    | None => market_indices
    end.
Proof.
  unfold extract_indices. rewrite fold_left_app. cbn [fold_left]. cbv zeta.
  rewrite safe_float_cell. destruct (PX_LAST r) as [price|]; [|done].
  destruct (str_contains "SOFR" (BBG_Code r)) eqn:E; [by rewrite orb_true_r|].
  destruct (str_contains "SOFRRATE" (BBG_Code r)) eqn:E'; [|done].
  apply sofrrate_is_sofr in E'. congruence.
Qed.

(** X16.  The market indices of a snapshot: the SOFR rate is the last price
    of the last row whose code mentions SOFR and has a price, 5.0 when there
    is none; the VIX index is the last price of the last row whose code
    mentions VIX but not SOFR and has a price, 15.0 when there is none.  The
    test for SOFRRATE adds nothing to the test for SOFR.  The market
    parameters endpoint answers 404 without snapshot and otherwise gives the
    indices of the latest one. *)
Theorem market_indices_of_snapshot df :
  let indices := extract_indices df in
  SOFR_RATE indices = default 5%Q (last (omap (index_price "SOFR" []) df))
  /\ VIX_INDEX indices = default 15%Q (last (omap (index_price "VIX" ["SOFR"]) df))
  /\ (forall code, str_contains "SOFRRATE" code || str_contains "SOFR" code
                   = str_contains "SOFR" code)
  /\ (forall w date_key,
        dict_get (iv_files w) date_key = Some df ->
        get_market_indices w date_key = ([], Return indices))
  /\ (forall w, iv_files w = [] ->
        get_market_params w = ([], Raise (HTTPException 404 NoIVData)))
  /\ (forall w latest rest,
        get_available_dates w = latest :: rest ->
        dict_get (iv_files w) latest = Some df ->
        get_market_params w = ([], Return indices)).
Proof.
  cbv zeta. split; [|split]; [| |split; [|split; [|split]]].
  - induction df as [|r df IH] using rev_ind; [done|].
    rewrite extract_indices_snoc, omap_app. cbv zeta. cbn [omap list_omap].
    unfold index_price at 2. cbn [forallb]. rewrite andb_true_r.
    destruct (PX_LAST r) as [price|].
    + destruct (str_contains "SOFR" (BBG_Code r)); cbn.
      * by rewrite last_snoc.
      * rewrite app_nil_r. by destruct (str_contains "VIX" (BBG_Code r)).
    + destruct (str_contains "SOFR" (BBG_Code r)); cbn; by rewrite app_nil_r.
  - induction df as [|r df IH] using rev_ind; [done|].
    rewrite extract_indices_snoc, omap_app. cbv zeta. cbn [omap list_omap].
    unfold index_price at 2. cbn [forallb]. rewrite andb_true_r.
    destruct (PX_LAST r) as [price|].
    + destruct (str_contains "SOFR" (BBG_Code r)); cbn.
      * rewrite andb_false_r. cbn. by rewrite app_nil_r.
      * rewrite andb_true_r. destruct (str_contains "VIX" (BBG_Code r)); cbn.
        -- by rewrite last_snoc.
        -- by rewrite app_nil_r.
    + destruct (str_contains "VIX" (BBG_Code r) && negb (str_contains "SOFR" (BBG_Code r)));
        cbn; by rewrite app_nil_r.
  - intros code. destruct (str_contains "SOFRRATE" code) eqn:E; [|done].
    by rewrite (sofrrate_is_sofr _ E).
  - intros w date_key H. unfold get_market_indices, load_iv_data. by rewrite H.
  - intros w H. unfold get_market_params.
    by rewrite (proj2 (get_available_dates_nil w) H).
  - intros w latest rest Hd H. unfold get_market_params, get_market_indices, load_iv_data.
    by rewrite Hd, H.
Qed.


(* ================================================================== *)
(** * Further properties: Bloomberg codes and the training recipe *)

Lemma append_nil_r (s : string) : s +:+ "" = s.
Proof.
  induction s as [|c s IH]; [done|].
  change (String c s +:+ "") with (String c (s +:+ "")). by rewrite IH.
Qed.

(** A text without blank passes unchanged through the replacement of a
    pattern that starts with a blank. *)
Lemma str_replace_no_blank (blank : Ascii.ascii) (old' new t rest : string) :
  " " = String blank "" ->
  str_contains " " t = false ->
  str_replace_from (String blank old') new 0 (t +:+ rest)
  = t +:+ str_replace_from (String blank old') new 0 rest.
Proof.
  intros Hb. induction t as [|c t IH]; intros H; [done|].
  cbn [str_contains] in H. apply orb_false_iff in H as [Hc Ht].
  change (String c t +:+ rest) with (String c (t +:+ rest)).
  rewrite Hb in Hc. cbn [str_replace_from String.prefix] in *.
  destruct (Ascii.ascii_dec blank c) as [<-|Hne]; [by destruct t|].
  by rewrite IH.
Qed.

(** X18.  The cleaning of Bloomberg codes maps a ticker without blank,
    followed by [ US Equity], [ Equity] or [ US], to the ticker, and leaves
    the bare ticker as it is; of another market suffix only [ Equity] is
    removed, as for [700 HK Equity]. *)
Theorem clean_code_of_ticker (ticker : string) :
  str_contains " " ticker = false ->
  clean_code (ticker +:+ " US Equity") = ticker
  /\ clean_code (ticker +:+ " Equity") = ticker
  /\ clean_code (ticker +:+ " US") = ticker
  /\ clean_code ticker = ticker
  /\ clean_code (ticker +:+ " HK Equity") = ticker +:+ " HK".
Proof.
  intros H. unfold clean_code, str_replace.
  pose proof (str_replace_no_blank _ "Equity" "" ticker "" eq_refl H) as Hid1.
  pose proof (str_replace_no_blank _ "US" "" ticker "" eq_refl H) as Hid2.
  cbn [str_replace_from] in Hid1, Hid2. rewrite !append_nil_r in Hid1, Hid2.
  repeat split.
  - rewrite (str_replace_no_blank _ "Equity" "" ticker " US Equity" eq_refl H).
    change (str_replace_from " Equity" "" 0 " US Equity") with " US".
    rewrite (str_replace_no_blank _ "US" "" ticker " US" eq_refl H).
    change (str_replace_from " US" "" 0 " US") with "". apply append_nil_r.
  - rewrite (str_replace_no_blank _ "Equity" "" ticker " Equity" eq_refl H).
    change (str_replace_from " Equity" "" 0 " Equity") with "".
    rewrite append_nil_r. apply Hid2.
  - rewrite (str_replace_no_blank _ "Equity" "" ticker " US" eq_refl H).
    change (str_replace_from " Equity" "" 0 " US") with " US".
    rewrite (str_replace_no_blank _ "US" "" ticker " US" eq_refl H).
    change (str_replace_from " US" "" 0 " US") with "". apply append_nil_r.
  - by rewrite Hid1, Hid2.
  - rewrite (str_replace_no_blank _ "Equity" "" ticker " HK Equity" eq_refl H).
    change (str_replace_from " Equity" "" 0 " HK Equity") with " HK".
    by rewrite (str_replace_no_blank _ "US" "" ticker " HK" eq_refl H).
Qed.

Section TrainingProperties.
Variables (fadd fsub fmul fdiv : num -> num -> num) (fsqrt : num -> num).
#[local] Abbreviation cf := (compute_features fadd fsub fmul fdiv fsqrt).
#[local] Abbreviation before_risk := (features_before_risk fadd fsub fmul fdiv fsqrt).

Lemma cf_raw_suffix input ivs col i :
  col ∈ iv_cols -> (i < 4)%nat ->
  default np_nan (cf input ivs !! (col +:+ suffix i)) = slot_val ivs col i.
Proof. intros Hc Hi. by rewrite cf_raw. Qed.

Lemma training_indices input ivs : get_iv_sort_indices (cf input ivs) = ranking ivs.
Proof.
  unfold get_iv_sort_indices, ranking. cbv zeta. do 2 f_equal.
  change training_suffixes with ((fun i => (i, suffix i)) <$> seq 0 max_stocks).
  rewrite <- list_fmap_compose. apply list_fmap_ext. intros k i Hi%lookup_seq.
  unfold max_stocks in Hi. cbn [compose].
  rewrite cf_raw_suffix; [|apply iv_in_cols|lia].
  unfold slot_sort_key. by destruct (notna _).
Qed.

Lemma iv_groups_cols group cols :
  (group, cols) ∈ iv_groups ->
  group ∈ iv_cols /\ cols = (fun i => group +:+ suffix i) <$> seq 0 4.
Proof.
  revert group cols.
  assert (Forall (fun gc : string * list string =>
                    gc.1 ∈ iv_cols /\ gc.2 = (fun i => gc.1 +:+ suffix i) <$> seq 0 4)
            iv_groups) as H.
  { repeat constructor; apply (bool_decide_unpack _); vm_compute; exact I. }
  rewrite Forall_forall in H. intros group cols Hin. apply (H _ Hin).
Qed.

(** X19.  Serving ranks as training does: on the dictionary built by
    [compute_features], the sort indices of the training script are the
    order in which the ranked columns were filled, and every ranked column
    holds the value the training script would read for it from the raw
    columns of the same dictionary. *)
Theorem serving_ranks_as_training input ivs :
  let features := cf input ivs in
  get_iv_sort_indices features ≡ₚ [0; 1; 2; 3]%nat
  /\ forall group cols i,
       (group, cols) ∈ iv_groups -> (i < 4)%nat ->
       features !! (group +:+ "_Rank_" +:+ str_of_nat (i + 1))
       = Some (get_sorted_value features cols (nth i (get_iv_sort_indices features) 0%nat)).
Proof.
  cbv zeta. rewrite training_indices. split; [apply ranking_perm|].
  intros group cols i [Hg ->]%iv_groups_cols Hi.
  change (group +:+ "_Rank_" +:+ str_of_nat (i + 1)) with (rank_key (group, i)).
  rewrite cf_rank by done. f_equal. unfold get_sorted_value.
  pose proof (ranking_lt ivs i Hi) as Hlt.
  rewrite list_lookup_fmap, lookup_seq_lt by done. cbn.
  by rewrite cf_raw.
Qed.

Lemma training_values input ivs col :
  col ∈ iv_cols -> (length ivs <= 4)%nat ->
  omap (fun c => match cf input ivs !! c with
                 | Some v => if notna v then Some v else None
                 | None => None
                 end) ((fun i => col +:+ suffix i) <$> seq 0 4)
  = col_values col ivs.
Proof.
  intros Hc Hlen. rewrite (col_values_slots col ivs 4 Hlen).
  assert (Forall (fun i => (i < 4)%nat) (seq 0 4)) as Hall.
  { apply Forall_forall. intros i Hi%elem_of_seq. lia. }
  induction Hall as [|i l Hi _ IH]; [done|].
  rewrite !fmap_cons, filter_cons. cbn [omap list_omap]. rewrite cf_raw by done.
  rewrite IH. destruct (notna (slot_val ivs col i)) eqn:E.
  - by rewrite decide_True.
  - by rewrite decide_False by congruence.
Qed.

Lemma before_risk_avg_hv input ivs :
  before_risk input ivs !! "Basket_Avg_HV"
  = Some (agg_or_nan (np_mean fadd fdiv) (col_values "VOLATILITY_90D" ivs)).
Proof.
  unfold features_before_risk. cbv zeta. unfold aggregate_features. repeat name_let.
  repeat skip_insert. by hit_insert.
Qed.

Lemma safe_agg_values input ivs col func :
  col ∈ iv_cols -> (length ivs <= 4)%nat ->
  safe_agg fadd fsub fdiv (cf input ivs) ((fun i => col +:+ suffix i) <$> seq 0 4) func
  = match col_values col ivs with
    | [] => Some np_nan
    | v :: vs =>
        if String.eqb func "max" then Some (py_max v vs)
        else if String.eqb func "min" then Some (py_min v vs)
        else if String.eqb func "mean" then Some (np_mean fadd fdiv v vs)
        else if String.eqb func "range" then
          Some (if (1 <? length (col_values col ivs))%nat
                then py_sub fsub (py_max v vs) (py_min v vs) else PyInt 0)
        else None
    end.
Proof. intros Hc Hlen. unfold safe_agg. cbv zeta. by rewrite training_values. Qed.

(** X20.  Serving aggregates as training does: for a basket of at most four
    slots, the worst, best and average implied vol and the average
    historical vol computed by [compute_features] are what [safe_agg] of the
    training script gives on the raw columns of the same dictionary, and
    the IV range is what its range branch gives when some implied vol is
    present. *)
Theorem serving_aggregates_as_training input ivs :
  (length ivs <= 4)%nat ->
  let features := cf input ivs in
  let agg := safe_agg fadd fsub fdiv features in
  features !! "Basket_Worst_IV" = agg iv_3m_cols "max"
  /\ features !! "Basket_Best_IV" = agg iv_3m_cols "min"
  /\ features !! "Basket_Avg_IV" = agg iv_3m_cols "mean"
  /\ features !! "Basket_Avg_HV" = agg hv_90d_cols "mean"
  /\ (col_values "PUT_IMP_VOL_3M" ivs <> [] ->
      features !! "Basket_IV_Range" = agg iv_3m_cols "range").
Proof.
  intros Hlen. cbv zeta.
  change iv_3m_cols with ((fun i => "PUT_IMP_VOL_3M" +:+ suffix i) <$> seq 0 4).
  change hv_90d_cols with ((fun i => "VOLATILITY_90D" +:+ suffix i) <$> seq 0 4).
  rewrite !safe_agg_values
    by (first [done | apply (bool_decide_unpack _); vm_compute; exact I]).
  cbn [String.eqb Ascii.eqb Bool.eqb].
  destruct (before_risk_iv fadd fsub fmul fdiv fsqrt input ivs) as (Hw & Hb & Hr & Ha & _).
  rewrite !cf_aggregate_key by (apply (bool_decide_unpack _); vm_compute; exact I).
  rewrite Hw, Hb, Hr, Ha, before_risk_avg_hv.
  split; [by destruct (col_values "PUT_IMP_VOL_3M" ivs)|].
  split; [by destruct (col_values "PUT_IMP_VOL_3M" ivs)|].
  split; [by destruct (col_values "PUT_IMP_VOL_3M" ivs)|].
  split; [by destruct (col_values "VOLATILITY_90D" ivs)|].
  intros Hne. destruct (col_values "PUT_IMP_VOL_3M" ivs) as [|v [|v' vs]];
    [congruence|reflexivity|reflexivity].
Qed.

End TrainingProperties.

(* ================================================================== *)
(** * Further properties: the snapshot store *)























(* ================================================================== *)
(** * The further properties at concrete inputs *)

Lemma first_rank_is_worst_iv_witness :
  let ivs := [Some Sample.amd; Some Sample.nvda; None; Some Sample.tsla] in
  let features := Exact.compute_features (make_input Sample.terms) ivs in
  (length ivs <= 4)%nat
  /\ col_values "PUT_IMP_VOL_3M" ivs <> []
  /\ features !! "PUT_IMP_VOL_3M_Rank_1" = features !! "Basket_Worst_IV"
  /\ notna (getitem features "Basket_Worst_IV") = true.
Proof.
  intros ivs features.
  assert (length ivs <= 4)%nat as H1 by (cbn; lia).
  assert (col_values "PUT_IMP_VOL_3M" ivs <> []) as H2 by discriminate.
  destruct (first_rank_is_worst_iv Exact.fadd Exact.fsub Exact.fmul Exact.fdiv Exact.fsqrt
              (make_input Sample.terms) ivs H1 H2) as (Ha & Hb & _).
  exact (conj H1 (conj H2 (conj Ha Hb))).
Defined.

Lemma no_implied_vol_no_risk_score_witness :
  let ivs := [Some Sample.xnan; None; None; None] in
  let features := Exact.compute_features (make_input Sample.terms) ivs in
  col_values "PUT_IMP_VOL_3M" ivs = []
  /\ features !! "Basket_Worst_IV" = Some np_nan
  /\ features !! "Basket_IV_Range" = Some (PyInt 0)
  /\ (forall k, k ∈ risk_keys -> features !! k = Some np_nan).
Proof.
  intros ivs features.
  assert (col_values "PUT_IMP_VOL_3M" ivs = []) as H by reflexivity.
  destruct (no_implied_vol_no_risk_score Exact.fadd Exact.fsub Exact.fmul Exact.fdiv
              Exact.fsqrt (make_input Sample.terms) ivs H) as (Ha & _ & _ & _ & Hb & Hc).
  exact (conj H (conj Ha (conj Hb Hc))).
Defined.

Lemma basket_iv_extremes_witness :
  let ivs := [Some Sample.amd; Some Sample.nvda; None; Some Sample.tsla] in
  let features := Exact.compute_features (make_input Sample.terms) ivs in
  let iv0 := PyFloat (Fin 40) in
  let rest := [PyFloat (Fin 55); PyFloat (Fin 48)] in
  col_values "PUT_IMP_VOL_3M" ivs = iv0 :: rest
  /\ features !! "Basket_Best_IV" = Some (py_min iv0 rest)
  /\ features !! "Basket_Worst_IV" = Some (py_max iv0 rest)
  /\ features !! "Basket_IV_Range"
     = Some (py_sub Exact.fsub (py_max iv0 rest) (py_min iv0 rest)).
Proof.
  intros ivs features iv0 rest.
  assert (col_values "PUT_IMP_VOL_3M" ivs = iv0 :: rest) as H by reflexivity.
  destruct (basket_iv_extremes Exact.fadd Exact.fsub Exact.fmul Exact.fdiv Exact.fsqrt
              (make_input Sample.terms) ivs iv0 rest H) as (Ha & Hb & _ & _ & _ & Hc).
  exact (conj H (conj Ha (conj Hb Hc))).
Defined.

Lemma skew_and_premium_of_slot_witness :
  let ivs := [Some Sample.amd; Some Sample.nvda; None; None] in
  let features := Exact.compute_features (make_input Sample.terms) ivs in
  let put_iv := slot_val ivs "PUT_IMP_VOL_2M_25D" 1 in
  let call_iv := slot_val ivs "CALL_IMP_VOL_2M_25D" 1 in
  (1 < 4)%nat
  /\ features !! ("IV_Skew_" +:+ str_of_nat (1 + 1))
     = Some (if notna put_iv && notna call_iv
             then py_sub Exact.fsub put_iv call_iv else np_nan).
Proof.
  intros ivs features put_iv call_iv.
  assert (1 < 4)%nat as H by lia.
  destruct (skew_and_premium_of_slot Exact.fadd Exact.fsub Exact.fmul Exact.fdiv Exact.fsqrt
              (make_input Sample.terms) ivs 1%nat H) as (Ha & _).
  exact (conj H Ha).
Defined.



Lemma unknown_pricing_date_is_404_witness :
  let w := Sample.sample_world in
  let t := {| period := 6;
              strikePrice := 95;
              knockOutPrice := 140;
              knockInPrice := 65;
              kiType := "AKI";
              customFeeRate := 99;
              pricingDate := Some "20240101";
              nonCallPeriods := Some 1%Z |} in
  model w = Some Sample.sample_model
  /\ iv_files w <> []
  /\ (knockInPrice t < strikePrice t)%Q
  /\ (strikePrice t < knockOutPrice t)%Q
  /\ pricingDate t = Some "20240101"
  /\ "20240101" <> ""
  /\ dict_get (iv_files w) "20240101" = None
  /\ Exact.calculate_fcn w (FCNReq ["AMD"] t)
     = ([], Raise (HTTPException 404 (MissingFile "20240101"))).
Proof.
  intros w t.
  assert (model w = Some Sample.sample_model) as H1 by reflexivity.
  assert (iv_files w <> []) as H2 by discriminate.
  assert (knockInPrice t < strikePrice t)%Q as H3 by reflexivity.
  assert (strikePrice t < knockOutPrice t)%Q as H4 by reflexivity.
  assert (pricingDate t = Some "20240101") as H5 by reflexivity.
  assert ("20240101" <> "") as H6 by discriminate.
  assert (dict_get (iv_files w) "20240101" = None) as H7 by reflexivity.
  destruct (unknown_pricing_date_is_404 Exact.fadd Exact.fsub Exact.fmul Exact.fdiv
              Exact.fsqrt Exact.fround w ["AMD"] ["AMD"] [1%Z] t Sample.sample_model
              "20240101" H1 H2 H3 H4 H5 H6 H7) as (Hsingle & _).
  exact (conj H1 (conj H2 (conj H3 (conj H4 (conj H5 (conj H6 (conj H7 Hsingle))))))).
Defined.


(** The first two quotes of the sample batch. *)
Lemma sample_batch_two_quotes :
  exists tr resp qi qj,
    Exact.batch_calculate_fcn Sample.sample_world
      (BatchReq ["NVDA"; "TSLA"; "ZZZ"; "AMD"] [1%Z; 2%Z] Sample.terms)
    = (tr, Return resp)
    /\ quotes resp !! 0%nat = Some qi
    /\ quotes resp !! 1%nat = Some qj.
Proof.
  assert ((fun resp => length (quotes resp))
            <$> response_of (Exact.batch_calculate_fcn Sample.sample_world
                               (BatchReq ["NVDA"; "TSLA"; "ZZZ"; "AMD"] [1%Z; 2%Z]
                                  Sample.terms))
          = Some 6%nat) as Hlen by (vm_compute; reflexivity).
  destruct (Exact.batch_calculate_fcn Sample.sample_world
              (BatchReq ["NVDA"; "TSLA"; "ZZZ"; "AMD"] [1%Z; 2%Z] Sample.terms))
    as [tr [e|resp]] eqn:H.
  { discriminate Hlen. }
  unfold response_of in Hlen. cbn in Hlen.
  destruct (quotes resp) as [|qi [|qj qs]] eqn:Hq; [discriminate Hlen|discriminate Hlen|].
  exists tr, resp, qi, qj. rewrite Hq. split; [reflexivity|]. split; reflexivity.
Defined.

Lemma batch_quotes_sorted_by_coupon_witness :
  (forall x digits, is_nan (Exact.fround (Fin x) digits) = false)
  /\ (0 < 1)%nat
  /\ exists tr resp qi qj,
       Exact.batch_calculate_fcn Sample.sample_world
         (BatchReq ["NVDA"; "TSLA"; "ZZZ"; "AMD"] [1%Z; 2%Z] Sample.terms)
       = (tr, Return resp)
       /\ quotes resp !! 0%nat = Some qi
       /\ quotes resp !! 1%nat = Some qj
       /\ py_ge (couponRate qi) (couponRate qj) = true.
Proof.
  assert (forall x digits, is_nan (Exact.fround (Fin x) digits) = false) as Hround
    by (intros x digits; reflexivity).
  assert (0 < 1)%nat as Hlt by lia.
  destruct sample_batch_two_quotes as (tr & resp & qi & qj & H & Hi & Hj).
  refine (conj Hround (conj Hlt _)). exists tr, resp, qi, qj.
  exact (conj H (conj Hi (conj Hj
           (batch_quotes_sorted_by_coupon Exact.fadd Exact.fsub Exact.fmul Exact.fdiv
              Exact.fsqrt Exact.fround _ _ tr resp 0%nat 1%nat qi qj Hround H Hlt Hi Hj)))).
Defined.

Lemma batch_quote_ids_witness :
  exists tr resp,
    Exact.batch_calculate_fcn Sample.sample_world
      (BatchReq ["NVDA"; "TSLA"; "ZZZ"; "AMD"] [1%Z; 2%Z] Sample.terms)
    = (tr, Return resp)
    /\ quote_ident <$> quotes resp
       ≡ₚ (fun n => "quote-" +:+ str_of_nat n) <$> seq 0 (totalCount resp)
    /\ NoDup (quote_ident <$> quotes resp).
Proof.
  destruct sample_batch_succeeds as (tr & resp & H & _).
  exists tr, resp.
  exact (conj H (batch_quote_ids Exact.fadd Exact.fsub Exact.fmul Exact.fdiv Exact.fsqrt
                   Exact.fround _ _ tr resp H)).
Defined.

Lemma batch_quote_stock_info_witness :
  exists tr resp q,
    Exact.batch_calculate_fcn Sample.sample_world
      (BatchReq ["NVDA"; "TSLA"; "ZZZ"; "AMD"] [1%Z; 2%Z] Sample.terms)
    = (tr, Return resp)
    /\ q ∈ quotes resp
    /\ exists df,
         dict_get (iv_files Sample.sample_world) (pricingDate_out resp) = Some df
         /\ dom (stockInfo q) = list_to_set (quote_stocks q)
         /\ (forall s, s ∈ quote_stocks q ->
               exists r, first_row df s = Some r /\ stockInfo q !! s = Some (summary_of r)).
Proof.
  destruct sample_batch_succeeds as (tr & resp & H & q & Hq).
  exists tr, resp, q.
  exact (conj H (conj Hq
           (batch_quote_stock_info Exact.fadd Exact.fsub Exact.fmul Exact.fdiv Exact.fsqrt
              Exact.fround _ _ tr resp q H Hq))).
Defined.

Lemma batch_quote_matches_single_witness :
  exists tr resp q,
    Exact.batch_calculate_fcn Sample.sample_world
      (BatchReq ["NVDA"; "TSLA"; "ZZZ"; "AMD"] [1%Z; 2%Z] Sample.terms)
    = (tr, Return resp)
    /\ q ∈ quotes resp
    /\ exists tr1 resp1,
         Exact.calculate_fcn Sample.sample_world (FCNReq (quote_stocks q) Sample.terms)
         = (tr1, Return resp1)
         /\ couponRate q
            = py_round Exact.fround (PyFloat (Fin (annualized_yield resp1))) 2
         /\ stockInfo q = stock_info_out resp1
         /\ pricingDate_out resp = pricing_date_used resp1.
Proof.
  destruct sample_batch_succeeds as (tr & resp & H & q & Hq).
  exists tr, resp, q.
  exact (conj H (conj Hq
           (batch_quote_matches_single Exact.fadd Exact.fsub Exact.fmul Exact.fdiv
              Exact.fsqrt Exact.fround _ _ tr resp q H Hq))).
Defined.


Lemma clean_code_of_ticker_witness :
  str_contains " " "NVDA" = false
  /\ clean_code ("NVDA" +:+ " US Equity") = "NVDA"
  /\ clean_code ("NVDA" +:+ " Equity") = "NVDA"
  /\ clean_code ("NVDA" +:+ " US") = "NVDA"
  /\ clean_code "NVDA" = "NVDA"
  /\ clean_code ("NVDA" +:+ " HK Equity") = "NVDA" +:+ " HK".
Proof.
  assert (str_contains " " "NVDA" = false) as H by reflexivity.
  exact (conj H (clean_code_of_ticker "NVDA" H)).
Defined.

Lemma serving_aggregates_as_training_witness :
  let ivs := [Some Sample.amd; Some Sample.nvda; None; Some Sample.tsla] in
  let features := Exact.compute_features (make_input Sample.terms) ivs in
  let agg := safe_agg Exact.fadd Exact.fsub Exact.fdiv features in
  (length ivs <= 4)%nat
  /\ features !! "Basket_Worst_IV" = agg iv_3m_cols "max"
  /\ features !! "Basket_Best_IV" = agg iv_3m_cols "min"
  /\ features !! "Basket_Avg_IV" = agg iv_3m_cols "mean"
  /\ features !! "Basket_Avg_HV" = agg hv_90d_cols "mean".
Proof.
  intros ivs features agg.
  assert (length ivs <= 4)%nat as H by (cbn; lia).
  destruct (serving_aggregates_as_training Exact.fadd Exact.fsub Exact.fmul Exact.fdiv
              Exact.fsqrt (make_input Sample.terms) ivs H) as (Ha & Hb & Hc & Hd & _).
  exact (conj H (conj Ha (conj Hb (conj Hc Hd)))).
Defined.


